(** * runtime_ccall: library/symbol lookup and cfunction trampolines

    A shallow embedding of [src/runtime_ccall.cpp]: the library handle
    registry ([jl_get_library_]), the per-call-site symbol lookup
    ([jl_load_and_lookup]), the trampoline slot allocator
    ([trampoline_alloc], [trampoline_free]), the wrapper finalizer
    ([trampoline_deleter]) and the trampoline cache
    ([jl_get_cfunction_trampoline]).

    The C code works on process-wide statics and raw pointers.  Here the
    statics are the fields of one [state] record that every function
    threads through, pointers are integers, and each kind of memory the
    code touches (the slot pages, the malloc heap, the collector's heap,
    the hash tables, the call-site cells) is a finite map from addresses.
    Exceptions ([jl_throw], [jl_rethrow]) are the [Throw] outcome; a failed
    [assert] or an access outside mapped memory is the [Fault] outcome.
    Calls run to completion one after the other: the model has no
    interleaving of threads and runs no finalizer inside a call. *)

From Stdlib Require Import ZArith List Lia Bool.
From stdpp Require Import base option list gmap strings fin_maps pretty.
From Stdlib Require Import Ascii.

Local Open Scope Z_scope.

(** ** Pointers, exceptions, events *)

Abbreviation ptr := Z (only parsing).

Definition NULL : ptr := 0.

(** Modelled from the spec: [htable.h] is not part of the sources at hand;
    [HT_NOTFOUND] is the value a lookup gives for a key that has no entry.
    It is the integer pointer 1 in the runtime's support library. *)
Definition HT_NOTFOUND : ptr := 1.

Inductive jl_exception : Type :=
  | LibraryNotFound (name : string)
  | SymbolNotFound (name : string)
  | MemoryException
  | TypeSystemError (code : Z).

Inductive lock_id : Type := libmap_lock | trampoline_lock.

(** What a call does to the outside world, in order. *)
Inductive event : Type :=
  | EvLock (l : lock_id)
  | EvUnlock (l : lock_id)
  | EvLoadLibrary (name : string)
  | EvDlsym (handle : ptr) (name : string)
  | EvSlotFree (tramp : ptr)
  | EvEvict (cache key : ptr)
  | EvRelease (p : ptr)
  | EvInit (tramp nval : ptr) (buf : list ptr).

(** ** The runtime the file is compiled against

    Constants, macros and functions of [julia.h], [julia_internal.h] and the
    platform that the file uses and does not define.  They are taken as
    parameters: the theorems hold for every runtime. *)
Record Runtime : Type := {
  (* fixed library handles and the reserved library names *)
  jl_RTLD_DEFAULT_handle : ptr;
  jl_exe_handle : ptr;
  jl_libjulia_internal_handle : ptr;
  jl_libjulia_handle : ptr;
  JL_EXE_LIBNAME : ptr;
  JL_LIBJULIA_INTERNAL_DL_LIBNAME : ptr;
  JL_LIBJULIA_DL_LIBNAME : ptr;
  (* the characters of the C string at an address *)
  cstring : ptr -> string;
  (* the platform loader: NULL when the library cannot be loaded *)
  platform_dlopen : string -> ptr;
  (* the platform symbol primitive *)
  platform_dlsym : ptr -> string -> option ptr;
  (* the type system *)
  jl_emptysvec : ptr;
  jl_any_type : ptr;
  jl_voidpointer_type : ptr;
  jl_svec_data : ptr -> list ptr;
  jl_instantiate_type_in_env : ptr -> ptr -> ptr -> jl_exception + ptr;
  jl_is_concrete_type : ptr -> bool;
  jl_is_immutable : ptr -> bool;
  jl_is_unionall : ptr -> bool;
  jl_is_datatype : ptr -> bool;
  jl_unwrap_unionall : ptr -> ptr;
  datatype_instance : ptr -> ptr;       (* ((jl_datatype_t* )t)->instance *)
  datatype_name_wrapper : ptr -> ptr;   (* ((jl_datatype_t* )t)->name->wrapper *)
  static_typeof : ptr -> ptr;           (* jl_typeof of a value that is not a wrapper *)
  (* jl_datatype_size, counted in pointer-sized words *)
  jl_datatype_words : ptr -> nat;
  jl_page_size : Z;
  (* what uninitialised memory happens to hold *)
  uninit_word : ptr
}.

(** ** Program state *)

(** An object of the collector's heap: its type tag, whether it lives in the
    permanent arena, and its fields as pointer-sized words. *)
Record gc_obj : Type := {
  o_type : ptr;
  o_perm : bool;
  o_words : list ptr
}.

Record state : Type := {
  (* static std::map<std::string, void*> libMap *)
  libMap : gmap string Z;
  (* the call-site cells; a cell never written is zero-initialised *)
  cells : gmap Z Z;
  (* static void *trampoline_freelist *)
  trampoline_freelist : ptr;
  (* first word of every mapped slot: the free-list link while free *)
  slot_mem : gmap Z Z;
  (* the operating system: addresses mmap will return next, pages mapped *)
  mmap_free : list ptr;
  pages : list ptr;
  (* every htable_t with allocated storage, by address *)
  htables : gmap Z (gmap Z Z);
  (* malloc'd blocks of words *)
  c_heap : gmap Z (list Z);
  malloc_next : positive;
  (* the collector *)
  gc_heap : gmap Z gc_obj;
  gc_next : positive;
  gc_budget : nat;
  finalizers : list ptr;
  trace : list event
}.

Definition set_libMap (f : gmap string Z -> gmap string Z) (s : state) : state :=
  {| libMap := f (libMap s); cells := cells s;
     trampoline_freelist := trampoline_freelist s; slot_mem := slot_mem s;
     mmap_free := mmap_free s; pages := pages s; htables := htables s;
     c_heap := c_heap s; malloc_next := malloc_next s; gc_heap := gc_heap s;
     gc_next := gc_next s; gc_budget := gc_budget s;
     finalizers := finalizers s; trace := trace s |}.

Definition set_cells (f : gmap Z Z -> gmap Z Z) (s : state) : state :=
  {| libMap := libMap s; cells := f (cells s);
     trampoline_freelist := trampoline_freelist s; slot_mem := slot_mem s;
     mmap_free := mmap_free s; pages := pages s; htables := htables s;
     c_heap := c_heap s; malloc_next := malloc_next s; gc_heap := gc_heap s;
     gc_next := gc_next s; gc_budget := gc_budget s;
     finalizers := finalizers s; trace := trace s |}.

Definition set_pool (fl : ptr) (sm : gmap Z Z) (s : state) : state :=
  {| libMap := libMap s; cells := cells s;
     trampoline_freelist := fl; slot_mem := sm;
     mmap_free := mmap_free s; pages := pages s; htables := htables s;
     c_heap := c_heap s; malloc_next := malloc_next s; gc_heap := gc_heap s;
     gc_next := gc_next s; gc_budget := gc_budget s;
     finalizers := finalizers s; trace := trace s |}.

Definition set_os (fr pg : list ptr) (s : state) : state :=
  {| libMap := libMap s; cells := cells s;
     trampoline_freelist := trampoline_freelist s; slot_mem := slot_mem s;
     mmap_free := fr; pages := pg; htables := htables s;
     c_heap := c_heap s; malloc_next := malloc_next s; gc_heap := gc_heap s;
     gc_next := gc_next s; gc_budget := gc_budget s;
     finalizers := finalizers s; trace := trace s |}.

Definition set_htables (f : gmap Z (gmap Z Z) -> gmap Z (gmap Z Z)) (s : state) : state :=
  {| libMap := libMap s; cells := cells s;
     trampoline_freelist := trampoline_freelist s; slot_mem := slot_mem s;
     mmap_free := mmap_free s; pages := pages s; htables := f (htables s);
     c_heap := c_heap s; malloc_next := malloc_next s; gc_heap := gc_heap s;
     gc_next := gc_next s; gc_budget := gc_budget s;
     finalizers := finalizers s; trace := trace s |}.

Definition set_c_heap (f : gmap Z (list Z) -> gmap Z (list Z)) (s : state) : state :=
  {| libMap := libMap s; cells := cells s;
     trampoline_freelist := trampoline_freelist s; slot_mem := slot_mem s;
     mmap_free := mmap_free s; pages := pages s; htables := htables s;
     c_heap := f (c_heap s); malloc_next := malloc_next s; gc_heap := gc_heap s;
     gc_next := gc_next s; gc_budget := gc_budget s;
     finalizers := finalizers s; trace := trace s |}.

Definition set_malloc_next (n : positive) (s : state) : state :=
  {| libMap := libMap s; cells := cells s;
     trampoline_freelist := trampoline_freelist s; slot_mem := slot_mem s;
     mmap_free := mmap_free s; pages := pages s; htables := htables s;
     c_heap := c_heap s; malloc_next := n; gc_heap := gc_heap s;
     gc_next := gc_next s; gc_budget := gc_budget s;
     finalizers := finalizers s; trace := trace s |}.

Definition set_gc_heap (f : gmap Z gc_obj -> gmap Z gc_obj) (s : state) : state :=
  {| libMap := libMap s; cells := cells s;
     trampoline_freelist := trampoline_freelist s; slot_mem := slot_mem s;
     mmap_free := mmap_free s; pages := pages s; htables := htables s;
     c_heap := c_heap s; malloc_next := malloc_next s; gc_heap := f (gc_heap s);
     gc_next := gc_next s; gc_budget := gc_budget s;
     finalizers := finalizers s; trace := trace s |}.

Definition set_gc_counters (n : positive) (b : nat) (s : state) : state :=
  {| libMap := libMap s; cells := cells s;
     trampoline_freelist := trampoline_freelist s; slot_mem := slot_mem s;
     mmap_free := mmap_free s; pages := pages s; htables := htables s;
     c_heap := c_heap s; malloc_next := malloc_next s; gc_heap := gc_heap s;
     gc_next := n; gc_budget := b;
     finalizers := finalizers s; trace := trace s |}.

Definition set_finalizers (f : list ptr -> list ptr) (s : state) : state :=
  {| libMap := libMap s; cells := cells s;
     trampoline_freelist := trampoline_freelist s; slot_mem := slot_mem s;
     mmap_free := mmap_free s; pages := pages s; htables := htables s;
     c_heap := c_heap s; malloc_next := malloc_next s; gc_heap := gc_heap s;
     gc_next := gc_next s; gc_budget := gc_budget s;
     finalizers := f (finalizers s); trace := trace s |}.

Definition log (e : event) (s : state) : state :=
  {| libMap := libMap s; cells := cells s;
     trampoline_freelist := trampoline_freelist s; slot_mem := slot_mem s;
     mmap_free := mmap_free s; pages := pages s; htables := htables s;
     c_heap := c_heap s; malloc_next := malloc_next s; gc_heap := gc_heap s;
     gc_next := gc_next s; gc_budget := gc_budget s;
     finalizers := finalizers s; trace := trace s ++ [e] |}.

(** The state of a process that has just started. *)
Definition initial_state (os_pages : list ptr) (budget : nat) : state :=
  {| libMap := ∅; cells := ∅; trampoline_freelist := NULL; slot_mem := ∅;
     mmap_free := os_pages; pages := []; htables := ∅; c_heap := ∅;
     malloc_next := 1%positive; gc_heap := ∅; gc_next := 1%positive;
     gc_budget := budget; finalizers := []; trace := [] |}.

(** ** A state and exception monad *)

Inductive outcome (A : Type) : Type :=
  | Ret (a : A) (s : state)
  | Throw (e : jl_exception) (s : state)
  | Fault.
Arguments Ret {A} a s.
Arguments Throw {A} e s.
Arguments Fault {A}.

Definition M (A : Type) : Type := state -> outcome A.

Definition ret {A} (a : A) : M A := fun s => Ret a s.
Definition bind {A B} (m : M A) (k : A -> M B) : M B :=
  fun s => match m s with
           | Ret a s' => k a s'
           | Throw e s' => Throw e s'
           | Fault => Fault
           end.
Definition jl_throw {A} (e : jl_exception) : M A := fun s => Throw e s.
Definition fault {A} : M A := fun _ => Fault.

(** [JL_TRY { body } JL_CATCH { handler }] *)
Definition jl_try {A} (body : M A) (handler : jl_exception -> M A) : M A :=
  fun s => match body s with
           | Throw e s' => handler e s'
           | o => o
           end.

(** [assert(b)] in a build with assertions: a failed assertion aborts the
    process.  (With [JL_NDEBUG] the assertions of [julia_assert.h] are
    compiled out and execution goes on.) *)
Definition jl_assert (b : bool) : M unit := if b then ret tt else fault.
Definition emit (e : event) : M unit := fun s => Ret tt (log e s).
Definition modify (f : state -> state) : M unit := fun s => Ret tt (f s).
Definition gets {A} (f : state -> A) : M A := fun s => Ret (f s) s.

Declare Scope jl_scope.
Delimit Scope jl_scope with jl.
Notation "x <- m ;; k" := (bind m (fun x => k))
  (at level 100, m at next level, right associativity) : jl_scope.
Notation "m ;;; k" := (bind m (fun _ => k))
  (at level 100, right associativity) : jl_scope.
Local Open Scope jl_scope.

Definition is_null (p : ptr) : bool := p =? NULL.

Section Program.

Variable R : Runtime.

(** ** Library symbol lookup *)

(** Modelled from the spec: [jl_load_dynamic_library] is defined in the
    runtime's loader, outside the sources at hand.  It invokes the platform
    loader with the default search policy; when the load fails it raises
    "library not found" if success is demanded and returns a null handle
    otherwise. *)
Definition jl_load_dynamic_library (modname : ptr) (throw_err : bool) : M ptr :=
  let name := cstring R modname in
  emit (EvLoadLibrary name) ;;;
  let h := platform_dlopen R name in
  if is_null h
  then (if throw_err then jl_throw (LibraryNotFound name) else ret NULL)
  else ret h.

(** Modelled from the spec: [jl_dlsym] is defined in the runtime's loader,
    outside the sources at hand.  It looks the symbol up with the platform
    symbol primitive; when the symbol is absent it raises "symbol not
    found" if [throw_err] is set and yields a null address otherwise. *)
Definition jl_dlsym (handle : ptr) (symbol : ptr) (throw_err : bool) : M ptr :=
  let name := cstring R symbol in
  emit (EvDlsym handle name) ;;;
  match platform_dlsym R handle name with
  | Some p => ret p
  | None => if throw_err then jl_throw (SymbolNotFound name) else ret NULL
  end.

(** [void **map_slot = &libMap[f_lib]; void *hnd = *map_slot;]
    [operator[]] inserts a null entry for a key that has none. *)
Definition libMap_index (key : string) : M ptr :=
  fun s => match libMap s !! key with
           | Some h => Ret h s
           | None => Ret NULL (set_libMap (insert key NULL) s)
           end.

(** [*map_slot = hnd] *)
Definition libMap_store (key : string) (h : ptr) : M unit :=
  modify (set_libMap (insert key h)).

Definition jl_get_library_ (f_lib : ptr) (throw_err : bool) : M ptr :=
  if f_lib =? NULL then ret (jl_RTLD_DEFAULT_handle R)
  else if f_lib =? JL_EXE_LIBNAME R then ret (jl_exe_handle R)
  else if f_lib =? JL_LIBJULIA_INTERNAL_DL_LIBNAME R
  then ret (jl_libjulia_internal_handle R)
  else if f_lib =? JL_LIBJULIA_DL_LIBNAME R then ret (jl_libjulia_handle R)
  else
    emit (EvLock libmap_lock) ;;;
    hnd0 <- libMap_index (cstring R f_lib) ;;
    hnd <- (if is_null hnd0
            then h <- jl_load_dynamic_library f_lib throw_err ;;
                 (if negb (is_null h)
                  then libMap_store (cstring R f_lib) h
                  else ret tt) ;;;
                 ret h
            else ret hnd0) ;;
    emit (EvUnlock libmap_lock) ;;;
    ret hnd.

(** [#define jl_get_library(f_lib) jl_get_library_(f_lib, 1)] *)
Definition jl_get_library (f_lib : ptr) : M ptr := jl_get_library_ f_lib true.

Definition jl_atomic_load_acquire (cell : ptr) : M ptr :=
  gets (fun s => default NULL (cells s !! cell)).
Definition jl_atomic_store_release (cell : ptr) (v : ptr) : M unit :=
  modify (set_cells (insert cell v)).

Definition jl_load_and_lookup (f_lib f_name hnd : ptr) : M ptr :=
  handle0 <- jl_atomic_load_acquire hnd ;;
  handle <- (if is_null handle0
             then h <- jl_get_library f_lib ;;
                  jl_atomic_store_release hnd h ;;;
                  ret h
             else ret handle0) ;;
  jl_dlsym handle f_name true.

(** ** Trampoline slot allocator *)

Definition sz : Z := 64.

(** The operating system's page mapping: the next address of [mmap_free],
    or [MAP_FAILED] (here [None]) when it has none left.  The save and
    restore of [errno] around the call has no counterpart here. *)
Definition mmap_page : M (option ptr) :=
  fun s => match mmap_free s with
           | [] => Ret None s
           | mem :: rest => Ret (Some mem) (set_os rest (mem :: pages s) s)
           end.

(** One turn of the loop that threads the slots of a fresh page:
    [curr = mem + i; *curr = next; next = curr], with [i = sz * k]. *)
Definition carve_slot (mem : ptr) (acc : ptr * gmap Z Z) (k : nat) : ptr * gmap Z Z :=
  let curr := mem + sz * Z.of_nat k in
  (curr, <[curr := acc.1]> acc.2).

(** [for (i = 0; i + sz <= jl_page_size; i += sz)]: the body runs for
    [i = 0, sz, 2 sz, ...], that is [jl_page_size / sz] times. *)
Definition carve_page (mem : ptr) (sm : gmap Z Z) : ptr * gmap Z Z :=
  fold_left (carve_slot mem) (seq 0 (Z.to_nat (jl_page_size R / sz))) (NULL, sm).

(** [*(void** )tramp]: reading the first word of a slot *)
Definition load_slot (tramp : ptr) : M ptr :=
  fun s => match slot_mem s !! tramp with
           | Some v => Ret v s
           | None => Fault
           end.

Definition trampoline_alloc : M ptr :=
  fl <- gets trampoline_freelist ;;
  (if is_null fl
   then r <- mmap_page ;;
        match r with
        | None => jl_throw MemoryException
        | Some mem =>
            jl_assert (sz <? jl_page_size R) ;;;
            modify (fun s => set_pool (carve_page mem (slot_mem s)).1
                                      (carve_page mem (slot_mem s)).2 s)
        end
   else ret tt) ;;;
  tramp <- gets trampoline_freelist ;;
  next <- load_slot tramp ;;
  modify (fun s => set_pool next (slot_mem s) s) ;;;
  ret tramp.

(** [*(void** )tramp = trampoline_freelist; trampoline_freelist = tramp]:
    the link is stored in the first word of the slot.  [slot_mem] holds one
    word per slot address, so this is the code on the slots of mapped
    pages, which are 64 bytes apart; a store through an address that is not
    mapped, or into the middle of another slot, has no counterpart here. *)
Definition trampoline_free (tramp : ptr) : M unit :=
  emit (EvSlotFree tramp) ;;;
  modify (fun s => set_pool tramp (<[tramp := trampoline_freelist s]> (slot_mem s)) s).

(** ** The collector, malloc and the hash tables *)

(** Addresses of the collector's objects: 16, 32, 48, ... *)
Definition heap_addr (n : positive) : ptr := Z.pos (n~0~0~0~0).

(** Addresses of malloc'd blocks: 0x100010, 0x100020, ... *)
Definition malloc_addr (n : positive) : ptr := 1048576 + Z.pos (n~0~0~0~0).

(** Modelled from the spec: the collector is outside the sources at hand.
    It exposes a permanent allocation, a managed allocation and the
    registration of a finalizer; an allocation raises out-of-memory when the
    collector has no room left ([gc_budget] objects remain).  Objects are
    handed out at fresh 16-byte aligned addresses. *)
Definition gc_alloc (ty : ptr) (perm : bool) : M ptr :=
  fun s => match gc_budget s with
           | O => Throw MemoryException s
           | S b =>
               let p := heap_addr (gc_next s) in
               let o := {| o_type := ty; o_perm := perm;
                           o_words := replicate (jl_datatype_words R ty) (uninit_word R) |} in
               Ret p (set_gc_counters (Pos.succ (gc_next s)) b
                        (set_gc_heap (insert p o) s))
           end.

Definition jl_gc_permobj (ty : ptr) : M ptr := gc_alloc ty true.
Definition jl_new_struct_uninit (ty : ptr) : M ptr := gc_alloc ty false.

(** [jl_gc_add_ptr_finalizer(ct->ptls, result, &trampoline_deleter)]; the
    only finalizer this file registers is [trampoline_deleter]. *)
Definition jl_gc_add_ptr_finalizer (obj : ptr) : M unit :=
  modify (set_finalizers (cons obj)).

(** [memset(result, 0, jl_datatype_size(result_type))] *)
Definition memset0 (obj : ptr) (n : nat) : M unit :=
  fun s => match gc_heap s !! obj with
           | Some o =>
               Ret tt (set_gc_heap (insert obj
                 {| o_type := o_type o; o_perm := o_perm o;
                    o_words := replicate n 0 ++ drop n (o_words o) |}) s)
           | None => Fault
           end.

(** [((void** )obj)[i]] *)
Definition load_field (obj : ptr) (i : nat) : M ptr :=
  fun s => match gc_heap s !! obj with
           | Some o => match o_words o !! i with
                       | Some v => Ret v s
                       | None => Fault
                       end
           | None => Fault
           end.

(** [((void** )obj)[i] = v] *)
Definition store_field (obj : ptr) (i : nat) (v : ptr) : M unit :=
  fun s => match gc_heap s !! obj with
           | Some o =>
               if decide (i < length (o_words o))%nat
               then Ret tt (set_gc_heap (insert obj
                      {| o_type := o_type o; o_perm := o_perm o;
                         o_words := <[i:=v]> (o_words o) |}) s)
               else Fault
           | None => Fault
           end.

(** [jl_typeof]: the tag of a wrapper is the type it was allocated with;
    for every other value the runtime knows it. *)
Definition jl_typeof (v : ptr) : M ptr :=
  gets (fun s => match gc_heap s !! v with
                 | Some o => o_type o
                 | None => static_typeof R v
                 end).

(** [malloc_s(sizeof(void* ) * n)]: [malloc_s] aborts the process rather
    than return NULL, so it always yields a fresh block. *)
Definition malloc_s_words (n : nat) : M ptr :=
  fun s => let p := malloc_addr (malloc_next s) in
           Ret p (set_malloc_next (Pos.succ (malloc_next s))
                    (set_c_heap (insert p (replicate n (uninit_word R))) s)).

(** [malloc_s(sizeof(htable_t))] *)
Definition malloc_s_htable : M ptr :=
  fun s => Ret (malloc_addr (malloc_next s))
               (set_malloc_next (Pos.succ (malloc_next s)) s).

(** [nval[i] = v] *)
Definition store_word (blk : ptr) (i : nat) (v : ptr) : M unit :=
  fun s => match c_heap s !! blk with
           | Some ws =>
               if decide (i < length ws)%nat
               then Ret tt (set_c_heap (insert blk (<[i:=v]> ws)) s)
               else Fault
           | None => Fault
           end.

Definition load_block (blk : ptr) : M (list ptr) :=
  fun s => match c_heap s !! blk with
           | Some ws => Ret ws s
           | None => Fault
           end.

(** [free(p)] *)
Definition free (p : ptr) : M unit :=
  emit (EvRelease p) ;;;
  modify (set_c_heap (delete p)).

(** Modelled from the spec: the pointer hash table ([htable_new],
    [ptrhash_get], [ptrhash_put], [ptrhash_bp], [ptrhash_remove]) belongs to
    the runtime's support library, outside the sources at hand.  A table is a
    finite map from keys to values; a lookup of a key without an entry gives
    [HT_NOTFOUND]; [ptrhash_bp] finds or inserts the entry of a key and gives
    access to its value; [ptrhash_remove] removes the entry.  An [htable_t]
    whose storage was never allocated ([table == NULL]) is absent from
    [htables] and holds no entry. *)
Definition table_of (H : gmap Z (gmap Z Z)) (h : ptr) : gmap Z Z :=
  default ∅ (H !! h).

Definition htable_has_storage (h : ptr) : M bool :=
  gets (fun s => bool_decide (is_Some (htables s !! h))).

Definition htable_new (h : ptr) : M unit :=
  modify (set_htables (insert h ∅)).

Definition ptrhash_get (h key : ptr) : M ptr :=
  gets (fun s => default HT_NOTFOUND (table_of (htables s) h !! key)).

Definition ptrhash_put (h key v : ptr) : M unit :=
  modify (set_htables (fun H => <[h := <[key := v]> (table_of H h)]> H)).

(** [*ptrhash_bp(h, key)]: the value of the entry, inserted if missing *)
Definition ptrhash_bp (h key : ptr) : M ptr :=
  fun s => match table_of (htables s) h !! key with
           | Some v => Ret v s
           | None =>
               Ret HT_NOTFOUND
                 (set_htables (fun H => <[h := <[key := HT_NOTFOUND]> (table_of H h)]> H) s)
           end.

Definition ptrhash_remove (h key : ptr) : M unit :=
  emit (EvEvict h key) ;;;
  modify (set_htables (fun H => match H !! h with
                                | Some m => <[h := delete key m]> H
                                | None => H
                                end)).

(** ** The finalizer of a managed wrapper *)

Definition trampoline_deleter (f : ptr) : M unit :=
  tramp <- load_field f 0 ;;
  fobj <- load_field f 1 ;;
  cache <- load_field f 2 ;;
  nval <- load_field f 3 ;;
  store_field f 0 NULL ;;;
  store_field f 2 NULL ;;;
  store_field f 3 NULL ;;;
  emit (EvLock trampoline_lock) ;;;
  (if negb (is_null tramp) then trampoline_free tramp else ret tt) ;;;
  (if negb (is_null fobj) && negb (is_null cache)
   then ptrhash_remove cache fobj else ret tt) ;;;
  (if negb (is_null nval) then free nval else ret tt) ;;;
  emit (EvUnlock trampoline_lock).

(** ** The trampoline cache *)

(** [jl_instantiate_type_in_env], which may raise *)
Definition instantiate (t env vals : ptr) : M ptr :=
  match jl_instantiate_type_in_env R t env vals with
  | inl e => jl_throw e
  | inr v => ret v
  end.

(** The value the loop stores for an instantiated parameter:
    [if (v != jl_any_type) if (!concrete(v) || !immutable(v)) v = NULL] *)
Definition sparam_slot (v : ptr) : ptr :=
  if negb (v =? jl_any_type R)
  then (if negb (jl_is_concrete_type R v) || negb (jl_is_immutable R v)
        then NULL else v)
  else v.

(** [for (i = 0; i < n; i++) nval[i + 1] = ...], over the entries of [fill]
    from index [i] on *)
Fixpoint fill_nval (nval env vals : ptr) (i : nat) (ts : list ptr) : M unit :=
  match ts with
  | [] => ret tt
  | t :: ts' =>
      sparam_val <- instantiate t env vals ;;
      store_word nval (S i) (sparam_slot sparam_val) ;;;
      fill_nval nval env vals (S i) ts'
  end.

(** The computation of [permanent] *)
Definition is_permanent (fobj result_type fobj_type : ptr) : bool :=
  let permanent :=
    (result_type =? jl_voidpointer_type R)
    || jl_is_concrete_type R fobj
    || (datatype_instance R fobj_type =? fobj) in
  if jl_is_unionall R fobj
  then (let uw := jl_unwrap_unionall R fobj in
        if jl_is_datatype R uw && (datatype_name_wrapper R uw =? fobj)
        then true else permanent)
  else permanent.

(** The first critical section: find the table to consult and look [fobj]
    up in it.  Gives the table and what the lookup found. *)
Definition cache_lookup (fobj cache fill vals : ptr) : M (ptr * ptr) :=
  emit (EvLock trampoline_lock) ;;;
  has <- htable_has_storage cache ;;
  (if negb has then htable_new cache else ret tt) ;;;
  cache <- (if negb (fill =? jl_emptysvec R)
            then cache2 <- ptrhash_bp cache vals ;;
                 (if cache2 =? HT_NOTFOUND
                  then inner <- malloc_s_htable ;;
                       htable_new inner ;;;
                       ptrhash_put cache vals inner ;;;
                       ret inner
                  else ret cache2)
            else ret cache) ;;
  tramp <- ptrhash_get cache fobj ;;
  emit (EvUnlock trampoline_lock) ;;;
  ret (cache, tramp).

(** The body of [JL_TRY]: fill the buffer, allocate and populate the
    wrapper.  [cache] is the table found by the lookup. *)
Definition build_wrapper (fobj result_type cache fill env vals nval : ptr) : M ptr :=
  fill_nval nval env vals 0 (jl_svec_data R fill) ;;;
  fobj_type <- jl_typeof fobj ;;
  let permanent := is_permanent fobj result_type fobj_type in
  result <- (if permanent
             then r <- jl_gc_permobj result_type ;;
                  memset0 r (jl_datatype_words R result_type) ;;;
                  ret r
             else jl_new_struct_uninit result_type) ;;
  (if negb (result_type =? jl_voidpointer_type R)
   then jl_assert (Nat.eqb (jl_datatype_words R result_type) 4) ;;;
        store_field result 1 fobj
   else ret tt) ;;;
  (if negb permanent
   then jl_gc_add_ptr_finalizer result ;;;
        store_field result 2 cache ;;;
        store_field result 3 nval
   else ret tt) ;;;
  ret result.

(** [init_trampoline(tramp, nval)]: the injected code generator reads the
    buffer and overwrites the slot; [init_trampoline tramp buf] is the word
    it leaves at the start of the slot. *)
Definition run_init_trampoline (init_trampoline : ptr -> list ptr -> ptr)
    (tramp nval : ptr) : M unit :=
  buf <- load_block nval ;;
  emit (EvInit tramp nval buf) ;;;
  modify (fun s => set_pool (trampoline_freelist s)
                     (<[tramp := init_trampoline tramp buf]> (slot_mem s)) s).

Definition jl_get_cfunction_trampoline
    (fobj result_type cache fill : ptr)
    (init_trampoline : ptr -> list ptr -> ptr)
    (env vals : ptr) : M ptr :=
  (* lookup (fobj, vals) in cache *)
  found <- cache_lookup fobj cache fill vals ;;
  let cache := found.1 in
  let tramp := found.2 in
  if negb (tramp =? HT_NOTFOUND)
  then ty <- jl_typeof tramp ;;
       jl_assert (ty =? result_type) ;;;
       ret tramp
  else
    (* not found, allocate a new one *)
    let n := length (jl_svec_data R fill) in
    nval <- malloc_s_words (n + 1) ;;
    store_word nval 0 fobj ;;;
    result <- jl_try
                (build_wrapper fobj result_type cache fill env vals nval)
                (fun e => free nval ;;; jl_throw e) ;;
    emit (EvLock trampoline_lock) ;;;
    tramp <- trampoline_alloc ;;
    store_field result 0 tramp ;;;
    run_init_trampoline init_trampoline tramp nval ;;;
    ptrhash_put cache fobj result ;;;
    emit (EvUnlock trampoline_lock) ;;;
    ret result.

(** What the first critical section finds, as a function of the tables. *)
Definition cached (H : gmap Z (gmap Z Z)) (fobj cache fill vals : ptr) : ptr :=
  if negb (fill =? jl_emptysvec R)
  then (let inner := default HT_NOTFOUND (table_of H cache !! vals) in
        if inner =? HT_NOTFOUND then HT_NOTFOUND
        else default HT_NOTFOUND (table_of H inner !! fobj))
  else default HT_NOTFOUND (table_of H cache !! fobj).

(** The permanence rule in the words of the specification. *)
Definition spec_permanent (fobj result_type fobj_type : ptr) : Prop :=
  result_type = jl_voidpointer_type R
  \/ jl_is_concrete_type R fobj = true
  \/ datatype_instance R fobj_type = fobj
  \/ (jl_is_unionall R fobj = true
      /\ jl_is_datatype R (jl_unwrap_unionall R fobj) = true
      /\ datatype_name_wrapper R (jl_unwrap_unionall R fobj) = fobj).

End Program.

(** ** A concrete runtime, for running the model

    A small world: one loadable library ["libm"] that exports ["cos"], a
    closure [70], a singleton [72], a template [30] of three parameters and
    a template [31] whose only parameter cannot be instantiated. *)

Definition demo_cstring (p : ptr) : string :=
  if p =? 100 then "libm"
  else if p =? 101 then "libm"
  else if p =? 200 then "cos"
  else if p =? 201 then "nosuch"
  else if p =? 300 then "libmissing"
  else if p =? 1 then "exe"
  else if p =? 400 then "exe"
  else "".

Definition demo_dlopen (name : string) : ptr :=
  if String.eqb name "libm" then 5000
  else if String.eqb name "exe" then 5001
  else NULL.

Definition demo_dlsym (h : ptr) (name : string) : option ptr :=
  if (h =? 5000) && String.eqb name "cos" then Some 7000 else None.

Definition demo_svec_data (v : ptr) : list ptr :=
  if v =? 30 then [41; 42; 43]
  else if v =? 31 then [44]
  else [].

Definition demo_instantiate (t env vals : ptr) : jl_exception + ptr :=
  if t =? 41 then inr 21
  else if t =? 42 then inr 51
  else if t =? 43 then inr 52
  else inl (TypeSystemError 7).

Definition demo_runtime : Runtime :=
  {| jl_RTLD_DEFAULT_handle := 11;
     jl_exe_handle := 12;
     jl_libjulia_internal_handle := 13;
     jl_libjulia_handle := 14;
     JL_EXE_LIBNAME := 1;
     JL_LIBJULIA_INTERNAL_DL_LIBNAME := 2;
     JL_LIBJULIA_DL_LIBNAME := 3;
     cstring := demo_cstring;
     platform_dlopen := demo_dlopen;
     platform_dlsym := demo_dlsym;
     jl_emptysvec := 20;
     jl_any_type := 21;
     jl_voidpointer_type := 22;
     jl_svec_data := demo_svec_data;
     jl_instantiate_type_in_env := demo_instantiate;
     jl_is_concrete_type := fun v => v =? 51;
     jl_is_immutable := fun v => v =? 51;
     jl_is_unionall := fun _ => false;
     jl_is_datatype := fun _ => false;
     jl_unwrap_unionall := fun v => v;
     datatype_instance := fun t => if t =? 73 then 72 else NULL;
     datatype_name_wrapper := fun _ => NULL;
     static_typeof := fun v => if v =? 72 then 73 else 71;
     jl_datatype_words := fun t => if t =? 22 then 1%nat else 4%nat;
     jl_page_size := 4096;
     uninit_word := 57005 |}.

Definition demo_state : state := initial_state [65536; 131072] 8.

(** ** Observations on traces and outcomes *)

Definition is_load (e : event) : bool :=
  match e with EvLoadLibrary _ => true | _ => false end.

Definition is_dlsym (e : event) : bool :=
  match e with EvDlsym _ _ => true | _ => false end.

(** How many times the platform loader was invoked. *)
Definition loader_calls (tr : list event) : nat := length (List.filter is_load tr).

(** How many times the platform symbol primitive was invoked. *)
Definition dlsym_calls (tr : list event) : nat := length (List.filter is_dlsym tr).

(** The reserved names, in the words of the specification: the null pointer and
    the three name constants, each with its fixed handle; recognised by the
    address alone. *)
Definition sentinel_handle (R : Runtime) (f_lib : ptr) : option ptr :=
  if decide (f_lib = NULL) then Some (jl_RTLD_DEFAULT_handle R)
  else if decide (f_lib = JL_EXE_LIBNAME R) then Some (jl_exe_handle R)
  else if decide (f_lib = JL_LIBJULIA_INTERNAL_DL_LIBNAME R)
  then Some (jl_libjulia_internal_handle R)
  else if decide (f_lib = JL_LIBJULIA_DL_LIBNAME R) then Some (jl_libjulia_handle R)
  else None.

(** The template entries instantiated in order, up to the first that
    raises. *)
Fixpoint instantiate_all (R : Runtime) (env vals : ptr) (ts : list ptr)
    : jl_exception + list ptr :=
  match ts with
  | [] => inr []
  | t :: ts' =>
      match jl_instantiate_type_in_env R t env vals with
      | inl e => inl e
      | inr v =>
          match instantiate_all R env vals ts' with
          | inl e => inl e
          | inr vs => inr (v :: vs)
          end
      end
  end.

(** The layout the code expects of the result type: four words, or at
    least the one word of a raw pointer for [jl_voidpointer_type]. *)
Definition layout_ok (R : Runtime) (result_type : ptr) : bool :=
  if result_type =? jl_voidpointer_type R
  then Nat.leb 1 (jl_datatype_words R result_type)
  else Nat.eqb (jl_datatype_words R result_type) 4.

(** Two states with the same slot allocator and operating system. *)
Definition same_pool (s s' : state) : Prop :=
  trampoline_freelist s = trampoline_freelist s'
  /\ slot_mem s = slot_mem s'
  /\ mmap_free s = mmap_free s'
  /\ pages s = pages s'.

(** The fields of a wrapper, if it is in the collector's heap. *)
Definition wrapper_words (s : state) (w : ptr) : option (list ptr) :=
  o_words <$> gc_heap s !! w.

(** The fields of a freshly built wrapper before its slot is stored:
    a permanent wrapper is zeroed and carries the identity unless it has the
    raw-pointer shape; a managed wrapper carries the identity, the table and
    the buffer. *)
Definition built_words (R : Runtime) (permanent : bool)
    (result_type fobj cache nval : ptr) : list ptr :=
  if permanent
  then (if result_type =? jl_voidpointer_type R
        then replicate (jl_datatype_words R result_type) NULL
        else [NULL; fobj; NULL; NULL])
  else [uninit_word R; fobj; cache; nval].

(** [jl_typeof] as a function of the state. *)
Definition typeof_in (R : Runtime) (s : state) (v : ptr) : ptr :=
  match gc_heap s !! v with
  | Some o => o_type o
  | None => static_typeof R v
  end.

(** The call-site table and the tables it leads to are distinct blocks of
    memory: the table is not the block malloc hands out next, and the entry
    of the specialization inputs does not point back at the table. *)
Definition tables_apart (s : state) (cache vals : ptr) : Prop :=
  cache <> malloc_addr (malloc_next s)
  /\ default HT_NOTFOUND (table_of (htables s) cache !! vals) <> cache.

(** The value of a call-site cell. *)
Definition cell_value (s : state) (hnd : ptr) : ptr := default NULL (cells s !! hnd).

(** The code generator of the demo leaves the same word in every slot. *)
Definition demo_init (tramp : ptr) (buf : list ptr) : ptr := 144.

(** The state after a first trampoline for the closure [70], result type
    [80], flat table [500]. *)
Definition demo_wrapper_state : state :=
  match jl_get_cfunction_trampoline demo_runtime 70 80 500 20 demo_init 0 0
          demo_state with
  | Ret _ s => s
  | _ => demo_state
  end.

(** A state whose call-site cell [900] already holds the handle of
    ["libm"]. *)
Definition demo_cell_state : state := set_cells (insert 900 5000) demo_state.

(** ** The rest of the file: lazy lookup, CPU features, file names *)

(** What [jl_lazy_load_and_lookup] needs of the runtime beyond [Runtime]:
    the tests and accessors of symbols and strings, the [dlopen] function of
    the [Libdl] module if it is loaded, and what applying it to a value
    does.  The application runs Julia code: it may read and change the
    whole state, and it returns a boxed pointer or raises. *)
Record LazyRuntime : Type := {
  jl_is_symbol : ptr -> bool;
  jl_symbol_name : ptr -> ptr;
  jl_is_string : ptr -> bool;
  jl_string_data : ptr -> ptr;
  jl_libdl_dlopen_func : ptr;
  libdl_dlopen : ptr -> M ptr
}.

(** [jl_type_error("ccall", jl_symbol_type, lib_val)]: the exception carries
    the offending value. *)
Definition jl_type_error {A} (got : ptr) : M A := jl_throw (TypeSystemError got).

(** [jl_unbox_voidpointer(jl_apply_generic(jl_libdl_dlopen_func, &lib_val, 1))] *)
Definition apply_libdl_dlopen (L : LazyRuntime) (lib_val : ptr) : M ptr :=
  libdl_dlopen L lib_val.

Definition jl_lazy_load_and_lookup (R : Runtime) (L : LazyRuntime)
    (lib_val f_name : ptr) : M ptr :=
  lib_ptr <- (if jl_is_symbol L lib_val
              then jl_get_library R (jl_symbol_name L lib_val)
              else if jl_is_string L lib_val
              then jl_get_library R (jl_string_data L lib_val)
              else if negb (jl_libdl_dlopen_func L =? NULL)
              then apply_libdl_dlopen L lib_val
              else jl_type_error lib_val) ;;
  jl_dlsym R lib_ptr f_name true.

(** [attr.empty()] *)
Definition string_empty (s : string) : bool :=
  match s with EmptyString => true | String _ _ => false end.

(** The first loop of [jl_get_cpu_features_llvm]: the enabled features. *)
Definition append_enabled (attr : string) (ele : string * bool) : string :=
  if ele.2
  then (if negb (string_empty attr) then attr +:+ ",+" else attr +:+ "+") +:+ ele.1
  else attr.

(** The second loop: the disabled features. *)
Definition append_disabled (attr : string) (ele : string * bool) : string :=
  if negb ele.2
  then (if negb (string_empty attr) then attr +:+ ",-" else attr +:+ "-") +:+ ele.1
  else attr.

(** [jl_get_cpu_features_llvm], as a function of the host features in the
    order in which the feature map enumerates them. *)
Definition jl_get_cpu_features_llvm (HostFeatures : list (string * bool)) : string :=
  fold_left append_disabled HostFeatures
    (fold_left append_enabled HostFeatures "").

(** [uv_passwd_t], the fields the file reads. *)
Record uv_passwd_t : Type := {
  pw_username : string;
  pw_uid : N;
  pw_homedir : string
}.

(** The operating system as [jl_format_filename] sees it: the process id,
    the answer to the [n]-th call of [uv_os_get_passwd] ([None] when it
    returns an error), the host name and the domain name as the C strings
    that [gethostname] and [getdomainname] leave in the buffer ([None] when
    they fail). *)
Record HostOS : Type := {
  uv_os_getpid : Z;
  uv_os_get_passwd : nat -> option uv_passwd_t;
  gethostname : option string;
  getdomainname : option string
}.

(** The locals of the loop of [jl_format_filename]: the output so far,
    [special], the password entry if [got_pwd], and how many times
    [uv_os_get_passwd] was called. *)
Record fmt_state : Type := {
  outfile : string;
  special : bool;
  got_pwd : option uv_passwd_t;
  pwd_calls : nat
}.

Definition fmt_init : fmt_state :=
  {| outfile := ""; special := false; got_pwd := None; pwd_calls := 0 |}.

Definition is_pwd_token (c : ascii) : bool :=
  Ascii.eqb c "i" || Ascii.eqb c "d" || Ascii.eqb c "u".

(** [if (!got_pwd && (c == 'i' || c == 'd' || c == 'u'))] query the
    password database *)
Definition fmt_query (O : HostOS) (c : ascii) (st : fmt_state) : fmt_state :=
  match got_pwd st with
  | None =>
      if is_pwd_token c
      then {| outfile := outfile st; special := special st;
              got_pwd := uv_os_get_passwd O (pwd_calls st);
              pwd_calls := S (pwd_calls st) |}
      else st
  | Some _ => st
  end.

(** The [switch] on the character that follows a percent sign, for a
    build that is not for Windows: what is appended to the output. *)
Definition fmt_token (O : HostOS) (c : ascii) (pw : option uv_passwd_t) : string :=
  if Ascii.eqb c "p" then pretty (uv_os_getpid O)
  else if Ascii.eqb c "d" then from_option pw_homedir "" pw
  else if Ascii.eqb c "i" then from_option (fun e => pretty (pw_uid e)) "" pw
  else if Ascii.eqb c "l" || Ascii.eqb c "L"
  then from_option id "" (gethostname O)
       +:+ (if Ascii.eqb c "l" then from_option id "" (getdomainname O) else "")
  else if Ascii.eqb c "u" then from_option pw_username "" pw
  else String c "".

(** One turn of the loop over the characters of the pattern. *)
Definition fmt_step (O : HostOS) (st : fmt_state) (c : ascii) : fmt_state :=
  if special st
  then (let st1 := fmt_query O c st in
        {| outfile := outfile st1 +:+ fmt_token O c (got_pwd st1);
           special := false;
           got_pwd := got_pwd st1; pwd_calls := pwd_calls st1 |})
  else if Ascii.eqb c "%"
  then {| outfile := outfile st; special := true;
          got_pwd := got_pwd st; pwd_calls := pwd_calls st |}
  else {| outfile := outfile st +:+ String c "";
          special := false;
          got_pwd := got_pwd st; pwd_calls := pwd_calls st |}.

(** [for (auto c : output_pattern)] *)
Fixpoint fmt_loop (O : HostOS) (pattern : string) (st : fmt_state) : fmt_state :=
  match pattern with
  | EmptyString => st
  | String c rest => fmt_loop O rest (fmt_step O st c)
  end.

(** [std::string jl_format_filename(StringRef output_pattern)] *)
Definition jl_format_filename (O : HostOS) (output_pattern : string) : string :=
  outfile (fmt_loop O output_pattern fmt_init).

(** Whether the call ends with [uv_os_free_passwd]: [if (got_pwd)]. *)
Definition fmt_frees_passwd (O : HostOS) (output_pattern : string) : bool :=
  bool_decide (is_Some (got_pwd (fmt_loop O output_pattern fmt_init))).

(** A pattern that stands for the text [s] itself: every percent sign
    doubled. *)
Fixpoint escape_percent (s : string) : string :=
  match s with
  | EmptyString => EmptyString
  | String c rest =>
      if Ascii.eqb c "%" then String "%" (String "%" (escape_percent rest))
      else String c (escape_percent rest)
  end.

(** How many tokens of a pattern read the password entry. *)
Fixpoint pwd_tokens (pattern : string) (in_token : bool) : nat :=
  match pattern with
  | EmptyString => 0
  | String c rest =>
      if in_token
      then (if is_pwd_token c then S (pwd_tokens rest false)
            else pwd_tokens rest false)
      else pwd_tokens rest (Ascii.eqb c "%")
  end.

(** ** Runs of allocator calls *)

(** [k] calls of [trampoline_alloc] in a row, with the slots they return. *)
Fixpoint trampoline_alloc_many (R : Runtime) (k : nat) : M (list ptr) :=
  match k with
  | O => ret []
  | S k' =>
      tramp <- trampoline_alloc R ;;
      rest <- trampoline_alloc_many R k' ;;
      ret (tramp :: rest)
  end.

(** [trampoline_free] on each slot of a list, in order. *)
Fixpoint trampoline_free_all (slots : list ptr) : M unit :=
  match slots with
  | [] => ret tt
  | tramp :: rest => trampoline_free tramp ;;; trampoline_free_all rest
  end.

(** The [i]-th slot of the page mapped at [mem]. *)
Definition slot_addr (mem : ptr) (i : nat) : ptr := mem + sz * Z.of_nat i.

(** The free list threaded through memory: starting at [head], the slots
    of [l] in order, each non-null and linked to the next, the last one
    linked to [tail]. *)
Fixpoint free_chain (sm : gmap Z Z) (head : ptr) (l : list ptr) (tail : ptr) : Prop :=
  match l with
  | [] => head = tail
  | x :: l' => head = x /\ x <> NULL /\ exists next, sm !! x = Some next
                                                    /\ free_chain sm next l' tail
  end.

(** The state a call ends in, whether it returns or raises. *)
Definition outcome_state {A} (o : outcome A) : option state :=
  match o with
  | Ret _ s => Some s
  | Throw _ s => Some s
  | Fault => None
  end.

(** The feature string spelled out: the enabled features in the map's
    order, each after a plus sign, then the disabled ones, each after a
    minus sign. *)
Definition feature_flags (HostFeatures : list (string * bool)) : list string :=
  List.map (fun ele => "+" +:+ ele.1) (List.filter (fun ele => ele.2) HostFeatures)
  ++ List.map (fun ele => "-" +:+ ele.1)
       (List.filter (fun ele => negb ele.2) HostFeatures).

(** A host for the examples: process 4242, user ["ana"] with id 1000 and
    home ["/home/ana"], host ["box"] in the domain [".lan"]. *)
Definition demo_os : HostOS :=
  {| uv_os_getpid := 4242;
     uv_os_get_passwd := fun _ =>
       Some {| pw_username := "ana"; pw_uid := 1000; pw_homedir := "/home/ana" |};
     gethostname := Some "box";
     getdomainname := Some ".lan" |}.

(** Values for the examples of the lazy lookup: the symbol [600] names
    ["libm"], the string [601] holds ["libm"], and [Libdl] is not loaded. *)
Definition demo_lazy : LazyRuntime :=
  {| jl_is_symbol := fun v => v =? 600;
     jl_symbol_name := fun _ => 100;
     jl_is_string := fun v => v =? 601;
     jl_string_data := fun _ => 101;
     jl_libdl_dlopen_func := NULL;
     libdl_dlopen := fun v => jl_throw (TypeSystemError v) |}.

(** The same with [Libdl] loaded: its [dlopen] gives the handle of ["libm"]
    for the value [602] and raises for every other value. *)
Definition demo_lazy_libdl : LazyRuntime :=
  {| jl_is_symbol := fun v => v =? 600;
     jl_symbol_name := fun _ => 100;
     jl_is_string := fun v => v =? 601;
     jl_string_data := fun _ => 101;
     jl_libdl_dlopen_func := 610;
     libdl_dlopen := fun v => if v =? 602 then ret 5000
                              else jl_throw (TypeSystemError v) |}.

(** The state after three slots were taken from the first page: the slots
    [69568], [69504] and [69440] are in use, the free list starts at
    [69376]. *)
Definition demo_pool_state : state :=
  match trampoline_alloc_many demo_runtime 3 demo_state with
  | Ret _ s => s
  | _ => demo_state
  end.

(** * Theorems *)

Section LibraryLookup.

Variable R : Runtime.

Lemma loader_calls_app tr1 tr2 :
  loader_calls (tr1 ++ tr2) = (loader_calls tr1 + loader_calls tr2)%nat.
Proof. unfold loader_calls. now rewrite List.filter_app, length_app. Qed.

(** The registry path of [jl_get_library_], taken for every name that is
    not reserved: what happens depends on the entry of the name. *)
Lemma get_library_registry f_lib throw_err s :
  sentinel_handle R f_lib = None ->
  jl_get_library_ R f_lib throw_err s =
    let key := cstring R f_lib in
    let s0 := log (EvLock libmap_lock) s in
    match libMap s !! key with
    | Some h =>
        if is_null h
        then (let s1 := log (EvLoadLibrary key) s0 in
              let h' := platform_dlopen R key in
              if is_null h'
              then (if throw_err then Throw (LibraryNotFound key) s1
                    else Ret NULL (log (EvUnlock libmap_lock) s1))
              else Ret h' (log (EvUnlock libmap_lock)
                             (set_libMap (insert key h') s1)))
        else Ret h (log (EvUnlock libmap_lock) s0)
    | None =>
        let s1 := log (EvLoadLibrary key) (set_libMap (insert key NULL) s0) in
        let h' := platform_dlopen R key in
        if is_null h'
        then (if throw_err then Throw (LibraryNotFound key) s1
              else Ret NULL (log (EvUnlock libmap_lock) s1))
        else Ret h' (log (EvUnlock libmap_lock)
                       (set_libMap (insert key h') s1))
    end.
Proof.
  unfold sentinel_handle, jl_get_library_. intros Hs.
  repeat case_decide; try discriminate.
  rewrite !(proj2 (Z.eqb_neq _ _)) by assumption.
  unfold bind, emit, libMap_index, jl_load_dynamic_library, libMap_store,
    modify, ret, jl_throw, bind. cbn.
  destruct (libMap s !! cstring R f_lib) as [h|] eqn:E; cbn.
  - destruct (is_null h) eqn:Hh; cbn; [|reflexivity].
    destruct (is_null (platform_dlopen R (cstring R f_lib))) eqn:Hd; cbn;
      rewrite ?Hd; cbn; [destruct throw_err; reflexivity | reflexivity].
  - destruct (is_null (platform_dlopen R (cstring R f_lib))) eqn:Hd; cbn;
      rewrite ?Hd; cbn; [destruct throw_err; reflexivity | reflexivity].
Qed.

Lemma loader_calls_log e s :
  loader_calls (trace (log e s)) =
  (loader_calls (trace s) + if is_load e then 1 else 0)%nat.
Proof.
  change (trace (log e s)) with (trace s ++ [e]).
  rewrite loader_calls_app. unfold loader_calls at 2. cbn.
  now destruct (is_load e).
Qed.

Lemma trace_set_libMap f s : trace (set_libMap f s) = trace s.
Proof. reflexivity. Qed.

Lemma get_library_published f_lib throw_err s h :
  sentinel_handle R f_lib = None ->
  libMap s !! cstring R f_lib = Some h -> h <> NULL ->
  jl_get_library_ R f_lib throw_err s =
    Ret h (log (EvUnlock libmap_lock) (log (EvLock libmap_lock) s)).
Proof.
  intros Hs Hm Hh. rewrite get_library_registry by assumption. cbn.
  rewrite Hm. unfold is_null. now rewrite (proj2 (Z.eqb_neq _ _) Hh).
Qed.

(** C10.  Reserved library names are recognised by the address of the name,
    never by its characters.  When [f_lib] is the null pointer or
    pointer-equal to one of the three name constants, [jl_get_library_]
    returns the fixed handle and leaves the state as it is: no lock, no
    registry access.  Every other address is an ordinary named library,
    whatever its characters are, even when they are those of a reserved
    name, and the outcome of the call is that of the registry path, a
    function of the characters, of their entry in the registry and of what
    the loader gives for them: the call takes the registry lock; if the
    registry holds a non-null handle for the characters it returns that
    handle; otherwise it invokes the loader once on the characters and,
    when the loader gives a non-null handle, publishes it under the
    characters and returns it; when the loader gives the null handle it
    raises library-not-found under [throw_err] and returns the null handle
    otherwise; it releases the lock before it returns.  No fixed handle
    takes part. *)
Theorem jl_get_library_sentinel_identity (f_lib : ptr) (throw_err : bool) (s : state) :
  match sentinel_handle R f_lib with
  | Some h => jl_get_library_ R f_lib throw_err s = Ret h s
  | None =>
      let key := cstring R f_lib in
      let locked := log (EvLock libmap_lock) s in
      let load (entered : state) :=
        let tried := log (EvLoadLibrary key) entered in
        if is_null (platform_dlopen R key)
        then (if throw_err then Throw (LibraryNotFound key) tried
              else Ret NULL (log (EvUnlock libmap_lock) tried))
        else Ret (platform_dlopen R key)
               (log (EvUnlock libmap_lock)
                  (set_libMap (insert key (platform_dlopen R key)) tried)) in
      jl_get_library_ R f_lib throw_err s =
        match libMap s !! key with
        | Some h => if is_null h then load locked
                    else Ret h (log (EvUnlock libmap_lock) locked)
        | None => load (set_libMap (insert key NULL) locked)
        end
  end.
Proof.
  destruct (sentinel_handle R f_lib) as [h|] eqn:Hs.
  - unfold sentinel_handle in Hs. unfold jl_get_library_.
    repeat case_decide; simplify_eq;
      rewrite ?Z.eqb_refl, ?(proj2 (Z.eqb_neq _ _)) by assumption; reflexivity.
  - rewrite get_library_registry by assumption. reflexivity.
Qed.

(** C8, as the code has it.  When resolving an ordinary library name
    returns a non-null handle, that handle is published in the registry
    under the name's characters and the loader ran at most once during the
    call; resolving the same name again returns the identical handle
    without invoking the loader, and so does every later resolution from
    any state whose registry holds the handle.  A load that fails is not
    published, and the next call tries the loader again. *)
Theorem jl_get_library_resolved_once (f_lib f_lib' : ptr) (t t' : bool)
    (s s1 : state) (h : ptr) :
  sentinel_handle R f_lib = None ->
  sentinel_handle R f_lib' = None ->
  cstring R f_lib' = cstring R f_lib ->
  jl_get_library_ R f_lib t s = Ret h s1 ->
  h <> NULL ->
  libMap s1 !! cstring R f_lib = Some h
  /\ (loader_calls (trace s1) <= loader_calls (trace s) + 1)%nat
  /\ (exists s2, jl_get_library_ R f_lib' t' s1 = Ret h s2
                 /\ loader_calls (trace s2) = loader_calls (trace s1))
  /\ (forall s3, libMap s3 !! cstring R f_lib = Some h ->
        exists s4, jl_get_library_ R f_lib' t' s3 = Ret h s4
                   /\ loader_calls (trace s4) = loader_calls (trace s3)).
Proof.
  intros Hs Hs' Hname Hcall Hh.
  assert (Hlater : forall s3, libMap s3 !! cstring R f_lib = Some h ->
            exists s4, jl_get_library_ R f_lib' t' s3 = Ret h s4
                       /\ loader_calls (trace s4) = loader_calls (trace s3)).
  { intros s3 H3. eexists. split.
    - apply get_library_published; [assumption | now rewrite Hname | assumption].
    - rewrite !loader_calls_log. cbn. lia. }
  assert (Hpub : libMap s1 !! cstring R f_lib = Some h
                 /\ (loader_calls (trace s1) <= loader_calls (trace s) + 1)%nat).
  { rewrite get_library_registry in Hcall by assumption. cbn in Hcall.
    destruct (libMap s !! cstring R f_lib) as [h0|] eqn:E.
    - destruct (is_null h0) eqn:Hn.
      + destruct (is_null (platform_dlopen R (cstring R f_lib))) eqn:Hd;
          [destruct t; [discriminate|]; inversion Hcall; congruence|].
        inversion Hcall; subst. split; [cbn; now rewrite lookup_insert_eq|].
        rewrite !loader_calls_log, trace_set_libMap, !loader_calls_log. cbn. lia.
      + inversion Hcall; subst. split; [assumption|].
        rewrite !loader_calls_log. cbn. lia.
    - destruct (is_null (platform_dlopen R (cstring R f_lib))) eqn:Hd;
        [destruct t; [discriminate|]; inversion Hcall; congruence|].
      inversion Hcall; subst. split; [cbn; now rewrite lookup_insert_eq|].
      rewrite !loader_calls_log, trace_set_libMap, !loader_calls_log,
        trace_set_libMap, !loader_calls_log. cbn. lia. }
  destruct Hpub as [Hm Hl]. repeat split; auto.
Qed.

End LibraryLookup.

Lemma jl_get_library_resolved_once_witness :
  exists s1,
    jl_get_library_ demo_runtime 100 true demo_state = Ret 5000 s1
    /\ exists s2, jl_get_library_ demo_runtime 101 false s1 = Ret 5000 s2
                  /\ loader_calls (trace s2) = loader_calls (trace s1).
Proof.
  eexists. split; [reflexivity|].
  refine (proj1 (proj2 (proj2
    (jl_get_library_resolved_once demo_runtime 100 101 true false
       demo_state _ 5000 _ _ _ _ _)))).
  - reflexivity.
  - reflexivity.
  - reflexivity.
  - reflexivity.
  - discriminate.
Defined.

(** C8, as stated, fails for a library that cannot be loaded: with
    [throw_err = 0] the first call returns the null handle and publishes
    nothing, so the second call invokes the loader again. *)
Lemma jl_get_library_failed_load_retried :
  exists s1 s2,
    sentinel_handle demo_runtime 300 = None
    /\ jl_get_library_ demo_runtime 300 false demo_state = Ret NULL s1
    /\ jl_get_library_ demo_runtime 300 false s1 = Ret NULL s2
    /\ loader_calls (trace demo_state) = 0%nat
    /\ loader_calls (trace s2) = 2%nat.
Proof.
  do 2 eexists. split; [reflexivity|]. split; [reflexivity|].
  split; [reflexivity|]. split; reflexivity.
Qed.

(** A name with the characters of the reserved executable name, at another
    address, is loaded like any library. *)
Example jl_get_library_same_characters :
  demo_cstring 400 = demo_cstring (JL_EXE_LIBNAME demo_runtime)
  /\ jl_get_library_ demo_runtime (JL_EXE_LIBNAME demo_runtime) true demo_state
     = Ret 12 demo_state
  /\ exists s', jl_get_library_ demo_runtime 400 true demo_state = Ret 5001 s'
                /\ libMap s' !! "exe"%string = Some 5001
                /\ loader_calls (trace s') = 1%nat.
Proof.
  split; [reflexivity|]. split; [reflexivity|].
  eexists. split; [reflexivity|]. split; reflexivity.
Qed.

Section SymbolLookup.

Variable R : Runtime.

Lemma cell_value_store hnd h s : cell_value (set_cells (insert hnd h) s) hnd = h.
Proof. unfold cell_value. cbn. now rewrite lookup_insert_eq. Qed.

Lemma cell_value_log e s hnd : cell_value (log e s) hnd = cell_value s hnd.
Proof. reflexivity. Qed.

(** The fast path: the cell's value is taken as the library handle. *)
Lemma load_and_lookup_fast f_lib f_name hnd s :
  cell_value s hnd <> NULL ->
  jl_load_and_lookup R f_lib f_name hnd s =
    jl_dlsym R (cell_value s hnd) f_name true s.
Proof.
  intros Hc. unfold jl_load_and_lookup, bind, jl_atomic_load_acquire, gets.
  fold (cell_value s hnd). unfold is_null.
  now rewrite (proj2 (Z.eqb_neq _ _) Hc).
Qed.

(** The slow path: the library is resolved and its handle stored. *)
Lemma load_and_lookup_slow f_lib f_name hnd s h s1 :
  cell_value s hnd = NULL ->
  jl_get_library R f_lib s = Ret h s1 ->
  jl_load_and_lookup R f_lib f_name hnd s =
    jl_dlsym R h f_name true (set_cells (insert hnd h) s1).
Proof.
  intros Hc Hl. unfold jl_load_and_lookup, bind, jl_atomic_load_acquire, gets.
  fold (cell_value s hnd). rewrite Hc. cbn. now rewrite Hl.
Qed.

Lemma jl_dlsym_outcome h f_name s :
  jl_dlsym R h f_name true s =
    match platform_dlsym R h (cstring R f_name) with
    | Some p => Ret p (log (EvDlsym h (cstring R f_name)) s)
    | None => Throw (SymbolNotFound (cstring R f_name))
                (log (EvDlsym h (cstring R f_name)) s)
    end.
Proof.
  unfold jl_dlsym, bind, emit.
  now destruct (platform_dlsym R h (cstring R f_name)).
Qed.

(** C2, as the code has it.  The cell caches the library handle, and it is
    written before the symbol is looked up.  With a null cell, a library
    that resolves to the handle [h] and a symbol absent from it, the call
    raises symbol-not-found and leaves [h] in the cell: the cell is no
    longer null.  No symbol address is stored. *)
Theorem jl_load_and_lookup_missing_symbol (f_lib f_name hnd : ptr)
    (s s1 : state) (h : ptr) :
  cell_value s hnd = NULL ->
  jl_get_library R f_lib s = Ret h s1 ->
  h <> NULL ->
  platform_dlsym R h (cstring R f_name) = None ->
  exists s',
    jl_load_and_lookup R f_lib f_name hnd s
      = Throw (SymbolNotFound (cstring R f_name)) s'
    /\ cell_value s' hnd = h
    /\ cell_value s' hnd <> NULL.
Proof.
  intros Hc Hl Hh Hsym.
  rewrite (load_and_lookup_slow _ _ _ _ _ _ Hc Hl), jl_dlsym_outcome, Hsym.
  eexists. split; [reflexivity|].
  rewrite cell_value_log, cell_value_store. auto.
Qed.

(** C3, as the code has it.  The cell holds a library handle, not a symbol
    address.  When it is non-null the call resolves no library (the state is
    untouched but for the one symbol lookup it logs), looks the symbol up in
    the cached handle with the platform primitive and returns what that
    gives, raising symbol-not-found when the symbol is absent.  When it is
    null and the library resolves to [h], it is [h] that is stored in the
    cell, and the symbol is looked up in [h]. *)
Theorem jl_load_and_lookup_cell_is_handle (f_lib f_name hnd : ptr) (s : state) :
  (cell_value s hnd <> NULL ->
   let c := cell_value s hnd in
   let s' := log (EvDlsym c (cstring R f_name)) s in
   cell_value s' hnd = c
   /\ dlsym_calls (trace s') = S (dlsym_calls (trace s))
   /\ loader_calls (trace s') = loader_calls (trace s)
   /\ jl_load_and_lookup R f_lib f_name hnd s =
        match platform_dlsym R c (cstring R f_name) with
        | Some p => Ret p s'
        | None => Throw (SymbolNotFound (cstring R f_name)) s'
        end)
  /\ (cell_value s hnd = NULL ->
      forall h s1, jl_get_library R f_lib s = Ret h s1 ->
        let s' := log (EvDlsym h (cstring R f_name)) (set_cells (insert hnd h) s1) in
        cell_value s' hnd = h
        /\ jl_load_and_lookup R f_lib f_name hnd s =
             match platform_dlsym R h (cstring R f_name) with
             | Some p => Ret p s'
             | None => Throw (SymbolNotFound (cstring R f_name)) s'
             end).
Proof.
  split.
  - intros Hc c s'. split; [reflexivity|]. split; [|split].
    + subst s'. change (trace (log ?e s)) with (trace s ++ [e]).
      unfold dlsym_calls. rewrite List.filter_app, length_app. cbn. lia.
    + subst s'. now rewrite loader_calls_log, Nat.add_0_r.
    + now rewrite load_and_lookup_fast, jl_dlsym_outcome.
  - intros Hc h s1 Hl s'. split.
    + subst s'. now rewrite cell_value_log, cell_value_store.
    + now rewrite (load_and_lookup_slow _ _ _ _ _ _ Hc Hl), jl_dlsym_outcome.
Qed.

End SymbolLookup.

Lemma jl_load_and_lookup_missing_symbol_witness :
  exists s',
    jl_load_and_lookup demo_runtime 100 201 900 demo_state
      = Throw (SymbolNotFound "nosuch") s'
    /\ cell_value s' 900 = 5000
    /\ cell_value s' 900 <> NULL.
Proof.
  refine (jl_load_and_lookup_missing_symbol demo_runtime 100 201 900
            demo_state _ 5000 _ _ _ _).
  - reflexivity.
  - reflexivity.
  - discriminate.
  - reflexivity.
Defined.

(** C2, as stated, fails: after the failed lookup of ["nosuch"] in the
    loaded library ["libm"], the cell that was null holds the handle. *)
Lemma jl_load_and_lookup_cell_written_on_failure :
  exists s',
    cell_value demo_state 900 = NULL
    /\ jl_load_and_lookup demo_runtime 100 201 900 demo_state
       = Throw (SymbolNotFound "nosuch") s'
    /\ libMap s' !! "libm"%string = Some 5000
    /\ cell_value s' 900 = 5000
    /\ cell_value s' 900 <> NULL.
Proof.
  eexists. split; [reflexivity|]. split; [reflexivity|].
  split; [reflexivity|]. split; [reflexivity|]. discriminate.
Qed.

Lemma jl_load_and_lookup_cell_is_handle_witness :
  cell_value demo_cell_state 900 <> NULL
  /\ jl_load_and_lookup demo_runtime 100 200 900 demo_cell_state
     = Ret 7000 (log (EvDlsym 5000 "cos") demo_cell_state).
Proof.
  assert (H : cell_value demo_cell_state 900 <> NULL) by discriminate.
  split; [exact H|].
  exact (proj2 (proj2 (proj2
    (proj1 (jl_load_and_lookup_cell_is_handle demo_runtime 100 200 900
              demo_cell_state) H)))).
Defined.

(** C3, as stated, fails: with the cell holding [5000] the call does not
    return [5000]; it invokes the symbol primitive and returns the address
    [7000] that the primitive gives. *)
Lemma jl_load_and_lookup_fast_path_calls_dlsym :
  exists s',
    cell_value demo_cell_state 900 = 5000
    /\ jl_load_and_lookup demo_runtime 100 200 900 demo_cell_state = Ret 7000 s'
    /\ 7000 <> cell_value demo_cell_state 900
    /\ dlsym_calls (trace demo_cell_state) = 0%nat
    /\ dlsym_calls (trace s') = 1%nat.
Proof.
  eexists. split; [reflexivity|]. split; [reflexivity|].
  split; [discriminate|]. split; reflexivity.
Qed.

(** ** Running monadic code *)

Lemma bind_Ret {A B} (m : M A) (k : A -> M B) s a s' :
  m s = Ret a s' -> bind m k s = k a s'.
Proof. unfold bind. now intros ->. Qed.

Lemma bind_Throw {A B} (m : M A) (k : A -> M B) s e s' :
  m s = Throw e s' -> bind m k s = Throw e s'.
Proof. unfold bind. now intros ->. Qed.

Lemma bind_Ret_inv {A B} (m : M A) (k : A -> M B) s b s' :
  bind m k s = Ret b s' -> exists a s1, m s = Ret a s1 /\ k a s1 = Ret b s'.
Proof. unfold bind. destruct (m s); [eauto | discriminate | discriminate]. Qed.

Lemma store_field_eq f i v s o :
  gc_heap s !! f = Some o -> (i < length (o_words o))%nat ->
  store_field f i v s =
    Ret tt (set_gc_heap (insert f {| o_type := o_type o; o_perm := o_perm o;
                                    o_words := <[i:=v]> (o_words o) |}) s).
Proof.
  unfold store_field. intros -> Hi. now rewrite decide_True by assumption.
Qed.

Lemma state_eta s :
  s = {| libMap := libMap s; cells := cells s;
         trampoline_freelist := trampoline_freelist s; slot_mem := slot_mem s;
         mmap_free := mmap_free s; pages := pages s; htables := htables s;
         c_heap := c_heap s; malloc_next := malloc_next s; gc_heap := gc_heap s;
         gc_next := gc_next s; gc_budget := gc_budget s;
         finalizers := finalizers s; trace := trace s |}.
Proof. now destruct s. Qed.

Lemma set_gc_heap_id f s : f (gc_heap s) = gc_heap s -> set_gc_heap f s = s.
Proof. intros H. rewrite (state_eta s) at 2. unfold set_gc_heap. now rewrite H. Qed.

Lemma set_c_heap_id f s : f (c_heap s) = c_heap s -> set_c_heap f s = s.
Proof. intros H. rewrite (state_eta s) at 2. unfold set_c_heap. now rewrite H. Qed.

Lemma state_ext s s' :
  libMap s = libMap s' -> cells s = cells s' ->
  trampoline_freelist s = trampoline_freelist s' -> slot_mem s = slot_mem s' ->
  mmap_free s = mmap_free s' -> pages s = pages s' ->
  htables s = htables s' -> c_heap s = c_heap s' ->
  malloc_next s = malloc_next s' -> gc_heap s = gc_heap s' ->
  gc_next s = gc_next s' -> gc_budget s = gc_budget s' ->
  finalizers s = finalizers s' -> trace s = trace s' ->
  s = s'.
Proof. destruct s, s'; cbn; intros; now subst. Qed.

(** Resolve the lookups and the bounds checks of a run of stores. *)
Ltac run_stores :=
  repeat (progress (rewrite ?lookup_insert_eq; cbn;
                    rewrite ?decide_True by (cbn; lia); cbn)).

(** Two states built by setters are equal when their fields are. *)
Ltac state_eq := apply state_ext; cbn; try reflexivity.

Section Allocator.

Variable R : Runtime.

(** [trampoline_alloc] when the free list is not empty: pop its head. *)
Lemma trampoline_alloc_pop s next :
  trampoline_freelist s <> NULL ->
  slot_mem s !! trampoline_freelist s = Some next ->
  trampoline_alloc R s = Ret (trampoline_freelist s) (set_pool next (slot_mem s) s).
Proof.
  intros Hfl Hn. unfold trampoline_alloc, bind, gets, is_null, ret, load_slot, modify.
  rewrite (proj2 (Z.eqb_neq _ _) Hfl). cbn. now rewrite Hn.
Qed.

End Allocator.

Section Finalizer.

Ltac run_heap Hf Hw :=
  repeat (progress (rewrite ?lookup_insert_eq, ?Hf; cbn;
                    rewrite ?Hw; cbn;
                    rewrite ?decide_True by (cbn; lia); cbn)).

(** On a wrapper whose slot, table and buffer fields are null the finalizer
    only takes and releases the lock. *)
Lemma trampoline_deleter_cleared f s o fobj rest :
  gc_heap s !! f = Some o ->
  o_words o = NULL :: fobj :: NULL :: NULL :: rest ->
  trampoline_deleter f s =
    Ret tt (log (EvUnlock trampoline_lock) (log (EvLock trampoline_lock) s)).
Proof.
  intros Hf Hw.
  unfold trampoline_deleter, bind, load_field, store_field, emit, ret.
  run_heap Hf Hw.
  rewrite andb_false_r. cbn.
  do 3 f_equal.
  rewrite !(set_gc_heap_id _ s); [reflexivity|..];
    apply insert_id; rewrite Hf; f_equal; destruct o; cbn in *; now subst.
Qed.

(** What one run of the finalizer does to the state. *)
Lemma trampoline_deleter_run f s o tramp fobj cache nval rest :
  gc_heap s !! f = Some o ->
  o_words o = tramp :: fobj :: cache :: nval :: rest ->
  trampoline_deleter f s =
    Ret tt
      (let s1 := log (EvLock trampoline_lock)
                   (set_gc_heap (insert f
                      {| o_type := o_type o; o_perm := o_perm o;
                         o_words := NULL :: fobj :: NULL :: NULL :: rest |}) s) in
       let s2 := if is_null tramp then s1
                 else set_pool tramp (<[tramp := trampoline_freelist s1]> (slot_mem s1))
                        (log (EvSlotFree tramp) s1) in
       let s3 := if negb (is_null fobj) && negb (is_null cache)
                 then set_htables
                        (fun H => match H !! cache with
                                  | Some m => <[cache := delete fobj m]> H
                                  | None => H
                                  end) (log (EvEvict cache fobj) s2)
                 else s2 in
       let s4 := if is_null nval then s3
                 else set_c_heap (delete nval) (log (EvRelease nval) s3) in
       log (EvUnlock trampoline_lock) s4).
Proof.
  intros Hf Hw.
  unfold trampoline_deleter, bind, load_field, store_field, emit, ret.
  run_heap Hf Hw.
  destruct (is_null tramp), (is_null fobj), (is_null cache), (is_null nval);
    cbn; unfold trampoline_free, ptrhash_remove, free, modify, bind, emit; cbn;
    f_equal; state_eq; rewrite !insert_insert_eq; reflexivity.
Qed.

(** C6, as the code has it.  The finalizer frees the slot if the wrapper
    has one, evicts the cache entry if the identity and the table fields are
    both set, releases the buffer if there is one, in this order and between
    taking and releasing the lock; it clears the slot, table and buffer
    fields and leaves the identity field as it was.  A second invocation
    takes and releases the lock and does nothing else: no free, no eviction,
    no release. *)
Theorem trampoline_deleter_idempotent (f : ptr) (s : state) (o : gc_obj)
    (tramp fobj cache nval : ptr) (rest : list ptr) :
  gc_heap s !! f = Some o ->
  o_words o = tramp :: fobj :: cache :: nval :: rest ->
  exists s1,
    trampoline_deleter f s = Ret tt s1
    /\ trace s1 = trace s ++ [EvLock trampoline_lock]
         ++ (if is_null tramp then [] else [EvSlotFree tramp])
         ++ (if negb (is_null fobj) && negb (is_null cache)
             then [EvEvict cache fobj] else [])
         ++ (if is_null nval then [] else [EvRelease nval])
         ++ [EvUnlock trampoline_lock]
    /\ (tramp <> NULL ->
        trampoline_freelist s1 = tramp
        /\ slot_mem s1 !! tramp = Some (trampoline_freelist s))
    /\ (fobj <> NULL -> cache <> NULL ->
        table_of (htables s1) cache !! fobj = None)
    /\ (nval <> NULL -> c_heap s1 !! nval = None)
    /\ wrapper_words s1 f = Some (NULL :: fobj :: NULL :: NULL :: rest)
    /\ trampoline_deleter f s1 =
         Ret tt (log (EvUnlock trampoline_lock) (log (EvLock trampoline_lock) s1)).
Proof.
  intros Hf Hw.
  eexists. split; [exact (trampoline_deleter_run _ _ _ _ _ _ _ _ Hf Hw)|].
  assert (Hheap : forall (b1 b2 b3 : bool),
    gc_heap
      (let s1 := log (EvLock trampoline_lock)
                   (set_gc_heap (insert f
                      {| o_type := o_type o; o_perm := o_perm o;
                         o_words := NULL :: fobj :: NULL :: NULL :: rest |}) s) in
       let s2 := if b1 then s1
                 else set_pool tramp (<[tramp := trampoline_freelist s1]> (slot_mem s1))
                        (log (EvSlotFree tramp) s1) in
       let s3 := if b2
                 then set_htables
                        (fun H => match H !! cache with
                                  | Some m => <[cache := delete fobj m]> H
                                  | None => H
                                  end) (log (EvEvict cache fobj) s2)
                 else s2 in
       let s4 := if b3 then s3
                 else set_c_heap (delete nval) (log (EvRelease nval) s3) in
       log (EvUnlock trampoline_lock) s4) !! f
    = Some {| o_type := o_type o; o_perm := o_perm o;
              o_words := NULL :: fobj :: NULL :: NULL :: rest |}).
  { intros [] [] []; cbn; apply lookup_insert_eq. }
  split; [|split; [|split; [|split; [|split]]]].
  - destruct (is_null tramp), (negb (is_null fobj) && negb (is_null cache)),
      (is_null nval); cbn; rewrite <- ?app_assoc; reflexivity.
  - intros Ht. rewrite (proj2 (Z.eqb_neq tramp NULL) Ht : is_null tramp = false).
    destruct (negb (is_null fobj) && negb (is_null cache)), (is_null nval);
      cbn; (split; [reflexivity | apply lookup_insert_eq]).
  - intros Hfo Hc.
    rewrite (proj2 (Z.eqb_neq fobj NULL) Hfo : is_null fobj = false),
      (proj2 (Z.eqb_neq cache NULL) Hc : is_null cache = false). unfold table_of.
    destruct (is_null tramp), (is_null nval); cbn;
      (destruct (htables s !! cache) as [m|] eqn:E;
       [rewrite lookup_insert_eq; cbn; apply lookup_delete_eq
       | rewrite E; cbn; apply lookup_empty]).
  - intros Hn. rewrite (proj2 (Z.eqb_neq nval NULL) Hn : is_null nval = false).
    cbn. apply lookup_delete_eq.
  - unfold wrapper_words. now rewrite Hheap.
  - eapply trampoline_deleter_cleared; [apply Hheap | reflexivity].
Qed.

End Finalizer.

Section Cache.

Variable R : Runtime.

Lemma heap_addr_not_notfound n : heap_addr n <> HT_NOTFOUND.
Proof. unfold heap_addr, HT_NOTFOUND. lia. Qed.

Lemma malloc_addr_not_notfound n : malloc_addr n <> HT_NOTFOUND.
Proof. unfold malloc_addr, HT_NOTFOUND. lia. Qed.

(** [trampoline_alloc] looks at the slot allocator and the operating system
    only. *)
Lemma trampoline_alloc_frame s s' t sa :
  same_pool s s' ->
  trampoline_alloc R s = Ret t sa ->
  trampoline_alloc R s' =
    Ret t (set_os (mmap_free sa) (pages sa)
             (set_pool (trampoline_freelist sa) (slot_mem sa) s')).
Proof.
  intros (Hfl & Hsm & Hfr & Hpg).
  unfold trampoline_alloc, bind, gets.
  rewrite <- Hfl.
  destruct (is_null (trampoline_freelist s)).
  - unfold mmap_page. rewrite <- Hfr.
    destruct (mmap_free s) as [|mem rest]; [discriminate|].
    unfold jl_assert.
    destruct (sz <? jl_page_size R); [|discriminate].
    unfold ret, modify, load_slot. cbn. rewrite <- Hsm.
    destruct (carve_page R mem (slot_mem s)) as [next sm] eqn:Hc. cbn.
    destruct (sm !! next) as [v|]; [|discriminate].
    intros H; inversion H; subst; clear H.
    f_equal. state_eq. now rewrite Hpg.
  - unfold ret, modify, load_slot. cbn. rewrite <- Hsm, <- Hfl.
    destruct (slot_mem s !! trampoline_freelist s) as [v|]; [|discriminate].
    intros H; inversion H; subst; clear H.
    f_equal. state_eq; congruence.
Qed.

Lemma store_word_eq blk i v s ws :
  c_heap s !! blk = Some ws -> (i < length ws)%nat ->
  store_word blk i v s = Ret tt (set_c_heap (insert blk (<[i:=v]> ws)) s).
Proof.
  unfold store_word. intros -> Hi. now rewrite decide_True by assumption.
Qed.

Lemma set_c_heap_twice blk b1 b2 s :
  set_c_heap (insert blk b2) (set_c_heap (insert blk b1) s)
  = set_c_heap (insert blk b2) s.
Proof. state_eq. apply insert_insert_eq. Qed.

(** The loop over the template: every instantiated value lands in its
    slot, sanitised; the first instantiation that raises ends the loop. *)
Lemma fill_nval_run nval env vals ts :
  forall i pre rest s,
    c_heap s !! nval = Some (pre ++ rest) ->
    length pre = S i ->
    length rest = length ts ->
    match instantiate_all R env vals ts with
    | inr vs =>
        fill_nval R nval env vals i ts s =
          Ret tt (set_c_heap (insert nval (pre ++ map (sparam_slot R) vs)) s)
    | inl e =>
        exists blk, fill_nval R nval env vals i ts s =
                      Throw e (set_c_heap (insert nval blk) s)
    end.
Proof.
  induction ts as [|t ts IH]; intros i pre rest s Hblk Hpre Hrest.
  - destruct rest; [|discriminate]. cbn.
    unfold ret. f_equal. symmetry. apply set_c_heap_id. now apply insert_id.
  - destruct rest as [|r0 rest]; [discriminate|]. cbn in Hrest.
    cbn [instantiate_all fill_nval]. unfold instantiate, bind.
    destruct (jl_instantiate_type_in_env R t env vals) as [e|v] eqn:Hi.
    + exists (pre ++ r0 :: rest). unfold jl_throw. f_equal.
      symmetry. apply set_c_heap_id. now apply insert_id.
    + unfold ret.
      rewrite (store_word_eq _ _ _ _ _ Hblk)
        by (rewrite length_app; cbn; lia).
      assert (Hins : <[S i := sparam_slot R v]> (pre ++ r0 :: rest)
                     = (pre ++ [sparam_slot R v]) ++ rest).
      { rewrite <- Hpre, insert_app_r_alt by lia.
        rewrite Nat.sub_diag. cbn. now rewrite <- app_assoc. }
      rewrite Hins.
      specialize (IH (S i) (pre ++ [sparam_slot R v]) rest
                    (set_c_heap (insert nval ((pre ++ [sparam_slot R v]) ++ rest)) s)).
      assert (H1 : c_heap (set_c_heap (insert nval ((pre ++ [sparam_slot R v]) ++ rest)) s)
                   !! nval = Some ((pre ++ [sparam_slot R v]) ++ rest))
        by (cbn; apply lookup_insert_eq).
      assert (H2 : length (pre ++ [sparam_slot R v]) = S (S i))
        by (rewrite length_app; cbn; lia).
      specialize (IH H1 H2 (eq_add_S _ _ Hrest)).
      destruct (instantiate_all R env vals ts) as [e|vs].
      * destruct IH as [blk IH]. exists blk.
        now rewrite IH, set_c_heap_twice.
      * rewrite IH, set_c_heap_twice. cbn [map].
        now rewrite <- app_assoc.
Qed.

Lemma is_permanent_not_voidpointer fobj rt ty :
  is_permanent R fobj rt ty = false -> (rt =? jl_voidpointer_type R) = false.
Proof.
  unfold is_permanent.
  destruct (rt =? jl_voidpointer_type R); [|reflexivity]. cbn.
  destruct (jl_is_unionall R fobj); [|discriminate].
  now destruct (jl_is_datatype R (jl_unwrap_unionall R fobj)
                && (datatype_name_wrapper R (jl_unwrap_unionall R fobj) =? fobj)).
Qed.

(** The body of the try block when every instantiation succeeds. *)
Lemma build_wrapper_ok fobj rt c fill env vals nval s fobj0 vs :
  c_heap s !! nval =
    Some (fobj0 :: replicate (length (jl_svec_data R fill)) (uninit_word R)) ->
  instantiate_all R env vals (jl_svec_data R fill) = inr vs ->
  let perm := is_permanent R fobj rt (typeof_in R s fobj) in
  let w := heap_addr (gc_next s) in
  let s2 := set_c_heap (insert nval (fobj0 :: map (sparam_slot R) vs)) s in
  build_wrapper R fobj rt c fill env vals nval s =
    match gc_budget s with
    | O => Throw MemoryException s2
    | S b =>
        if negb (rt =? jl_voidpointer_type R)
           && negb (Nat.eqb (jl_datatype_words R rt) 4)
        then Fault
        else Ret w (set_finalizers (if perm then id else cons w)
                      (set_gc_counters (Pos.succ (gc_next s)) b
                         (set_gc_heap
                            (insert w {| o_type := rt; o_perm := perm;
                                         o_words := built_words R perm rt fobj c nval |})
                            s2)))
    end.
Proof.
  intros Hblk Hinst perm w s2.
  pose proof (fill_nval_run nval env vals (jl_svec_data R fill) 0 [fobj0]
                (replicate (length (jl_svec_data R fill)) (uninit_word R)) s
                Hblk eq_refl (length_replicate _ _)) as Hfill.
  rewrite Hinst in Hfill. cbn [app] in Hfill. fold s2 in Hfill.
  unfold build_wrapper.
  rewrite (bind_Ret _ _ _ _ _ Hfill).
  rewrite (bind_Ret _ _ _ (typeof_in R s fobj) s2) by reflexivity.
  fold perm.
  unfold jl_gc_permobj, jl_new_struct_uninit, gc_alloc, memset0, bind, ret,
    jl_assert, fault, store_field, jl_gc_add_ptr_finalizer, modify.
  change (gc_budget s2) with (gc_budget s).
  destruct (gc_budget s) as [|b] eqn:Hb.
  { destruct perm; cbn; rewrite Hb; reflexivity. }
  destruct perm eqn:Hperm.
  - cbn. rewrite Hb. cbn. rewrite lookup_insert_eq. cbn.
    rewrite drop_replicate, Nat.sub_diag, app_nil_r.
    unfold built_words.
    destruct (rt =? jl_voidpointer_type R) eqn:Hvp; cbn.
    + f_equal. state_eq. now rewrite insert_insert_eq.
    + destruct (Nat.eqb (jl_datatype_words R rt) 4) eqn:Hw; cbn; [|reflexivity].
      apply Nat.eqb_eq in Hw. rewrite Hw. run_stores.
      f_equal. state_eq. now rewrite !insert_insert_eq.
  - pose proof (is_permanent_not_voidpointer _ _ _ Hperm) as Hvp.
    rewrite Hvp. cbn. rewrite Hb. cbn.
    destruct (Nat.eqb (jl_datatype_words R rt) 4) eqn:Hw; cbn; [|reflexivity].
    apply Nat.eqb_eq in Hw. rewrite Hw. run_stores.
    unfold built_words. f_equal. state_eq. now rewrite !insert_insert_eq.
Qed.

(** The body of the try block when an instantiation raises. *)
Lemma build_wrapper_throw fobj rt c fill env vals nval s fobj0 e :
  c_heap s !! nval =
    Some (fobj0 :: replicate (length (jl_svec_data R fill)) (uninit_word R)) ->
  instantiate_all R env vals (jl_svec_data R fill) = inl e ->
  exists blk,
    build_wrapper R fobj rt c fill env vals nval s =
      Throw e (set_c_heap (insert nval blk) s).
Proof.
  intros Hblk Hinst.
  pose proof (fill_nval_run nval env vals (jl_svec_data R fill) 0 [fobj0]
                (replicate (length (jl_svec_data R fill)) (uninit_word R)) s
                Hblk eq_refl (length_replicate _ _)) as Hfill.
  rewrite Hinst in Hfill. destruct Hfill as [blk Hfill]. exists blk.
  unfold build_wrapper. now rewrite (bind_Throw _ _ _ _ _ Hfill).
Qed.

(** The first critical section always completes.  The table it gives and
    the state it leaves do not depend on the callable.  It changes the
    tables and the malloc counter only; it leaves the call-site table with
    storage; for a non-empty template the table it gives is registered
    under [vals]; what it finds is the entry of the callable in that
    table. *)
Lemma cache_lookup_post cache fill vals s :
  exists c s1,
    (forall fobj,
       cache_lookup R fobj cache fill vals s =
         Ret (c, default HT_NOTFOUND (table_of (htables s1) c !! fobj)) s1)
    /\ s1 = log (EvUnlock trampoline_lock)
              (set_malloc_next (malloc_next s1)
                 (set_htables (fun _ => htables s1)
                    (log (EvLock trampoline_lock) s)))
    /\ is_Some (htables s1 !! cache)
    /\ ((fill =? jl_emptysvec R) = true -> c = cache)
    /\ ((fill =? jl_emptysvec R) = false ->
        table_of (htables s1) cache !! vals = Some c /\ c <> HT_NOTFOUND)
    /\ ((fill =? jl_emptysvec R) = false -> tables_apart s cache vals -> c <> cache).
Proof.
  cut (exists c s1 H1,
    (forall fobj,
       cache_lookup R fobj cache fill vals s =
         Ret (c, default HT_NOTFOUND (table_of H1 c !! fobj)) s1)
    /\ H1 = htables s1
    /\ s1 = log (EvUnlock trampoline_lock)
              (set_malloc_next (malloc_next s1)
                 (set_htables (fun _ => htables s1)
                    (log (EvLock trampoline_lock) s)))
    /\ is_Some (H1 !! cache)
    /\ ((fill =? jl_emptysvec R) = true -> c = cache)
    /\ ((fill =? jl_emptysvec R) = false ->
        table_of H1 cache !! vals = Some c /\ c <> HT_NOTFOUND)
    /\ ((fill =? jl_emptysvec R) = false -> tables_apart s cache vals -> c <> cache)).
  { intros (c & s1 & H1 & Ha & -> & Hb). now exists c, s1. }
  unfold cache_lookup, bind, emit, htable_has_storage, gets, htable_new,
    modify, ret, ptrhash_bp, malloc_s_htable, ptrhash_put, ptrhash_get,
    tables_apart.
  cbn.
  destruct (htables s !! cache) as [m|] eqn:Hc; cbn;
    (destruct (fill =? jl_emptysvec R) eqn:Hfill; cbn;
     [|unfold table_of at 1; cbn; rewrite ?Hc, ?lookup_insert_eq; cbn;
       match goal with
       | |- context [?mm !! vals] =>
           destruct (mm !! vals) as [v|] eqn:Hv; cbn;
           [destruct (v =? HT_NOTFOUND) eqn:Hnf; cbn|]
       end]).
  all: do 3 eexists; (split; [intros fobj; reflexivity|]);
       (split; [reflexivity|]); (split; [state_eq|]); cbn.
  all: repeat apply conj; try reflexivity; try (intros; discriminate).
  all: try (rewrite ?lookup_insert_eq, ?Hc; eauto; fail).
  all: try (intros _ [Hm _]; congruence).
  all: try (intros _; unfold table_of; rewrite !lookup_insert_eq; cbn;
            rewrite lookup_insert_eq; split;
            [reflexivity | apply malloc_addr_not_notfound]).
  all: try (rewrite lookup_empty in Hv; discriminate).
  - intros _. unfold table_of. rewrite Hc. cbn. split; [exact Hv|].
    now apply Z.eqb_neq.
  - intros _ [_ Hap]. unfold table_of in Hap. rewrite Hc in Hap. cbn in Hap.
    now rewrite Hv in Hap.
Qed.

(** What the first critical section leaves alone. *)
Lemma cache_lookup_frame fobj cache fill vals s c t s1 :
  cache_lookup R fobj cache fill vals s = Ret (c, t) s1 ->
  same_pool s s1
  /\ gc_heap s1 = gc_heap s /\ gc_next s1 = gc_next s
  /\ gc_budget s1 = gc_budget s /\ finalizers s1 = finalizers s
  /\ c_heap s1 = c_heap s
  /\ trace s1 = trace s ++ [EvLock trampoline_lock; EvUnlock trampoline_lock].
Proof.
  intros Hl.
  destruct (cache_lookup_post cache fill vals s) as (c0 & s0 & H0 & Hfr & _).
  rewrite H0 in Hl. inversion Hl; subst s0. clear Hl.
  rewrite Hfr. cbn. unfold same_pool. cbn.
  rewrite <- app_assoc. repeat split.
Qed.

(** A lookup in tables that are already set up changes nothing. *)
Lemma cache_lookup_stable fobj cache fill vals s c :
  is_Some (htables s !! cache) ->
  ((fill =? jl_emptysvec R) = true -> c = cache) ->
  ((fill =? jl_emptysvec R) = false ->
   table_of (htables s) cache !! vals = Some c /\ c <> HT_NOTFOUND) ->
  cache_lookup R fobj cache fill vals s =
    Ret (c, default HT_NOTFOUND (table_of (htables s) c !! fobj))
      (log (EvUnlock trampoline_lock) (log (EvLock trampoline_lock) s)).
Proof.
  intros [m Hc] He Hn.
  unfold cache_lookup, bind, emit, htable_has_storage, gets, htable_new,
    modify, ret, ptrhash_bp, malloc_s_htable, ptrhash_put, ptrhash_get.
  cbn. rewrite Hc. cbn.
  destruct (fill =? jl_emptysvec R); cbn.
  - now rewrite (He eq_refl).
  - destruct (Hn eq_refl) as [Hv Hnf]. rewrite Hv. cbn.
    now rewrite (proj2 (Z.eqb_neq _ _) Hnf).
Qed.

(** A hit: the wrapper found is checked against the result type and
    returned. *)
Lemma trampoline_hit fobj rt cache fill init env vals s c t s1 :
  cache_lookup R fobj cache fill vals s = Ret (c, t) s1 ->
  t <> HT_NOTFOUND ->
  jl_get_cfunction_trampoline R fobj rt cache fill init env vals s =
    if typeof_in R s1 t =? rt then Ret t s1 else Fault.
Proof.
  intros Hl Ht. unfold jl_get_cfunction_trampoline.
  rewrite (bind_Ret _ _ _ _ _ Hl). cbn [fst snd].
  rewrite (proj2 (Z.eqb_neq _ _) Ht). cbn [negb].
  rewrite (bind_Ret _ _ _ (typeof_in R s1 t) s1) by reflexivity.
  unfold bind, jl_assert, ret, fault.
  now destruct (typeof_in R s1 t =? rt).
Qed.

(** A miss, up to the try block: the buffer is allocated with the callable
    in slot 0, the try block runs, and either the wrapper is published or
    the buffer is freed and the exception passed on. *)
Lemma trampoline_miss fobj rt cache fill init env vals s c s1 :
  cache_lookup R fobj cache fill vals s = Ret (c, HT_NOTFOUND) s1 ->
  let nval := malloc_addr (malloc_next s1) in
  let s3 := set_c_heap
              (insert nval (fobj :: replicate (length (jl_svec_data R fill))
                                      (uninit_word R)))
              (set_malloc_next (Pos.succ (malloc_next s1)) s1) in
  jl_get_cfunction_trampoline R fobj rt cache fill init env vals s =
    match build_wrapper R fobj rt c fill env vals nval s3 with
    | Ret result s4 =>
        (emit (EvLock trampoline_lock) ;;;
         tramp <- trampoline_alloc R ;;
         store_field result 0 tramp ;;;
         run_init_trampoline init tramp nval ;;;
         ptrhash_put c fobj result ;;;
         emit (EvUnlock trampoline_lock) ;;;
         ret result) s4
    | Throw e s4 => Throw e (set_c_heap (delete nval) (log (EvRelease nval) s4))
    | Fault => Fault
    end.
Proof.
  intros Hl nval s3. unfold jl_get_cfunction_trampoline.
  rewrite (bind_Ret _ _ _ _ _ Hl). cbn [fst snd].
  rewrite Z.eqb_refl. cbn [negb].
  rewrite (bind_Ret _ _ _ nval
             (set_malloc_next (Pos.succ (malloc_next s1))
                (set_c_heap (insert nval
                   (replicate (length (jl_svec_data R fill) + 1) (uninit_word R)))
                   s1))) by reflexivity.
  rewrite (bind_Ret _ _ _ tt s3).
  2:{ unfold store_word. cbn. rewrite lookup_insert_eq, Nat.add_1_r. cbn.
      f_equal. subst s3. state_eq. apply insert_insert_eq. }
  unfold bind at 1. unfold jl_try.
  destruct (build_wrapper R fobj rt c fill env vals nval s3) as [w s4|e s4|];
    reflexivity.
Qed.

(** The second critical section: take a slot, store it in the wrapper,
    generate the code, insert the wrapper in the table. *)
Lemma publish_run init c fobj nval w s4 o buf tramp sa :
  gc_heap s4 !! w = Some o ->
  (0 < length (o_words o))%nat ->
  c_heap s4 !! nval = Some buf ->
  trampoline_alloc R s4 = Ret tramp sa ->
  (emit (EvLock trampoline_lock) ;;;
   tramp <- trampoline_alloc R ;;
   store_field w 0 tramp ;;;
   run_init_trampoline init tramp nval ;;;
   ptrhash_put c fobj w ;;;
   emit (EvUnlock trampoline_lock) ;;;
   ret w) s4 =
  Ret w
    (log (EvUnlock trampoline_lock)
       (set_htables (fun H => <[c := <[fobj := w]> (table_of H c)]> H)
          (set_pool (trampoline_freelist sa)
             (<[tramp := init tramp buf]> (slot_mem sa))
             (log (EvInit tramp nval buf)
                (set_gc_heap
                   (insert w {| o_type := o_type o; o_perm := o_perm o;
                                o_words := <[0%nat := tramp]> (o_words o) |})
                   (set_os (mmap_free sa) (pages sa)
                      (log (EvLock trampoline_lock) s4))))))).
Proof.
  intros Hw Hlen Hbuf Halloc.
  rewrite (bind_Ret _ _ _ tt (log (EvLock trampoline_lock) s4)) by reflexivity.
  assert (Hpool : same_pool s4 (log (EvLock trampoline_lock) s4))
    by (repeat split).
  rewrite (bind_Ret _ _ _ _ _ (trampoline_alloc_frame _ _ _ _ Hpool Halloc)).
  erewrite bind_Ret; [|apply (store_field_eq _ _ _ _ o); [exact Hw | exact Hlen]].
  unfold run_init_trampoline, bind, load_block, emit, modify, ptrhash_put, ret.
  cbn. rewrite Hbuf. f_equal.
Qed.

(** A miss on which nothing fails: the call returns a fresh wrapper, and
    this is the state it leaves. *)
Lemma trampoline_miss_ok fobj rt cache fill init env vals s c s1 vs b tramp sa :
  cache_lookup R fobj cache fill vals s = Ret (c, HT_NOTFOUND) s1 ->
  instantiate_all R env vals (jl_svec_data R fill) = inr vs ->
  gc_budget s1 = S b ->
  layout_ok R rt = true ->
  trampoline_alloc R s1 = Ret tramp sa ->
  let w := heap_addr (gc_next s1) in
  let nval := malloc_addr (malloc_next s1) in
  let buf := fobj :: map (sparam_slot R) vs in
  let perm := is_permanent R fobj rt (typeof_in R s1 fobj) in
  exists final,
    jl_get_cfunction_trampoline R fobj rt cache fill init env vals s = Ret w final
    /\ htables final = <[c := <[fobj := w]> (table_of (htables s1) c)]> (htables s1)
    /\ gc_heap final =
         <[w := {| o_type := rt; o_perm := perm;
                   o_words := <[0%nat := tramp]> (built_words R perm rt fobj c nval) |}]>
           (gc_heap s1)
    /\ c_heap final = <[nval := buf]> (c_heap s1)
    /\ finalizers final = (if perm then id else cons w) (finalizers s1)
    /\ trace final =
         trace s1 ++ [EvLock trampoline_lock; EvInit tramp nval buf;
                      EvUnlock trampoline_lock]
    /\ pages final = pages sa
    /\ trampoline_freelist final = trampoline_freelist sa
    /\ slot_mem final = <[tramp := init tramp buf]> (slot_mem sa).
Proof.
  intros Hl Hinst Hb Hlay Halloc w nval buf perm.
  rewrite (trampoline_miss _ _ _ _ _ _ _ _ _ _ Hl).
  fold nval.
  set (s3 := set_c_heap _ (set_malloc_next _ s1)).
  assert (Hblk : c_heap s3 !! nval =
            Some (fobj :: replicate (length (jl_svec_data R fill)) (uninit_word R)))
    by (subst s3; cbn; apply lookup_insert_eq).
  rewrite (build_wrapper_ok fobj rt c fill env vals nval s3 fobj vs Hblk Hinst).
  change (gc_budget s3) with (gc_budget s1). rewrite Hb.
  change (typeof_in R s3 fobj) with (typeof_in R s1 fobj). fold perm.
  change (gc_next s3) with (gc_next s1). fold w. fold buf.
  assert (Hfault : negb (rt =? jl_voidpointer_type R)
                   && negb (Nat.eqb (jl_datatype_words R rt) 4) = false).
  { unfold layout_ok in Hlay. destruct (rt =? jl_voidpointer_type R); [reflexivity|].
    now rewrite Hlay. }
  rewrite Hfault.
  set (s4 := set_finalizers _ _).
  assert (Hlen : (0 < length (built_words R perm rt fobj c nval))%nat).
  { unfold built_words, layout_ok in *.
    destruct perm; [|cbn; lia].
    destruct (rt =? jl_voidpointer_type R); [|cbn; lia].
    rewrite length_replicate. now apply Nat.leb_le in Hlay. }
  assert (Halloc4 : trampoline_alloc R s4 =
            Ret tramp (set_os (mmap_free sa) (pages sa)
                         (set_pool (trampoline_freelist sa) (slot_mem sa) s4)))
    by (apply (trampoline_alloc_frame s1); [repeat split | exact Halloc]).
  erewrite publish_run;
    [| subst s4; cbn; apply lookup_insert_eq
     | exact Hlen
     | subst s4 s3; cbn; rewrite insert_insert_eq; apply lookup_insert_eq
     | exact Halloc4].
  eexists. split; [reflexivity|].
  subst s4 s3. cbn.
  repeat split; try reflexivity.
  - now rewrite insert_insert_eq.
  - now rewrite insert_insert_eq.
  - now rewrite <- !app_assoc.
Qed.

Lemma is_permanent_voidpointer fobj rt ty :
  (rt =? jl_voidpointer_type R) = true -> is_permanent R fobj rt ty = true.
Proof.
  unfold is_permanent. intros ->. cbn.
  destruct (jl_is_unionall R fobj); [|reflexivity].
  now destruct (jl_is_datatype R (jl_unwrap_unionall R fobj)
                && (datatype_name_wrapper R (jl_unwrap_unionall R fobj) =? fobj)).
Qed.

(** A miss that returns: nothing failed on the way. *)
Lemma trampoline_miss_inv fobj rt cache fill init env vals s c s1 w s' :
  cache_lookup R fobj cache fill vals s = Ret (c, HT_NOTFOUND) s1 ->
  jl_get_cfunction_trampoline R fobj rt cache fill init env vals s = Ret w s' ->
  exists vs b tramp sa,
    instantiate_all R env vals (jl_svec_data R fill) = inr vs
    /\ gc_budget s1 = S b
    /\ layout_ok R rt = true
    /\ trampoline_alloc R s1 = Ret tramp sa.
Proof.
  intros Hl Hcall.
  rewrite (trampoline_miss _ _ _ _ _ _ _ _ _ _ Hl) in Hcall.
  set (nval := malloc_addr (malloc_next s1)) in *.
  set (s3 := set_c_heap _ (set_malloc_next _ s1)) in *.
  assert (Hblk : c_heap s3 !! nval =
            Some (fobj :: replicate (length (jl_svec_data R fill)) (uninit_word R)))
    by (subst s3; cbn; apply lookup_insert_eq).
  destruct (instantiate_all R env vals (jl_svec_data R fill)) as [e|vs] eqn:Hinst.
  { destruct (build_wrapper_throw fobj rt c fill env vals nval s3 fobj e Hblk Hinst)
      as [blk Hb]. rewrite Hb in Hcall. discriminate. }
  rewrite (build_wrapper_ok fobj rt c fill env vals nval s3 fobj vs Hblk Hinst)
    in Hcall.
  change (gc_budget s3) with (gc_budget s1) in Hcall.
  destruct (gc_budget s1) as [|b] eqn:Hb; [discriminate|].
  destruct (negb (rt =? jl_voidpointer_type R)
            && negb (Nat.eqb (jl_datatype_words R rt) 4)) eqn:Hf; [discriminate|].
  set (perm := is_permanent R fobj rt (typeof_in R s3 fobj)) in *.
  set (w0 := heap_addr (gc_next s3)) in *.
  set (s4 := set_finalizers _ _) in Hcall.
  apply bind_Ret_inv in Hcall as ([] & sL & HL & Hcall).
  inversion HL; subst sL; clear HL.
  apply bind_Ret_inv in Hcall as (tramp & sA & HA & Hcall).
  apply bind_Ret_inv in Hcall as ([] & sS & HS & _).
  assert (Hpool : same_pool (log (EvLock trampoline_lock) s4) s1)
    by (repeat split).
  pose proof (trampoline_alloc_frame _ _ _ _ Hpool HA) as HA1.
  assert (Hrefl : same_pool (log (EvLock trampoline_lock) s4)
                            (log (EvLock trampoline_lock) s4)) by (repeat split).
  pose proof (trampoline_alloc_frame _ _ _ _ Hrefl HA) as HA2.
  rewrite HA in HA2. inversion HA2 as [HsA]. clear HA2.
  exists vs, b, tramp. eexists. repeat split; [|exact HA1].
  unfold layout_ok.
  destruct (rt =? jl_voidpointer_type R) eqn:Hvp.
  - unfold store_field in HS. rewrite HsA in HS. cbn in HS.
    rewrite lookup_insert_eq in HS. cbn in HS.
    destruct (decide (0 < length (built_words R perm rt fobj c nval))%nat)
      as [Hlen|]; [|discriminate].
    unfold built_words in Hlen. subst perm.
    rewrite (is_permanent_voidpointer _ _ _ Hvp), Hvp, length_replicate in Hlen.
    now apply Nat.leb_le.
  - cbn in Hf. now destruct (Nat.eqb (jl_datatype_words R rt) 4).
Qed.

(** What the first critical section finds is a function of the tables,
    provided the call-site table is not the block malloc hands out next. *)
Lemma cache_lookup_finds fobj cache fill vals s c t s1 :
  ((fill =? jl_emptysvec R) = false -> cache <> malloc_addr (malloc_next s)) ->
  cache_lookup R fobj cache fill vals s = Ret (c, t) s1 ->
  t = cached R (htables s) fobj cache fill vals.
Proof.
  unfold cache_lookup, bind, emit, htable_has_storage, gets, htable_new,
    modify, ret, ptrhash_bp, malloc_s_htable, ptrhash_put, ptrhash_get, cached.
  cbn. intros Hne.
  destruct (htables s !! cache) as [m|] eqn:Hc; cbn;
    (destruct (fill =? jl_emptysvec R) eqn:Hfill; cbn;
     [|specialize (Hne eq_refl);
       unfold table_of at 1 2; cbn; rewrite ?Hc, ?lookup_insert_eq; cbn;
       match goal with
       | |- context [?mm !! vals] =>
           destruct (mm !! vals) as [v|] eqn:Hv; cbn;
           [destruct (v =? HT_NOTFOUND) eqn:Hnf; cbn|]
       end]).
  all: intros H; inversion H; subst; clear H.
  all: unfold table_of; cbn;
       rewrite ?Hc, ?lookup_insert_eq, ?(lookup_insert_ne _ cache) by congruence;
       cbn; rewrite ?lookup_insert_eq, ?lookup_empty; cbn; try reflexivity.
  all: try (rewrite lookup_empty in Hv; discriminate).
  all: rewrite ?Hv, ?lookup_empty; cbn; rewrite ?Hnf; reflexivity.
Qed.

(** In tables that are set up, what the lookup finds is the entry of the
    callable in the table the lookup gives. *)
Lemma cached_set_up (H : gmap Z (gmap Z Z)) (fobj cache fill vals c : ptr) :
  ((fill =? jl_emptysvec R) = true -> c = cache) ->
  ((fill =? jl_emptysvec R) = false ->
   table_of H cache !! vals = Some c /\ c <> HT_NOTFOUND) ->
  cached R H fobj cache fill vals = default HT_NOTFOUND (table_of H c !! fobj).
Proof.
  intros He Hn. unfold cached. destruct (fill =? jl_emptysvec R); cbn.
  - now rewrite (He eq_refl).
  - destruct (Hn eq_refl) as [-> Hnf]. cbn.
    now rewrite (proj2 (Z.eqb_neq _ _) Hnf).
Qed.

(** C1.  A request that returns the wrapper [w] leaves [w] in the cache
    as the entry of the callable under the table and the specialization
    inputs.  If the cache held an entry before, [w] is that entry; if it
    held none, [w] is the object the collector handed out during the call,
    a wrapper of the result type in the heap, and the call inserted it.
    The same request repeated (same callable, result type, table, template
    and specialization inputs, no finalizer run in between) hits the cache:
    it returns the identical [w] and does nothing but take and release the
    lock.  (For a non-empty template the call-site table and its inner
    tables are assumed to be distinct blocks of memory.) *)
Theorem jl_get_cfunction_trampoline_cached
    (fobj rt cache fill : ptr) (init init' : ptr -> list ptr -> ptr)
    (env env' vals : ptr) (s s1 : state) (w : ptr) :
  ((fill =? jl_emptysvec R) = false -> tables_apart s cache vals) ->
  jl_get_cfunction_trampoline R fobj rt cache fill init env vals s = Ret w s1 ->
  w <> HT_NOTFOUND
  /\ cached R (htables s1) fobj cache fill vals = w
  /\ (cached R (htables s) fobj cache fill vals <> HT_NOTFOUND ->
      w = cached R (htables s) fobj cache fill vals)
  /\ (cached R (htables s) fobj cache fill vals = HT_NOTFOUND ->
      w = heap_addr (gc_next s)
      /\ exists o, gc_heap s1 !! w = Some o /\ o_type o = rt)
  /\ jl_get_cfunction_trampoline R fobj rt cache fill init' env' vals s1 =
       Ret w (log (EvUnlock trampoline_lock) (log (EvLock trampoline_lock) s1)).
Proof.
  intros Hap Hcall.
  destruct (cache_lookup_post cache fill vals s)
    as (c & sl & Hl & Hfr & Hsome & He & Hn & Hapc).
  pose proof (Hl fobj) as Hlf.
  pose proof (cache_lookup_finds fobj cache fill vals s c _ sl
                (fun Hf => proj1 (Hap Hf)) Hlf) as Hfinds.
  destruct (Z.eq_dec (default HT_NOTFOUND (table_of (htables sl) c !! fobj))
              HT_NOTFOUND) as [Ht|Ht].
  - rewrite Ht in Hlf.
    destruct (cache_lookup_frame _ _ _ _ _ _ _ _ Hlf) as (_ & _ & Hnext & _).
    destruct (trampoline_miss_inv _ _ _ _ _ _ _ _ _ _ _ _ Hlf Hcall)
      as (vs & b & tramp & sa & Hinst & Hb & Hlay & Halloc).
    destruct (trampoline_miss_ok _ _ _ _ init _ _ _ _ _ _ _ _ _
                Hlf Hinst Hb Hlay Halloc)
      as (final & Hrun & Hht & Hgc & _).
    rewrite Hrun in Hcall. inversion Hcall; subst w s1. clear Hcall.
    assert (Hn' : (fill =? jl_emptysvec R) = false ->
                  table_of (htables final) cache !! vals = Some c
                  /\ c <> HT_NOTFOUND).
    { intros Hf. destruct (Hn Hf) as [Hv Hnf]. split; [|exact Hnf].
      rewrite Hht. unfold table_of in *.
      rewrite lookup_insert_ne by (apply Hapc; auto). exact Hv. }
    assert (Hstable :
      cache_lookup R fobj cache fill vals final =
        Ret (c, default HT_NOTFOUND (table_of (htables final) c !! fobj))
          (log (EvUnlock trampoline_lock) (log (EvLock trampoline_lock) final))).
    { apply cache_lookup_stable.
      - rewrite Hht. destruct (decide (c = cache)) as [->|Hne].
        + rewrite lookup_insert_eq. eauto.
        + now rewrite lookup_insert_ne.
      - exact He.
      - exact Hn'. }
    assert (Hfound : default HT_NOTFOUND (table_of (htables final) c !! fobj)
                     = heap_addr (gc_next sl)).
    { rewrite Hht. unfold table_of. rewrite lookup_insert_eq. cbn.
      now rewrite lookup_insert_eq. }
    split; [apply heap_addr_not_notfound|].
    split; [rewrite (cached_set_up _ _ _ _ _ c He Hn'); exact Hfound|].
    split; [intros Hne; rewrite <- Hfinds in Hne; contradiction|].
    split.
    { intros _. split; [now rewrite Hnext|].
      eexists. split; [rewrite Hgc; apply lookup_insert_eq|reflexivity]. }
    rewrite Hfound in Hstable.
    rewrite (trampoline_hit _ _ _ _ _ _ _ _ _ _ _ Hstable)
      by apply heap_addr_not_notfound.
    unfold typeof_in. cbn. rewrite Hgc, lookup_insert_eq. cbn.
    now rewrite Z.eqb_refl.
  - rewrite (trampoline_hit _ _ _ _ _ _ _ _ _ _ _ Hlf Ht) in Hcall.
    destruct (typeof_in R sl (default HT_NOTFOUND (table_of (htables sl) c !! fobj))
              =? rt) eqn:Hty; [|discriminate].
    inversion Hcall; subst w s1. clear Hcall.
    split; [exact Ht|].
    split; [exact (cached_set_up _ _ _ _ _ c He Hn)|].
    split; [intros _; exact Hfinds|].
    split; [intros H0; rewrite <- Hfinds in H0; contradiction|].
    rewrite (trampoline_hit _ _ _ _ _ _ _ _ _ _ _
               (cache_lookup_stable fobj cache fill vals sl c Hsome He Hn) Ht).
    change (typeof_in R (log (EvUnlock trampoline_lock)
                           (log (EvLock trampoline_lock) sl)))
      with (typeof_in R sl).
    now rewrite Hty.
Qed.

(** The computed flag agrees with the rule in the words of the
    specification. *)
Lemma is_permanent_spec fobj rt ty :
  is_permanent R fobj rt ty = true <-> spec_permanent R fobj rt ty.
Proof.
  unfold is_permanent, spec_permanent.
  rewrite <- (Z.eqb_eq rt), <- (Z.eqb_eq (datatype_instance R ty)),
    <- (Z.eqb_eq (datatype_name_wrapper R (jl_unwrap_unionall R fobj))).
  destruct (rt =? jl_voidpointer_type R), (jl_is_concrete_type R fobj),
    (datatype_instance R ty =? fobj), (jl_is_unionall R fobj),
    (jl_is_datatype R (jl_unwrap_unionall R fobj)),
    (datatype_name_wrapper R (jl_unwrap_unionall R fobj) =? fobj);
    cbn; intuition congruence.
Qed.

(** C4.  On a cache miss that returns a wrapper, the wrapper is permanent
    exactly when the result type is the raw code-pointer type, or the
    callable is a concrete type, or the callable is the instance of its
    singleton type, or the callable is a unionall whose unwrapped datatype
    has the callable as the wrapper of its type name.  A permanent wrapper
    is zeroed (the fields the code then writes apart: the slot, and the
    identity unless the type is the raw pointer) and no finalizer is
    registered for it; every other wrapper is a managed object with a
    finalizer registered, holding the slot, the identity, the table and
    the buffer. *)
Theorem jl_get_cfunction_trampoline_permanence
    (fobj rt cache fill : ptr) (init : ptr -> list ptr -> ptr)
    (env vals : ptr) (s sl s' : state) (c w : ptr) :
  cache_lookup R fobj cache fill vals s = Ret (c, HT_NOTFOUND) sl ->
  jl_get_cfunction_trampoline R fobj rt cache fill init env vals s = Ret w s' ->
  exists o tramp nval,
    gc_heap s' !! w = Some o
    /\ o_type o = rt
    /\ (o_perm o = true <-> spec_permanent R fobj rt (typeof_in R s fobj))
    /\ (o_perm o = true ->
        finalizers s' = finalizers s
        /\ o_words o =
             <[0%nat := tramp]>
               (if rt =? jl_voidpointer_type R
                then replicate (jl_datatype_words R rt) NULL
                else [NULL; fobj; NULL; NULL]))
    /\ (o_perm o = false ->
        finalizers s' = w :: finalizers s
        /\ o_words o = [tramp; fobj; c; nval]).
Proof.
  intros Hl Hcall.
  destruct (trampoline_miss_inv _ _ _ _ _ _ _ _ _ _ _ _ Hl Hcall)
    as (vs & b & tramp & sa & Hinst & Hb & Hlay & Halloc).
  destruct (trampoline_miss_ok _ _ _ _ init _ _ _ _ _ _ _ _ _
              Hl Hinst Hb Hlay Halloc)
    as (final & Hrun & _ & Hgc & _ & Hfin & _).
  rewrite Hrun in Hcall. inversion Hcall; subst w s'. clear Hcall.
  destruct (cache_lookup_frame _ _ _ _ _ _ _ _ Hl)
    as (_ & Hheap & _ & _ & Hfinl & _).
  assert (Hty : typeof_in R sl fobj = typeof_in R s fobj)
    by (unfold typeof_in; now rewrite Hheap).
  rewrite Hty in *.
  eexists. exists tramp, (malloc_addr (malloc_next sl)).
  split; [rewrite Hgc; apply lookup_insert_eq|]. cbn.
  split; [reflexivity|]. split; [apply is_permanent_spec|].
  split; intros Hp; rewrite Hp in *; rewrite Hfin, Hfinl; cbn;
    (split; [reflexivity|]); unfold built_words; reflexivity.
Qed.

Lemma lookup_map {A B} (f : A -> B) (l : list A) (i : nat) :
  map f l !! i = f <$> (l !! i).
Proof. revert i. induction l as [|x l IH]; intros [|i]; cbn; auto. Qed.

Lemma instantiate_all_lookup env vals ts vs :
  instantiate_all R env vals ts = inr vs ->
  length vs = length ts
  /\ forall i t, ts !! i = Some t ->
       exists v, jl_instantiate_type_in_env R t env vals = inr v
                 /\ vs !! i = Some v.
Proof.
  revert vs. induction ts as [|t0 ts IH]; intros vs H; cbn in H.
  - inversion H. split; [reflexivity|]. intros i t Hi. discriminate.
  - destruct (jl_instantiate_type_in_env R t0 env vals) as [e|v0] eqn:H0;
      [discriminate|].
    destruct (instantiate_all R env vals ts) as [e|vs0]; [discriminate|].
    inversion H; subst vs. destruct (IH vs0 eq_refl) as [Hlen Hn].
    split; [cbn; now rewrite Hlen|].
    intros [|i] t Hi; cbn in Hi.
    + inversion Hi; subst t. eauto.
    + apply (Hn i t Hi).
Qed.

(** The value stored for an instantiated parameter, in the words of the
    specification. *)
Lemma sparam_slot_spec v :
  sparam_slot R v =
    if decide (v = jl_any_type R
               \/ (jl_is_concrete_type R v = true /\ jl_is_immutable R v = true))
    then v else NULL.
Proof.
  unfold sparam_slot.
  destruct (v =? jl_any_type R) eqn:Ha;
    [apply Z.eqb_eq in Ha | apply Z.eqb_neq in Ha]; cbn.
  - rewrite decide_True by auto. reflexivity.
  - destruct (jl_is_concrete_type R v), (jl_is_immutable R v); cbn;
      [rewrite decide_True by auto; reflexivity
      | rewrite decide_False by (intros [?|[? ?]]; congruence); reflexivity ..].
Qed.

(** C5.  On a cache miss with a template of [n] entries that all
    instantiate, with room for the wrapper and a slot to be had, the call
    returns a wrapper; the buffer it hands to the initializer has [n + 1]
    slots; slot 0 holds the callable and slot [i + 1] holds the [i]-th
    instantiated value when that value is the [Any] type or is both
    concrete and immutable, and the null pointer otherwise. *)
Theorem jl_get_cfunction_trampoline_buffer
    (fobj rt cache fill : ptr) (init : ptr -> list ptr -> ptr)
    (env vals : ptr) (s sl sa : state) (c tramp : ptr)
    (vs : list ptr) (b : nat) :
  cache_lookup R fobj cache fill vals s = Ret (c, HT_NOTFOUND) sl ->
  instantiate_all R env vals (jl_svec_data R fill) = inr vs ->
  gc_budget s = S b ->
  layout_ok R rt = true ->
  trampoline_alloc R s = Ret tramp sa ->
  exists w s' nval buf,
    jl_get_cfunction_trampoline R fobj rt cache fill init env vals s = Ret w s'
    /\ c_heap s' !! nval = Some buf
    /\ In (EvInit tramp nval buf) (trace s')
    /\ length buf = S (length (jl_svec_data R fill))
    /\ buf !! 0%nat = Some fobj
    /\ forall i t, jl_svec_data R fill !! i = Some t ->
         exists v, jl_instantiate_type_in_env R t env vals = inr v
           /\ buf !! S i =
                Some (if decide (v = jl_any_type R
                                 \/ (jl_is_concrete_type R v = true
                                     /\ jl_is_immutable R v = true))
                      then v else NULL).
Proof.
  intros Hl Hinst Hb Hlay Halloc.
  destruct (cache_lookup_frame _ _ _ _ _ _ _ _ Hl)
    as (Hpool & _ & _ & Hbud & _).
  rewrite <- Hbud in Hb.
  pose proof (trampoline_alloc_frame _ _ _ _ Hpool Halloc) as Halloc1.
  destruct (trampoline_miss_ok _ _ _ _ init _ _ _ _ _ _ _ _ _
              Hl Hinst Hb Hlay Halloc1)
    as (final & Hrun & _ & _ & Hch & _ & Htr & _).
  destruct (instantiate_all_lookup _ _ _ _ Hinst) as [Hlen Hnth].
  exists (heap_addr (gc_next sl)), final, (malloc_addr (malloc_next sl)),
    (fobj :: map (sparam_slot R) vs).
  split; [exact Hrun|].
  split; [rewrite Hch; apply lookup_insert_eq|].
  split; [rewrite Htr; apply in_or_app; right; cbn; auto|].
  split; [cbn; now rewrite length_map, Hlen|].
  split; [reflexivity|].
  intros i t Hi. destruct (Hnth i t Hi) as (v & Hv & Hvi).
  exists v. split; [exact Hv|].
  change ((fobj :: map (sparam_slot R) vs) !! S i)
    with (map (sparam_slot R) vs !! i).
  now rewrite lookup_map, Hvi, <- sparam_slot_spec.
Qed.

(** C7.  When, on a cache miss, an instantiation raises or the allocation
    of the wrapper raises, the call raises the same exception.  The buffer
    it had taken from malloc, the block handed out right after the first
    critical section, is freed: the release of that block is the one thing
    the call does after the first critical section, the block is gone from
    the malloc heap, and every other block is as it was before the call.
    No collector object, no finalizer, no slot is left behind.  No entry is
    visible in the cache: the tables are those the first critical section
    left, and the lookup of any callable under this table and these
    specialization inputs finds what it found before the call. *)
Theorem jl_get_cfunction_trampoline_build_failure
    (fobj rt cache fill : ptr) (init : ptr -> list ptr -> ptr)
    (env vals : ptr) (s sl : state) (c : ptr) (e : jl_exception) :
  cache_lookup R fobj cache fill vals s = Ret (c, HT_NOTFOUND) sl ->
  (instantiate_all R env vals (jl_svec_data R fill) = inl e
   \/ ((exists vs, instantiate_all R env vals (jl_svec_data R fill) = inr vs)
       /\ gc_budget s = O /\ e = MemoryException)) ->
  let nval := malloc_addr (malloc_next sl) in
  exists s',
    jl_get_cfunction_trampoline R fobj rt cache fill init env vals s = Throw e s'
    /\ malloc_next s' = Pos.succ (malloc_next sl)
    /\ c_heap s' = delete nval (c_heap s)
    /\ trace s' = trace sl ++ [EvRelease nval]
    /\ htables s' = htables sl
    /\ (forall f', exists c' t' sa sb,
          cache_lookup R f' cache fill vals s = Ret (c', t') sa
          /\ cache_lookup R f' cache fill vals s' = Ret (c', t') sb)
    /\ gc_heap s' = gc_heap s
    /\ finalizers s' = finalizers s
    /\ same_pool s s'.
Proof.
  intros Hl Hfail nval.
  destruct (cache_lookup_frame _ _ _ _ _ _ _ _ Hl)
    as (Hpool & Hheap & _ & Hbud & Hfin & Hch & _).
  destruct (cache_lookup_post cache fill vals s)
    as (c0 & s0 & Hl0 & _ & Hsome & He & Hn & _).
  pose proof (Hl0 fobj) as Hlf. rewrite Hl in Hlf.
  inversion Hlf; subst c0 s0. clear Hlf.
  rewrite (trampoline_miss _ _ _ _ _ _ _ _ _ _ Hl).
  fold nval.
  set (s3 := set_c_heap _ (set_malloc_next _ sl)).
  assert (Hblk : c_heap s3 !! nval =
            Some (fobj :: replicate (length (jl_svec_data R fill)) (uninit_word R)))
    by (subst s3; cbn; apply lookup_insert_eq).
  assert (Hthrow : exists blk,
            build_wrapper R fobj rt c fill env vals nval s3 =
              Throw e (set_c_heap (insert nval blk) s3)).
  { destruct Hfail as [Hinst | ([vs Hinst] & Hb0 & ->)].
    - exact (build_wrapper_throw fobj rt c fill env vals nval s3 fobj e Hblk Hinst).
    - rewrite (build_wrapper_ok fobj rt c fill env vals nval s3 fobj vs Hblk Hinst).
      change (gc_budget s3) with (gc_budget sl). rewrite Hbud, Hb0. eauto. }
  destruct Hthrow as [blk ->].
  set (s' := set_c_heap (delete nval)
               (log (EvRelease nval) (set_c_heap (insert nval blk) s3))).
  exists s'. split; [reflexivity|].
  split; [reflexivity|].
  split; [subst s' s3; cbn; now rewrite !delete_insert_eq, Hch|].
  split; [reflexivity|]. split; [reflexivity|].
  split; [|split; [exact Hheap|split; [exact Hfin|exact Hpool]]].
  intros f'. exists c, (default HT_NOTFOUND (table_of (htables sl) c !! f')), sl.
  eexists. split; [apply Hl0|].
  exact (cache_lookup_stable f' cache fill vals s' c Hsome He Hn).
Qed.

Lemma insert_head {A} (x : A) (l : list A) :
  (0 < length l)%nat -> exists tl, <[0%nat := x]> l = x :: tl.
Proof. destruct l as [|y l]; cbn; [lia | eauto]. Qed.

(** C9.  Freeing a slot and allocating the next one is last-in first-out:
    from any state, after [trampoline_free S1] the next [trampoline_alloc]
    returns [S1], maps no page and leaves the free list as it was before the
    two calls.  In particular, once the finalizer has run on a wrapper that
    holds the slot [S1], the next request that misses the cache (any
    callable, empty template) returns a wrapper that holds [S1], and no page
    has been mapped since before the finalizer ran. *)
Theorem trampoline_free_alloc_lifo (S1 : ptr) (s : state) :
  S1 <> NULL ->
  (exists s1 s2,
     trampoline_free S1 s = Ret tt s1
     /\ trampoline_alloc R s1 = Ret S1 s2
     /\ pages s2 = pages s
     /\ mmap_free s2 = mmap_free s
     /\ trampoline_freelist s2 = trampoline_freelist s)
  /\ (forall w o fobjC cacheC nvalC rest,
        gc_heap s !! w = Some o ->
        o_words o = S1 :: fobjC :: cacheC :: nvalC :: rest ->
        exists s1,
          trampoline_deleter w s = Ret tt s1
          /\ forall D rt cache init env vals c sl b,
               cache_lookup R D cache (jl_emptysvec R) vals s1
                 = Ret (c, HT_NOTFOUND) sl ->
               jl_svec_data R (jl_emptysvec R) = [] ->
               gc_budget s = S b ->
               layout_ok R rt = true ->
               exists w2 s2 ws,
                 jl_get_cfunction_trampoline R D rt cache (jl_emptysvec R)
                   init env vals s1 = Ret w2 s2
                 /\ wrapper_words s2 w2 = Some (S1 :: ws)
                 /\ pages s2 = pages s).
Proof.
  intros HS1.
  assert (Hnn : is_null S1 = false) by (now apply Z.eqb_neq).
  split.
  - exists (set_pool S1 (<[S1 := trampoline_freelist s]> (slot_mem s))
              (log (EvSlotFree S1) s)).
    eexists. split; [reflexivity|]. split.
    + exact (trampoline_alloc_pop R
               (set_pool S1 (<[S1 := trampoline_freelist s]> (slot_mem s))
                  (log (EvSlotFree S1) s))
               (trampoline_freelist s) HS1 (lookup_insert_eq _ _ _)).
    + repeat split.
  - intros w o fobjC cacheC nvalC rest Hw Hwords.
    eexists. split; [exact (trampoline_deleter_run _ _ _ _ _ _ _ _ Hw Hwords)|].
    rewrite Hnn.
    set (s1 := log (EvUnlock trampoline_lock) _).
    intros D rt cache init env vals c sl b Hl Hempty Hb Hlay.
    assert (Hs1 : trampoline_freelist s1 = S1
                  /\ slot_mem s1 !! S1 = Some (trampoline_freelist s)
                  /\ pages s1 = pages s /\ mmap_free s1 = mmap_free s
                  /\ gc_budget s1 = gc_budget s).
    { subst s1.
      destruct (negb (is_null fobjC) && negb (is_null cacheC)), (is_null nvalC);
        cbn; repeat split; apply lookup_insert_eq. }
    destruct Hs1 as (Hfl & Hsm & Hpg & Hmf & Hbud).
    assert (Halloc : trampoline_alloc R s1 =
              Ret S1 (set_pool (trampoline_freelist s) (slot_mem s1) s1)).
    { pose proof (trampoline_alloc_pop R s1 (trampoline_freelist s)) as Hpop.
      rewrite Hfl in Hpop. exact (Hpop HS1 Hsm). }
    destruct (cache_lookup_frame _ _ _ _ _ _ _ _ Hl)
      as (Hpool & _ & _ & Hbudl & _).
    pose proof (trampoline_alloc_frame _ _ _ _ Hpool Halloc) as Halloc1.
    assert (Hinst : instantiate_all R env vals (jl_svec_data R (jl_emptysvec R))
                    = inr []) by (now rewrite Hempty).
    rewrite <- Hbud, <- Hbudl in Hb.
    destruct (trampoline_miss_ok _ _ _ _ init _ _ _ _ _ _ _ _ _
                Hl Hinst Hb Hlay Halloc1)
      as (final & Hrun & _ & Hgc & _ & _ & _ & Hpgf & _).
    set (bw := built_words R _ rt D c _) in Hgc.
    assert (Hlen : (0 < length bw)%nat).
    { subst bw. unfold built_words, layout_ok in *.
      destruct (is_permanent R D rt (typeof_in R sl D)); [|cbn; lia].
      destruct (rt =? jl_voidpointer_type R); [|cbn; lia].
      rewrite length_replicate. now apply Nat.leb_le in Hlay. }
    destruct (insert_head S1 bw Hlen) as [tl Htl].
    exists (heap_addr (gc_next sl)), final, tl.
    split; [exact Hrun|].
    split; [unfold wrapper_words; rewrite Hgc, lookup_insert_eq; cbn;
            now rewrite Htl|].
    rewrite Hpgf. cbn. exact Hpg.
Qed.

End Cache.

(** ** The theorems at work in the demo world *)

Lemma jl_get_cfunction_trampoline_cached_witness :
  exists w s1 o,
    jl_get_cfunction_trampoline demo_runtime 70 80 500 30 demo_init 0 600
      demo_state = Ret w s1
    /\ cached demo_runtime (htables demo_state) 70 500 30 600 = HT_NOTFOUND
    /\ cached demo_runtime (htables s1) 70 500 30 600 = w
    /\ gc_heap s1 !! w = Some o
    /\ o_type o = 80
    /\ jl_get_cfunction_trampoline demo_runtime 70 80 500 30 demo_init 0 600 s1
       = Ret w (log (EvUnlock trampoline_lock) (log (EvLock trampoline_lock) s1)).
Proof.
  edestruct (jl_get_cfunction_trampoline_cached demo_runtime 70 80 500 30
               demo_init demo_init 0 0 600 demo_state)
    as (_ & Hin & _ & Hnew & Hagain).
  - intros _. split; vm_compute; discriminate.
  - vm_compute; reflexivity.
  - destruct (Hnew eq_refl) as (_ & o & Ho & Hty).
    do 2 eexists. exists o.
    split; [vm_compute; reflexivity|]. split; [reflexivity|].
    split; [exact Hin|]. split; [exact Ho|]. split; [exact Hty|exact Hagain].
Defined.

Lemma jl_get_cfunction_trampoline_permanence_witness :
  exists w s' o,
    jl_get_cfunction_trampoline demo_runtime 72 80 500 20 demo_init 0 0
      demo_state = Ret w s'
    /\ gc_heap s' !! w = Some o
    /\ (o_perm o = true <->
        spec_permanent demo_runtime 72 80 (typeof_in demo_runtime demo_state 72)).
Proof.
  edestruct (jl_get_cfunction_trampoline_permanence demo_runtime 72 80 500 20
               demo_init 0 0 demo_state)
    as (o & tramp & nval & Ho & _ & Hp & _).
  - vm_compute; reflexivity.
  - vm_compute; reflexivity.
  - do 3 eexists. split; [vm_compute; reflexivity|].
    split; [exact Ho | exact Hp].
Defined.

Lemma jl_get_cfunction_trampoline_buffer_witness :
  exists w s' nval buf,
    jl_get_cfunction_trampoline demo_runtime 70 80 500 30 demo_init 0 600
      demo_state = Ret w s'
    /\ c_heap s' !! nval = Some buf
    /\ length buf = 4%nat
    /\ buf !! 0%nat = Some 70.
Proof.
  edestruct (jl_get_cfunction_trampoline_buffer demo_runtime 70 80 500 30
               demo_init 0 600 demo_state)
    with (vs := [21; 51; 52]) (b := 7%nat)
    as (w & s' & nval & buf & Hrun & Hbuf & _ & Hlen & H0 & _).
  - vm_compute; reflexivity.
  - reflexivity.
  - reflexivity.
  - reflexivity.
  - vm_compute; reflexivity.
  - exists w, s', nval, buf. repeat split; assumption.
Defined.

(** The buffer of the demo template: [Any] is kept, the concrete immutable
    type [51] is kept, the abstract type [52] is replaced by null. *)
Example jl_get_cfunction_trampoline_buffer_demo :
  exists w s',
    jl_get_cfunction_trampoline demo_runtime 70 80 500 30 demo_init 0 600
      demo_state = Ret w s'
    /\ c_heap s' !! malloc_addr 2 = Some [70; 21; 51; NULL]
    /\ wrapper_words s' w = Some [69568; 70; malloc_addr 1; malloc_addr 2].
Proof.
  do 2 eexists. split; [vm_compute; reflexivity|].
  split; vm_compute; reflexivity.
Qed.

Lemma trampoline_deleter_idempotent_witness :
  exists s1,
    trampoline_deleter 16 demo_wrapper_state = Ret tt s1
    /\ wrapper_words s1 16 = Some [NULL; 70; NULL; NULL]
    /\ trampoline_deleter 16 s1 =
         Ret tt (log (EvUnlock trampoline_lock) (log (EvLock trampoline_lock) s1)).
Proof.
  edestruct (trampoline_deleter_idempotent 16 demo_wrapper_state
               {| o_type := 80; o_perm := false;
                  o_words := [69568; 70; 500; malloc_addr 1] |}
               69568 70 500 (malloc_addr 1) [])
    as (s1 & Hrun & _ & _ & _ & _ & Hw & Hagain).
  - vm_compute; reflexivity.
  - reflexivity.
  - exists s1. repeat split; assumption.
Defined.

(** C6, as stated, fails on "clears all fields": after the finalizer the
    identity field of the wrapper still holds the callable [70]. *)
Lemma trampoline_deleter_keeps_identity :
  exists s1,
    wrapper_words demo_wrapper_state 16 = Some [69568; 70; 500; malloc_addr 1]
    /\ trampoline_deleter 16 demo_wrapper_state = Ret tt s1
    /\ wrapper_words s1 16 = Some [NULL; 70; NULL; NULL]
    /\ wrapper_words s1 16 <> Some [NULL; NULL; NULL; NULL].
Proof.
  eexists. split; [vm_compute; reflexivity|].
  split; [vm_compute; reflexivity|].
  split; [vm_compute; reflexivity|].
  vm_compute. discriminate.
Qed.

Lemma jl_get_cfunction_trampoline_build_failure_witness :
  exists s',
    jl_get_cfunction_trampoline demo_runtime 70 80 500 31 demo_init 0 600
      demo_state = Throw (TypeSystemError 7) s'
    /\ malloc_next s' = 3%positive
    /\ c_heap s' = delete (malloc_addr 2) (c_heap demo_state)
    /\ trace s' = [EvLock trampoline_lock; EvUnlock trampoline_lock;
                   EvRelease (malloc_addr 2)]
    /\ gc_heap s' = gc_heap demo_state.
Proof.
  edestruct (jl_get_cfunction_trampoline_build_failure demo_runtime 70 80 500 31
               demo_init 0 600 demo_state)
    with (e := TypeSystemError 7)
    as (s' & Hrun & Hnext & Hfree & Htrace & _ & _ & Hheap & _).
  - vm_compute; reflexivity.
  - left. reflexivity.
  - exists s'. split; [exact Hrun|]. split; [exact Hnext|].
    split; [exact Hfree|]. split; [exact Htrace|exact Hheap].
Defined.

(** What stays of the first critical section after a failed build: the
    table [500] has storage, and an empty inner table is registered under
    the specialization inputs [600].  It holds no entry for a callable. *)
Example jl_get_cfunction_trampoline_failure_keeps_inner_table :
  exists s',
    jl_get_cfunction_trampoline demo_runtime 70 80 500 31 demo_init 0 600
      demo_state = Throw (TypeSystemError 7) s'
    /\ htables demo_state !! 500 = None
    /\ table_of (htables s') 500 !! 600 = Some (malloc_addr 1)
    /\ htables s' !! malloc_addr 1 = Some ∅
    /\ htables s' <> htables demo_state.
Proof.
  eexists. split; [vm_compute; reflexivity|].
  split; [reflexivity|]. split; [vm_compute; reflexivity|].
  split; [vm_compute; reflexivity|].
  intros H. apply (f_equal (fun m => m !! 500)) in H.
  vm_compute in H. discriminate.
Qed.

Lemma trampoline_free_alloc_lifo_witness :
  exists s1 s2,
    trampoline_free 69568 demo_wrapper_state = Ret tt s1
    /\ trampoline_alloc demo_runtime s1 = Ret 69568 s2
    /\ pages s2 = pages demo_wrapper_state.
Proof.
  assert (H : 69568 <> NULL) by discriminate.
  destruct (proj1 (trampoline_free_alloc_lifo demo_runtime 69568
                     demo_wrapper_state H))
    as (s1 & s2 & Hfree & Halloc & Hpages & _).
  exists s1, s2. repeat split; assumption.
Defined.

(** The scenario of the specification: a trampoline for the closure [70]
    gets the slot [69568]; its wrapper is finalized; a trampoline for the
    closure [74] then gets the same slot, and the one page mapped for the
    first request is still the only page. *)
Example trampoline_slot_reused :
  exists w1 s1 s2 w2 s3,
    jl_get_cfunction_trampoline demo_runtime 70 80 500 20 demo_init 0 0
      demo_state = Ret w1 s1
    /\ wrapper_words s1 w1 = Some [69568; 70; 500; malloc_addr 1]
    /\ trampoline_deleter w1 s1 = Ret tt s2
    /\ jl_get_cfunction_trampoline demo_runtime 74 80 500 20 demo_init 0 0 s2
       = Ret w2 s3
    /\ wrapper_words s3 w2 = Some [69568; 74; 500; malloc_addr 2]
    /\ pages s1 = [65536] /\ pages s3 = [65536].
Proof.
  do 5 eexists. split; [vm_compute; reflexivity|].
  split; [vm_compute; reflexivity|]. split; [vm_compute; reflexivity|].
  split; [vm_compute; reflexivity|]. split; [vm_compute; reflexivity|].
  split; vm_compute; reflexivity.
Qed.

(** The three kinds of wrapper in the demo world: the closure [70] gets a
    managed wrapper with the finalizer registered; the singleton [72] gets a
    permanent one, zeroed but for the slot and the identity; the raw
    pointer type [22] gets a permanent one-word wrapper. *)
Example jl_get_cfunction_trampoline_kinds :
  (exists w s',
     jl_get_cfunction_trampoline demo_runtime 70 80 500 20 demo_init 0 0
       demo_state = Ret w s'
     /\ gc_heap s' !! w = Some {| o_type := 80; o_perm := false;
                                  o_words := [69568; 70; 500; malloc_addr 1] |}
     /\ finalizers s' = [w])
  /\ (exists w s',
        jl_get_cfunction_trampoline demo_runtime 72 80 500 20 demo_init 0 0
          demo_state = Ret w s'
        /\ gc_heap s' !! w = Some {| o_type := 80; o_perm := true;
                                     o_words := [69568; 72; NULL; NULL] |}
        /\ finalizers s' = [])
  /\ (exists w s',
        jl_get_cfunction_trampoline demo_runtime 70 22 500 20 demo_init 0 0
          demo_state = Ret w s'
        /\ gc_heap s' !! w = Some {| o_type := 22; o_perm := true;
                                     o_words := [69568] |}
        /\ finalizers s' = []).
Proof.
  repeat split; do 2 eexists;
    (split; [vm_compute; reflexivity|]); split; vm_compute; reflexivity.
Qed.

(** A build that fails in the allocation of the wrapper: with no room left
    in the collector the call raises out-of-memory, the buffer is gone from
    the malloc heap and the table, created by the lookup, has no entry. *)
Example jl_get_cfunction_trampoline_out_of_memory :
  exists s',
    jl_get_cfunction_trampoline demo_runtime 70 80 500 20 demo_init 0 0
      (initial_state [65536] 0) = Throw MemoryException s'
    /\ c_heap s' = ∅
    /\ htables s' !! 500 = Some ∅
    /\ trace s' = [EvLock trampoline_lock; EvUnlock trampoline_lock;
                   EvRelease (malloc_addr 1)].
Proof.
  eexists. split; [vm_compute; reflexivity|].
  split; [vm_compute; reflexivity|]. split; vm_compute; reflexivity.
Qed.

(** * Invariants and composition

    Further properties of the code: the registry and the call-site cell as
    invariants, the feature string, the file-name patterns, page carving
    and the free list as a stack, how the cache and the finalizer compose,
    the lazy lookup, and the discipline of the locks. *)

Section RegistryInvariants.

Variable R : Runtime.

Lemma get_library_sentinel f_lib throw_err s h :
  sentinel_handle R f_lib = Some h ->
  jl_get_library_ R f_lib throw_err s = Ret h s.
Proof.
  unfold sentinel_handle, jl_get_library_. intros Hs.
  repeat case_decide; simplify_eq;
    rewrite ?Z.eqb_refl, ?(proj2 (Z.eqb_neq _ _)) by assumption; reflexivity.
Qed.

(** What a call of [jl_get_library_] leaves alone, whatever its outcome. *)
Lemma get_library_frame f_lib throw_err s s' :
  outcome_state (jl_get_library_ R f_lib throw_err s) = Some s' ->
  cells s' = cells s
  /\ (forall k h, libMap s !! k = Some h -> h <> NULL -> libMap s' !! k = Some h)
  /\ (forall k, k <> cstring R f_lib -> libMap s' !! k = libMap s !! k)
  /\ dlsym_calls (trace s') = dlsym_calls (trace s).
Proof.
  destruct (sentinel_handle R f_lib) as [h|] eqn:Hs.
  - rewrite (get_library_sentinel _ _ _ _ Hs). cbn. intros H; inversion H; subst.
    auto.
  - rewrite get_library_registry by assumption. cbn.
    assert (Hd : forall e s0, dlsym_calls (trace (log e s0)) =
                   (dlsym_calls (trace s0) + if is_dlsym e then 1 else 0)%nat).
    { intros e s0. change (trace (log e s0)) with (trace s0 ++ [e]).
      unfold dlsym_calls. rewrite List.filter_app, length_app. cbn.
      now destruct (is_dlsym e). }
    assert (Hleaf : forall (m : gmap string Z) tr,
              (m = libMap s
               \/ (exists v, m = <[cstring R f_lib := v]> (libMap s)
                             /\ (libMap s !! cstring R f_lib = None
                                 \/ libMap s !! cstring R f_lib = Some NULL))) ->
              dlsym_calls tr = dlsym_calls (trace s) ->
              (forall k h, libMap s !! k = Some h -> h <> NULL -> m !! k = Some h)
              /\ (forall k, k <> cstring R f_lib -> m !! k = libMap s !! k)
              /\ dlsym_calls tr = dlsym_calls (trace s)).
    { intros m tr [->|(v & -> & Hold)] Htr; (split; [|split; [|exact Htr]]); auto.
      - intros k h Hk Hh. destruct (decide (k = cstring R f_lib)) as [->|Hne].
        + destruct Hold; congruence.
        + now rewrite lookup_insert_ne.
      - intros k Hk. now rewrite lookup_insert_ne. }
    destruct (libMap s !! cstring R f_lib) as [h0|] eqn:E.
    + destruct (is_null h0) eqn:Hn.
      * apply Z.eqb_eq in Hn. subst h0.
        destruct (is_null (platform_dlopen R (cstring R f_lib)));
          [destruct throw_err|]; cbn; intros H; inversion H; subst;
          (split; [reflexivity|]);
          (apply Hleaf;
           [first [left; reflexivity
                  | right; eexists; split; [reflexivity | auto]]
           | repeat rewrite ?Hd, ?trace_set_libMap; cbn [is_dlsym]; lia]).
      * cbn. intros H; inversion H; subst.
        split; [reflexivity|].
        apply Hleaf; [now left | repeat rewrite ?Hd, ?trace_set_libMap; cbn [is_dlsym]; lia].
    + destruct (is_null (platform_dlopen R (cstring R f_lib)));
        [destruct throw_err|]; cbn; intros H; inversion H; subst;
        (split; [reflexivity|]);
        (apply Hleaf;
         [right; eexists; split; [cbn; rewrite ?insert_insert_eq; reflexivity | auto]
         | repeat rewrite ?Hd, ?trace_set_libMap; cbn [is_dlsym]; lia]).
Qed.

(** X1.  The registry only grows: whatever a call of [jl_get_library_]
    does (return or raise, any name, any [throw_err]), every non-null handle
    published before the call is still published under the same name after
    it, and the entry of every name other than the one resolved is as it
    was. *)
Theorem jl_get_library_keeps_published (f_lib : ptr) (throw_err : bool)
    (s s' : state) :
  outcome_state (jl_get_library_ R f_lib throw_err s) = Some s' ->
  (forall k h, libMap s !! k = Some h -> h <> NULL -> libMap s' !! k = Some h)
  /\ (forall k, k <> cstring R f_lib -> libMap s' !! k = libMap s !! k).
Proof.
  intros H. destruct (get_library_frame _ _ _ _ H) as (_ & H1 & H2 & _).
  now split.
Qed.

(** X2.  A load that fails: for an ordinary name that has no handle in the
    registry and that the platform loader cannot load, the call invokes the
    loader once and leaves a null entry for the name; it raises
    library-not-found, naming the library, when [throw_err] is set and
    returns the null handle otherwise. *)
Theorem jl_get_library_load_failure (f_lib : ptr) (throw_err : bool) (s : state) :
  sentinel_handle R f_lib = None ->
  (libMap s !! cstring R f_lib = None \/ libMap s !! cstring R f_lib = Some NULL) ->
  platform_dlopen R (cstring R f_lib) = NULL ->
  exists s',
    jl_get_library_ R f_lib throw_err s =
      (if throw_err then Throw (LibraryNotFound (cstring R f_lib)) s'
       else Ret NULL s')
    /\ libMap s' !! cstring R f_lib = Some NULL
    /\ loader_calls (trace s') = S (loader_calls (trace s)).
Proof.
  intros Hs Hold Hload.
  rewrite get_library_registry by assumption. cbn. rewrite Hload. cbn.
  destruct Hold as [E|E]; rewrite E; cbn;
    destruct throw_err; eexists; (split; [reflexivity|]);
    (split; [cbn; rewrite ?lookup_insert_eq; auto|]);
    repeat rewrite ?loader_calls_log, ?trace_set_libMap; cbn [is_load]; lia.
Qed.

(** A handle returned for an ordinary name under [throw_err] is non-null
    and published. *)
Lemma get_library_ret_published f_lib s s' h :
  sentinel_handle R f_lib = None ->
  jl_get_library_ R f_lib true s = Ret h s' ->
  h <> NULL /\ libMap s' !! cstring R f_lib = Some h.
Proof.
  intros Hs. rewrite get_library_registry by assumption. cbn.
  destruct (libMap s !! cstring R f_lib) as [h0|] eqn:E.
  - destruct (is_null h0) eqn:Hn.
    + destruct (is_null (platform_dlopen R (cstring R f_lib))) eqn:Hd;
        [discriminate|].
      intros H; inversion H; subst. split; [now apply Z.eqb_neq|].
      cbn. apply lookup_insert_eq.
    + intros H; inversion H; subst. split; [now apply Z.eqb_neq|]. exact E.
  - destruct (is_null (platform_dlopen R (cstring R f_lib))) eqn:Hd;
      [discriminate|].
    intros H; inversion H; subst. split; [now apply Z.eqb_neq|].
    cbn. apply lookup_insert_eq.
Qed.

(** X3.  With [throw_err] set, resolving an ordinary name never returns
    the null handle: a call that returns gives a non-null handle that is
    then the registry's entry for the name.  The handle is either the entry
    the name already had, and then the loader was not invoked, or what the
    loader gave in its one invocation. *)
Theorem jl_get_library_must_succeed (f_lib : ptr) (s s' : state) (h : ptr) :
  sentinel_handle R f_lib = None ->
  jl_get_library_ R f_lib true s = Ret h s' ->
  h <> NULL
  /\ libMap s' !! cstring R f_lib = Some h
  /\ ((libMap s !! cstring R f_lib = Some h
       /\ loader_calls (trace s') = loader_calls (trace s))
      \/ (h = platform_dlopen R (cstring R f_lib)
          /\ loader_calls (trace s') = S (loader_calls (trace s)))).
Proof.
  intros Hs Hcall.
  destruct (get_library_ret_published _ _ _ _ Hs Hcall) as (Hh & Hpub).
  split; [exact Hh|]. split; [exact Hpub|].
  rewrite get_library_registry in Hcall by assumption. cbv zeta in Hcall.
  destruct (libMap s !! cstring R f_lib) as [h0|] eqn:E;
    [destruct (is_null h0) eqn:Hn|];
    try (destruct (is_null (platform_dlopen R (cstring R f_lib))) eqn:Hd;
         [discriminate|]);
    inversion Hcall; subst.
  - right. split; [reflexivity|].
    repeat rewrite ?loader_calls_log, ?trace_set_libMap. cbn [is_load]. lia.
  - left. split; [reflexivity|].
    repeat rewrite ?loader_calls_log, ?trace_set_libMap. cbn [is_load]. lia.
  - right. split; [reflexivity|].
    repeat rewrite ?loader_calls_log, ?trace_set_libMap. cbn [is_load]. lia.
Qed.

(** What [jl_dlsym] leaves alone. *)
Lemma jl_dlsym_frame h f_name t s s' :
  outcome_state (jl_dlsym R h f_name t s) = Some s' ->
  cells s' = cells s /\ libMap s' = libMap s
  /\ loader_calls (trace s') = loader_calls (trace s).
Proof.
  assert (E : exists o, jl_dlsym R h f_name t s
                = match o with
                  | inl p => Ret p (log (EvDlsym h (cstring R f_name)) s)
                  | inr e => Throw e (log (EvDlsym h (cstring R f_name)) s)
                  end).
  { unfold jl_dlsym, bind, emit, ret, jl_throw.
    destruct (platform_dlsym R h (cstring R f_name)) as [p|];
      [exists (inl p)|destruct t;
                       [exists (inr (SymbolNotFound (cstring R f_name)))
                       |exists (inl NULL)]]; reflexivity. }
  destruct E as (o & ->).
  intros H. assert (s' = log (EvDlsym h (cstring R f_name)) s)
    by (destruct o; cbn in H; congruence).
  subst s'. split; [reflexivity|]. split; [reflexivity|].
  rewrite loader_calls_log. cbn [is_load]. lia.
Qed.

(** X4.  A library that cannot be resolved is not cached in the cell: when
    the cell is null and resolving the library raises, [jl_load_and_lookup]
    raises the same exception, the cell is still null and the symbol
    primitive has not been invoked. *)
Theorem jl_load_and_lookup_library_failure (f_lib f_name hnd : ptr)
    (s s1 : state) (e : jl_exception) :
  cell_value s hnd = NULL ->
  jl_get_library R f_lib s = Throw e s1 ->
  jl_load_and_lookup R f_lib f_name hnd s = Throw e s1
  /\ cell_value s1 hnd = NULL
  /\ dlsym_calls (trace s1) = dlsym_calls (trace s).
Proof.
  intros Hc Hl.
  assert (Hfr : outcome_state (jl_get_library_ R f_lib true s) = Some s1)
    by (unfold jl_get_library in Hl; now rewrite Hl).
  destruct (get_library_frame _ _ _ _ Hfr) as (Hcells & _ & _ & Hd).
  split; [|split; [unfold cell_value in *; now rewrite Hcells | exact Hd]].
  unfold jl_load_and_lookup, bind, jl_atomic_load_acquire, gets.
  fold (cell_value s hnd). rewrite Hc. cbn. now rewrite Hl.
Qed.

(** X5.  The cell is written once: whatever a call of [jl_load_and_lookup]
    does, a cell that was non-null keeps its value, and every other cell is
    as it was. *)
Theorem jl_load_and_lookup_cell_stable (f_lib f_name hnd : ptr) (s s' : state) :
  outcome_state (jl_load_and_lookup R f_lib f_name hnd s) = Some s' ->
  (cell_value s hnd <> NULL -> cell_value s' hnd = cell_value s hnd)
  /\ (forall hnd', hnd' <> hnd -> cell_value s' hnd' = cell_value s hnd').
Proof.
  intros H.
  destruct (Z.eq_dec (cell_value s hnd) NULL) as [Hc|Hc].
  - split; [congruence|]. intros hnd' Hne.
    destruct (jl_get_library R f_lib s) as [h s1|e s1|] eqn:Hl;
      [rewrite (load_and_lookup_slow R _ _ _ _ _ _ Hc Hl) in H
      |unfold jl_load_and_lookup, bind, jl_atomic_load_acquire, gets in H;
       fold (cell_value s hnd) in H; rewrite Hc in H; cbn in H;
       rewrite Hl in H; cbn in H ..];
      [|inversion H; subst|discriminate].
    + assert (Hfr : outcome_state (jl_get_library_ R f_lib true s) = Some s1)
        by (unfold jl_get_library in Hl; now rewrite Hl).
      destruct (get_library_frame _ _ _ _ Hfr) as (Hcells & _).
      destruct (jl_dlsym_frame _ _ _ _ _ H) as (Hcells' & _).
      unfold cell_value. rewrite Hcells'. cbn.
      rewrite lookup_insert_ne by congruence. now rewrite Hcells.
    + assert (Hfr : outcome_state (jl_get_library_ R f_lib true s) = Some s')
        by (unfold jl_get_library in Hl; now rewrite Hl).
      destruct (get_library_frame _ _ _ _ Hfr) as (Hcells & _).
      unfold cell_value. now rewrite Hcells.
  - rewrite (load_and_lookup_fast R _ _ _ _ Hc) in H.
    destruct (jl_dlsym_frame _ _ _ _ _ H) as (Hcells & _).
    unfold cell_value in *. rewrite Hcells. auto.
Qed.

(** X6.  The caching that the cell gives: when a call returns the address
    [p] and leaves a non-null handle in the cell, the next call with the
    same cell and symbol returns [p] again, looks the symbol up once more,
    and neither invokes the loader nor changes the registry. *)
Theorem jl_load_and_lookup_twice (f_lib f_lib' f_name hnd : ptr)
    (s s1 : state) (p : ptr) :
  jl_load_and_lookup R f_lib f_name hnd s = Ret p s1 ->
  cell_value s1 hnd <> NULL ->
  exists s2,
    jl_load_and_lookup R f_lib' f_name hnd s1 = Ret p s2
    /\ libMap s2 = libMap s1
    /\ loader_calls (trace s2) = loader_calls (trace s1)
    /\ dlsym_calls (trace s2) = S (dlsym_calls (trace s1)).
Proof.
  intros H1 Hc1.
  assert (Hsym : platform_dlsym R (cell_value s1 hnd) (cstring R f_name) = Some p).
  { destruct (Z.eq_dec (cell_value s hnd) NULL) as [Hc|Hc].
    - destruct (jl_get_library R f_lib s) as [h s0|e s0|] eqn:Hl;
        [rewrite (load_and_lookup_slow R _ _ _ _ _ _ Hc Hl) in H1
        |unfold jl_load_and_lookup, bind, jl_atomic_load_acquire, gets in H1;
         fold (cell_value s hnd) in H1; rewrite Hc in H1; cbn in H1;
         rewrite Hl in H1; discriminate ..].
      rewrite jl_dlsym_outcome in H1.
      destruct (platform_dlsym R h (cstring R f_name)) as [q|] eqn:Hq;
        [|discriminate].
      inversion H1; subst. rewrite cell_value_log, cell_value_store. exact Hq.
    - rewrite (load_and_lookup_fast R _ _ _ _ Hc), jl_dlsym_outcome in H1.
      destruct (platform_dlsym R (cell_value s hnd) (cstring R f_name))
        as [q|] eqn:Hq; [|discriminate].
      inversion H1; subst. rewrite cell_value_log. exact Hq. }
  rewrite (load_and_lookup_fast R _ _ _ _ Hc1), jl_dlsym_outcome, Hsym.
  eexists. split; [reflexivity|]. split; [reflexivity|].
  split; [rewrite loader_calls_log; cbn; lia|].
  change (trace (log ?e s1)) with (trace s1 ++ [e]).
  unfold dlsym_calls. rewrite List.filter_app, length_app. cbn. lia.
Qed.

End RegistryInvariants.

Lemma jl_get_library_keeps_published_witness :
  exists s',
    outcome_state (jl_get_library_ demo_runtime 300 false
                     (set_libMap (insert "libm" 5000) demo_state)) = Some s'
    /\ libMap s' !! "libm" = Some 5000
    /\ libMap s' !! "exe" = None.
Proof.
  eexists. split; [vm_compute; reflexivity|].
  edestruct (jl_get_library_keeps_published demo_runtime 300 false
               (set_libMap (insert "libm" 5000) demo_state)) as (H1 & H2);
    [vm_compute; reflexivity|].
  split.
  - apply (H1 "libm" 5000); [reflexivity|discriminate].
  - rewrite (H2 "exe"); [reflexivity|discriminate].
Defined.

Lemma jl_get_library_load_failure_witness :
  exists s',
    jl_get_library_ demo_runtime 300 true demo_state
      = Throw (LibraryNotFound "libmissing") s'
    /\ libMap s' !! "libmissing" = Some NULL
    /\ loader_calls (trace s') = 1%nat.
Proof.
  destruct (jl_get_library_load_failure demo_runtime 300 true demo_state)
    as (s' & H1 & H2 & H3).
  - reflexivity.
  - left. reflexivity.
  - reflexivity.
  - exists s'. split; [exact H1|]. split; [exact H2|exact H3].
Defined.

Lemma jl_get_library_must_succeed_witness :
  exists s',
    jl_get_library_ demo_runtime 100 true demo_state = Ret 5000 s'
    /\ 5000 <> NULL /\ libMap s' !! "libm" = Some 5000.
Proof.
  eexists. split; [vm_compute; reflexivity|].
  edestruct (jl_get_library_must_succeed demo_runtime 100 demo_state)
    as (H1 & H2 & _); [reflexivity | vm_compute; reflexivity |].
  split; [exact H1 | exact H2].
Defined.

Lemma jl_load_and_lookup_library_failure_witness :
  exists s1,
    jl_load_and_lookup demo_runtime 300 200 900 demo_state
      = Throw (LibraryNotFound "libmissing") s1
    /\ cell_value s1 900 = NULL
    /\ dlsym_calls (trace s1) = 0%nat.
Proof.
  eexists.
  eapply (jl_load_and_lookup_library_failure demo_runtime 300 200 900
            demo_state);
    [reflexivity|vm_compute; reflexivity].
Defined.

Lemma jl_load_and_lookup_cell_stable_witness :
  exists s',
    outcome_state (jl_load_and_lookup demo_runtime 300 201 900 demo_cell_state)
      = Some s'
    /\ cell_value s' 900 = 5000
    /\ cell_value s' 901 = NULL.
Proof.
  eexists. split; [vm_compute; reflexivity|].
  edestruct (jl_load_and_lookup_cell_stable demo_runtime 300 201 900
               demo_cell_state) as (H1 & H2); [vm_compute; reflexivity|].
  split.
  - rewrite H1; [reflexivity|discriminate].
  - rewrite (H2 901); [reflexivity|discriminate].
Defined.

Lemma jl_load_and_lookup_twice_witness :
  exists s1 s2,
    jl_load_and_lookup demo_runtime 100 200 900 demo_state = Ret 7000 s1
    /\ jl_load_and_lookup demo_runtime 300 200 900 s1 = Ret 7000 s2
    /\ libMap s2 = libMap s1
    /\ loader_calls (trace s2) = loader_calls (trace s1)
    /\ dlsym_calls (trace s2) = S (dlsym_calls (trace s1)).
Proof.
  eexists. 
  edestruct (jl_load_and_lookup_twice demo_runtime 100 300 200 900 demo_state)
    as (s2 & H);
    [vm_compute; reflexivity|vm_compute; discriminate|].
  exists s2. split; [vm_compute; reflexivity|exact H].
Defined.

(** ** CPU features and file names *)

Lemma append_assoc (a b c : string) : (a +:+ b) +:+ c = a +:+ (b +:+ c).
Proof.
  induction a as [|x a IH]; [reflexivity|].
  change (String x ((a +:+ b) +:+ c) = String x (a +:+ (b +:+ c))).
  now rewrite IH.
Qed.

Lemma append_nil_r (a : string) : a +:+ "" = a.
Proof.
  induction a as [|x a IH]; [reflexivity|].
  change (String x (a +:+ "") = String x a). now rewrite IH.
Qed.

Lemma concat_snoc (sep : string) (pre : list string) (x : string) :
  pre <> [] ->
  String.concat sep (pre ++ [x]) = String.concat sep pre +:+ (sep +:+ x).
Proof.
  induction pre as [|y pre IH]; [congruence|]. intros _.
  destruct pre as [|z pre]; [reflexivity|].
  change (String.concat sep ((y :: z :: pre) ++ [x]))
    with (y +:+ (sep +:+ String.concat sep ((z :: pre) ++ [x]))).
  rewrite IH by discriminate.
  change (String.concat sep (y :: z :: pre))
    with (y +:+ (sep +:+ String.concat sep (z :: pre))).
  now rewrite !append_assoc.
Qed.

Lemma concat_nonempty (sep : string) (pre : list string) :
  pre <> [] -> Forall (fun x => string_empty x = false) pre ->
  string_empty (String.concat sep pre) = false.
Proof.
  destruct pre as [|y pre]; [congruence|]. intros _ H.
  inversion H as [|? ? Hy _]; subst.
  destruct pre; [exact Hy|]. cbn. destruct y; [discriminate|reflexivity].
Qed.

(** One of the two loops of [jl_get_cpu_features_llvm], started on the
    flags collected so far. *)
Lemma fold_flags (step : string -> string * bool -> string)
    (sel : string * bool -> bool) (sg : ascii) :
  (forall attr ele,
     step attr ele =
       if sel ele
       then (if negb (string_empty attr) then attr +:+ String "," (String sg "")
             else attr +:+ String sg "") +:+ ele.1
       else attr) ->
  forall HostFeatures pre,
    Forall (fun x => string_empty x = false) pre ->
    fold_left step HostFeatures (String.concat "," pre) =
    String.concat ","
      (pre ++ List.map (fun ele => String sg "" +:+ ele.1)
                (List.filter sel HostFeatures)).
Proof.
  intros Hstep HostFeatures.
  induction HostFeatures as [|ele rest IH]; intros pre Hpre; cbn [fold_left List.filter].
  - cbn. now rewrite app_nil_r.
  - rewrite Hstep. destruct (sel ele); [|now apply IH].
    cbn [List.map].
    replace (pre ++ (String sg "" +:+ ele.1) :: List.map _ (List.filter sel rest))
      with ((pre ++ [String sg "" +:+ ele.1])
              ++ List.map (fun ele => String sg "" +:+ ele.1) (List.filter sel rest))
      by now rewrite <- app_assoc.
    rewrite <- IH by (apply Forall_app; split; [exact Hpre|now constructor]).
    f_equal. destruct pre as [|y pre].
    + reflexivity.
    + rewrite concat_nonempty by (auto; discriminate). cbn [negb].
      rewrite concat_snoc by discriminate.
      rewrite append_assoc. reflexivity.
Qed.

(** X7.  The feature string in closed form: [jl_get_cpu_features_llvm]
    gives the flags of [feature_flags] joined by commas, so every disabled
    feature comes after every enabled one, there is no leading or trailing
    comma, and a host without features gives the empty string. *)
Theorem jl_get_cpu_features_llvm_closed_form (HostFeatures : list (string * bool)) :
  jl_get_cpu_features_llvm HostFeatures
  = String.concat "," (feature_flags HostFeatures).
Proof.
  unfold jl_get_cpu_features_llvm, feature_flags.
  change "" with (String.concat "," []) at 1.
  rewrite (fold_flags append_enabled (fun ele => ele.2) "+")
    by (reflexivity || constructor).
  rewrite (fold_flags append_disabled (fun ele => negb ele.2) "-").
  - now rewrite app_nil_l.
  - reflexivity.
  - cbn [app].
    induction (List.filter (fun ele : string * bool => ele.2) HostFeatures);
      cbn [List.map]; constructor; [reflexivity|assumption].
Qed.

Section FileNames.

Variable O : HostOS.

Lemma fmt_loop_app (p1 p2 : string) (st : fmt_state) :
  fmt_loop O (p1 +:+ p2) st = fmt_loop O p2 (fmt_loop O p1 st).
Proof.
  revert st. induction p1 as [|c p1 IH]; intros st; [reflexivity|].
  change (fmt_loop O (p1 +:+ p2) (fmt_step O st c)
          = fmt_loop O p2 (fmt_loop O p1 (fmt_step O st c))).
  apply IH.
Qed.

Lemma fmt_loop_escape (s : string) (st : fmt_state) :
  special st = false ->
  fmt_loop O (escape_percent s) st
  = {| outfile := outfile st +:+ s; special := false;
       got_pwd := got_pwd st; pwd_calls := pwd_calls st |}.
Proof.
  revert st. induction s as [|c s IH]; intros [out sp pw n] Hsp;
    cbn in Hsp; subst sp.
  - cbn. now rewrite append_nil_r.
  - cbn [escape_percent]. destruct (Ascii.eqb_spec c "%") as [->|Hc].
    + cbn [fmt_loop]. rewrite IH by reflexivity.
      destruct pw; cbn; rewrite append_assoc; reflexivity.
    + cbn [fmt_loop]. rewrite IH.
      * unfold fmt_step. cbn. rewrite (proj2 (Ascii.eqb_neq _ _) Hc). cbn.
        now rewrite append_assoc.
      * unfold fmt_step. cbn. now rewrite (proj2 (Ascii.eqb_neq _ _) Hc).
Qed.

(** X8.  Escaping round trip: a pattern in which every percent sign of a
    text is doubled formats to that text, on every host, and the password
    database is neither queried nor freed. *)
Theorem jl_format_filename_escape (s : string) :
  jl_format_filename O (escape_percent s) = s
  /\ pwd_calls (fmt_loop O (escape_percent s) fmt_init) = 0%nat
  /\ fmt_frees_passwd O (escape_percent s) = false.
Proof.
  unfold jl_format_filename, fmt_frees_passwd.
  rewrite fmt_loop_escape by reflexivity. cbn. auto.
Qed.

Lemma fmt_query_calls (c : ascii) (st : fmt_state) :
  (pwd_calls (fmt_query O c st) <=
   pwd_calls st + if is_pwd_token c then 1 else 0)%nat.
Proof.
  unfold fmt_query. destruct (got_pwd st), (is_pwd_token c); cbn; lia.
Qed.

(** What the loop keeps true of the password entry: it is the answer of
    the last query, every earlier query failed, and while there is no entry
    every query so far failed. *)
Lemma fmt_loop_history (p : string) (st : fmt_state) :
  match got_pwd st with
  | Some e => exists n, pwd_calls st = S n /\ uv_os_get_passwd O n = Some e
                        /\ forall i, (i < n)%nat -> uv_os_get_passwd O i = None
  | None => forall i, (i < pwd_calls st)%nat -> uv_os_get_passwd O i = None
  end ->
  let st' := fmt_loop O p st in
  (pwd_calls st' <= pwd_calls st + pwd_tokens p (special st))%nat
  /\ match got_pwd st' with
     | Some e => exists n, pwd_calls st' = S n /\ uv_os_get_passwd O n = Some e
                           /\ forall i, (i < n)%nat -> uv_os_get_passwd O i = None
     | None => forall i, (i < pwd_calls st')%nat -> uv_os_get_passwd O i = None
     end.
Proof.
  revert st. induction p as [|c p IH]; intros st Hst; cbn zeta.
  - cbn. split; [lia|exact Hst].
  - cbn [fmt_loop pwd_tokens].
    assert (Hstep :
      (pwd_calls (fmt_step O st c) <=
       pwd_calls st + (if special st then if is_pwd_token c then 1 else 0 else 0))%nat
      /\ special (fmt_step O st c)
         = (if special st then false else Ascii.eqb c "%")
      /\ match got_pwd (fmt_step O st c) with
         | Some e => exists n, pwd_calls (fmt_step O st c) = S n
                               /\ uv_os_get_passwd O n = Some e
                               /\ forall i, (i < n)%nat -> uv_os_get_passwd O i = None
         | None => forall i, (i < pwd_calls (fmt_step O st c))%nat
                             -> uv_os_get_passwd O i = None
         end).
    { unfold fmt_step. destruct (special st).
      - cbn. split; [apply fmt_query_calls|]. split; [reflexivity|].
        unfold fmt_query. destruct (got_pwd st) as [e|] eqn:E.
        + rewrite E. exact Hst.
        + destruct (is_pwd_token c); [|rewrite E; exact Hst]. cbn.
          destruct (uv_os_get_passwd O (pwd_calls st)) as [e|] eqn:Eq.
          * exists (pwd_calls st). auto.
          * intros i Hi. destruct (Nat.eq_dec i (pwd_calls st)) as [->|];
              [exact Eq|apply Hst; lia].
      - destruct (Ascii.eqb c "%"); cbn; (split; [lia|]); (split; [reflexivity|]);
          exact Hst. }
    destruct Hstep as (Hn & Hsp & Hinv).
    destruct (IH _ Hinv) as (Hn' & Hinv'). cbn zeta in Hn', Hinv'.
    split; [|exact Hinv'].
    rewrite Hsp in Hn'. destruct (special st); [destruct (is_pwd_token c)|]; lia.
Qed.

(** X9.  Queries of the password database: [jl_format_filename] calls
    [uv_os_get_passwd] at most once for each [%i], [%d] and [%u] of the
    pattern, queries again only when every earlier query failed, and frees
    the entry exactly when its last query succeeded. *)
Theorem jl_format_filename_passwd_queries (p : string) :
  let st := fmt_loop O p fmt_init in
  (pwd_calls st <= pwd_tokens p false)%nat
  /\ (forall i, (S i < pwd_calls st)%nat -> uv_os_get_passwd O i = None)
  /\ (fmt_frees_passwd O p = true
      <-> exists n, pwd_calls st = S n /\ is_Some (uv_os_get_passwd O n)).
Proof.
  destruct (fmt_loop_history p fmt_init) as (Hn & Hinv);
    [cbn; intros i Hi; lia|].
  cbn zeta in *. split; [exact Hn|]. unfold fmt_frees_passwd.
  destruct (got_pwd (fmt_loop O p fmt_init)) as [e|].
  - destruct Hinv as (n & Hc & He & Hlt). split; [|split].
    + intros i Hi. apply Hlt. lia.
    + intros _. exists n. rewrite He. eauto.
    + intros _. apply bool_decide_eq_true. eauto.
  - split; [|split].
    + intros i Hi. apply Hinv. lia.
    + intros H. apply bool_decide_eq_true in H. destruct H; discriminate.
    + intros (n & Hc & Hs). rewrite Hinv in Hs by lia. destruct Hs; discriminate.
Qed.

(** X10.  A percent sign at the very end of a pattern, with no character
    after it, is dropped: it adds nothing to the file name. *)
Theorem jl_format_filename_trailing_percent (p : string) :
  special (fmt_loop O p fmt_init) = false ->
  jl_format_filename O (p +:+ "%") = jl_format_filename O p.
Proof.
  intros H. unfold jl_format_filename. rewrite fmt_loop_app. cbn.
  unfold fmt_step. now rewrite H.
Qed.

Lemma fmt_token_pw (c : ascii) (pw pw' : option uv_passwd_t) :
  is_pwd_token c = false -> fmt_token O c pw = fmt_token O c pw'.
Proof.
  unfold is_pwd_token, fmt_token. intros H.
  apply orb_false_elim in H as (H & ->).
  apply orb_false_elim in H as (-> & ->).
  reflexivity.
Qed.

Section SteadyPasswd.

Variable r : option uv_passwd_t.
Hypothesis Hconst : forall n, uv_os_get_passwd O n = r.

(** With a password database that always gives the same answer, what a
    character appends does not depend on the queries made so far. *)
Lemma fmt_step_steady (st st' : fmt_state) (c : ascii) :
  special st = special st' ->
  (got_pwd st = None \/ got_pwd st = r) ->
  (got_pwd st' = None \/ got_pwd st' = r) ->
  exists t,
    outfile (fmt_step O st c) = outfile st +:+ t
    /\ outfile (fmt_step O st' c) = outfile st' +:+ t
    /\ special (fmt_step O st c) = special (fmt_step O st' c)
    /\ (got_pwd (fmt_step O st c) = None \/ got_pwd (fmt_step O st c) = r)
    /\ (got_pwd (fmt_step O st' c) = None \/ got_pwd (fmt_step O st' c) = r).
Proof.
  intros Hsp H1 H2. unfold fmt_step. rewrite <- Hsp.
  destruct (special st).
  - assert (Hq : forall x, (got_pwd x = None \/ got_pwd x = r) ->
               (got_pwd (fmt_query O c x) = None \/ got_pwd (fmt_query O c x) = r)
               /\ outfile (fmt_query O c x) = outfile x
               /\ (is_pwd_token c = true -> got_pwd (fmt_query O c x) = r)).
    { intros x Hx. unfold fmt_query.
      destruct (got_pwd x) as [e|] eqn:E.
      - rewrite E. split; [exact Hx|]. split; [reflexivity|].
        intros _. destruct Hx; congruence.
      - destruct (is_pwd_token c); cbn; rewrite ?Hconst, ?E; auto.
        split; [auto|]. split; [reflexivity|discriminate]. }
    destruct (Hq st H1) as (I1 & O1 & T1), (Hq st' H2) as (I2 & O2 & T2).
    exists (fmt_token O c (got_pwd (fmt_query O c st))). cbn.
    rewrite O1, O2. split; [reflexivity|]. split; [|auto].
    f_equal. destruct (is_pwd_token c) eqn:Ec.
    + now rewrite T1, T2.
    + now apply fmt_token_pw.
  - destruct (Ascii.eqb c "%"); cbn.
    + exists "". rewrite !append_nil_r. auto.
    + exists (String c ""). auto.
Qed.

Lemma fmt_loop_steady (p : string) (st st' : fmt_state) :
  special st = special st' ->
  (got_pwd st = None \/ got_pwd st = r) ->
  (got_pwd st' = None \/ got_pwd st' = r) ->
  exists t,
    outfile (fmt_loop O p st) = outfile st +:+ t
    /\ outfile (fmt_loop O p st') = outfile st' +:+ t
    /\ (got_pwd (fmt_loop O p st) = None \/ got_pwd (fmt_loop O p st) = r).
Proof.
  revert st st'. induction p as [|c p IH]; intros st st' Hsp H1 H2.
  - exists "". cbn. rewrite !append_nil_r. auto.
  - destruct (fmt_step_steady st st' c Hsp H1 H2) as (t & E1 & E2 & Hsp' & I1 & I2).
    destruct (IH _ _ Hsp' I1 I2) as (t' & E1' & E2' & I').
    exists (t +:+ t'). cbn [fmt_loop].
    rewrite E1', E2', E1, E2, !append_assoc. auto.
Qed.

(** X11.  Patterns compose: when the password database always gives the
    same answer and the first pattern does not end in the middle of a
    token, the file name of two patterns put together is the file name of
    the first followed by the file name of the second. *)
Theorem jl_format_filename_append (p1 p2 : string) :
  special (fmt_loop O p1 fmt_init) = false ->
  jl_format_filename O (p1 +:+ p2)
  = jl_format_filename O p1 +:+ jl_format_filename O p2.
Proof.
  intros Hsp. unfold jl_format_filename. rewrite fmt_loop_app.
  destruct (fmt_loop_steady p1 fmt_init fmt_init) as (_ & _ & _ & I1);
    [reflexivity|now left|now left|].
  destruct (fmt_loop_steady p2 (fmt_loop O p1 fmt_init) fmt_init)
    as (t & E1 & E2 & _); [exact Hsp|exact I1|now left|].
  rewrite E1, E2. reflexivity.
Qed.

End SteadyPasswd.

End FileNames.

Lemma jl_format_filename_trailing_percent_witness :
  special (fmt_loop demo_os "out-%p" fmt_init) = false
  /\ jl_format_filename demo_os "out-%p%" = "out-4242".
Proof.
  split; [reflexivity|].
  change "out-%p%" with ("out-%p" +:+ "%").
  rewrite (jl_format_filename_trailing_percent demo_os "out-%p");
    [vm_compute; reflexivity|reflexivity].
Defined.

Lemma jl_format_filename_append_witness :
  jl_format_filename demo_os "%u@%L:%d/%%-%p.log"
  = jl_format_filename demo_os "%u@%L:" +:+ jl_format_filename demo_os "%d/%%-%p.log".
Proof.
  apply (jl_format_filename_append demo_os (uv_os_get_passwd demo_os 0%nat)
           (fun _ => eq_refl) "%u@%L:" "%d/%%-%p.log").
  reflexivity.
Defined.

(** The tokens on the host of the examples. *)
Example jl_format_filename_tokens :
  jl_format_filename demo_os "%u@%l:%d/%i-%p-100%%.%x"
  = "ana@box.lan:/home/ana/1000-4242-100%.x".
Proof. vm_compute. reflexivity. Qed.

(** ** The slot pool *)

Section SlotPool.

Variable R : Runtime.

(** The page-threading loop after [n] turns. *)
Lemma carve_fold (mem prev : ptr) (sm : gmap Z Z) (n : nat) :
  let r := fold_left (carve_slot mem) (seq 0 n) (prev, sm) in
  r.1 = match n with O => prev | S k => slot_addr mem k end
  /\ (forall i, (i < n)%nat ->
        r.2 !! slot_addr mem i
        = Some (match i with O => prev | S k => slot_addr mem k end))
  /\ (forall x, (forall i, (i < n)%nat -> x <> slot_addr mem i) ->
        r.2 !! x = sm !! x).
Proof.
  induction n as [|n IH]; cbn zeta.
  - cbn. split; [reflexivity|]. split; [intros i Hi; lia|reflexivity].
  - rewrite seq_S, fold_left_app. cbn [fold_left Nat.add].
    destruct IH as (IH1 & IH2 & IH3).
    set (r := fold_left (carve_slot mem) (seq 0 n) (prev, sm)) in *.
    change (carve_slot mem r n)
      with (slot_addr mem n, <[slot_addr mem n := r.1]> r.2).
    cbn [fst snd].
    split; [reflexivity|]. split.
    + intros i Hi. destruct (Nat.eq_dec i n) as [->|Hne].
      * rewrite lookup_insert_eq. rewrite IH1. reflexivity.
      * rewrite lookup_insert_ne by (unfold slot_addr, sz; lia).
        apply IH2. lia.
    + intros x Hx. rewrite lookup_insert_ne by (intros E; apply (Hx n); [lia|now symmetry]).
      apply IH3. intros i Hi. apply Hx. lia.
Qed.

Lemma links_chain (mem prev : ptr) (sm : gmap Z Z) (n : nat) :
  0 < mem ->
  (forall i, (i < n)%nat ->
     sm !! slot_addr mem i = Some (match i with O => prev | S k => slot_addr mem k end)) ->
  free_chain sm (match n with O => prev | S k => slot_addr mem k end)
    (rev (map (slot_addr mem) (seq 0 n))) prev.
Proof.
  intros Hmem. induction n as [|n IH]; intros Hl.
  - reflexivity.
  - rewrite seq_S, map_app, rev_app_distr. cbn [map rev app Nat.add].
    split; [reflexivity|]. split; [unfold slot_addr, sz, NULL; lia|].
    eexists. split; [apply Hl; lia|]. apply IH. intros i Hi. apply Hl. lia.
Qed.

Lemma free_chain_insert (sm : gmap Z Z) (x v head tail : ptr) (l : list ptr) :
  x ∉ l -> free_chain sm head l tail -> free_chain (<[x := v]> sm) head l tail.
Proof.
  revert head. induction l as [|y l IH]; intros head Hx; cbn; [auto|].
  intros (-> & Hy & next & Hn & Hc).
  apply not_elem_of_cons in Hx as (Hxy & Hxl).
  split; [reflexivity|]. split; [exact Hy|].
  exists next. split; [now rewrite lookup_insert_ne|auto].
Qed.

(** Allocations along the free list: they return its slots in order and
    touch nothing but the head of the list. *)
Lemma alloc_many_chain (l : list ptr) (s : state) (tail : ptr) :
  free_chain (slot_mem s) (trampoline_freelist s) l tail ->
  trampoline_alloc_many R (length l) s = Ret l (set_pool tail (slot_mem s) s).
Proof.
  revert s. induction l as [|x l IH]; intros s; cbn [free_chain length trampoline_alloc_many].
  - intros Hfl. unfold ret. f_equal. state_eq. exact Hfl.
  - intros (Hfl & Hx & next & Hn & Hc).
    rewrite <- Hfl in Hn, Hx.
    rewrite (bind_Ret _ _ _ _ _ (trampoline_alloc_pop R s next Hx Hn)).
    rewrite (bind_Ret _ _ _ l (set_pool tail (slot_mem s) s)).
    + rewrite Hfl. reflexivity.
    + rewrite (IH (set_pool next (slot_mem s) s)) by exact Hc.
      f_equal. 
Qed.

Lemma trampoline_alloc_nonnull (s : state) :
  trampoline_freelist s <> NULL ->
  trampoline_alloc R s =
    match slot_mem s !! trampoline_freelist s with
    | Some next => Ret (trampoline_freelist s) (set_pool next (slot_mem s) s)
    | None => Fault
    end.
Proof.
  intros Hfl. unfold trampoline_alloc, bind, gets, is_null, ret, load_slot, modify.
  rewrite (proj2 (Z.eqb_neq _ _) Hfl). cbn.
  now destruct (slot_mem s !! trampoline_freelist s).
Qed.

(** The first allocation from an empty free list maps a page, threads it
    and goes on as an allocation from the threaded list. *)
Lemma trampoline_alloc_maps (s : state) (mem : ptr) (rest : list ptr) :
  trampoline_freelist s = NULL ->
  mmap_free s = mem :: rest ->
  sz < jl_page_size R ->
  0 < mem ->
  trampoline_alloc R s =
  trampoline_alloc R
    (set_pool (carve_page R mem (slot_mem s)).1 (carve_page R mem (slot_mem s)).2
       (set_os rest (mem :: pages s) s)).
Proof.
  intros Hfl Hfree Hsz Hmem.
  assert (Hn : exists k, Z.to_nat (jl_page_size R / sz) = S k).
  { destruct (Z.to_nat (jl_page_size R / sz)) as [|k] eqn:E; [|eauto].
    assert (1 <= jl_page_size R / sz)
      by (apply Z.div_le_lower_bound; unfold sz in *; lia).
    lia. }
  destruct Hn as (k & Hk).
  assert (Hhead : (carve_page R mem (slot_mem s)).1 = slot_addr mem k).
  { unfold carve_page. rewrite Hk.
    exact (proj1 (carve_fold mem NULL (slot_mem s) (S k))). }
  assert (Hnn : slot_addr mem k <> NULL) by (unfold slot_addr, sz, NULL; lia).
  set (s0 := set_pool _ _ _).
  assert (Hl : trampoline_alloc R s =
               match slot_mem s0 !! trampoline_freelist s0 with
               | Some next => Ret (trampoline_freelist s0) (set_pool next (slot_mem s0) s0)
               | None => Fault
               end).
  { unfold trampoline_alloc, bind, gets, mmap_page, jl_assert, ret, modify, load_slot.
    rewrite Hfl. change (is_null NULL) with true. cbv beta iota.
    rewrite Hfree. cbv beta iota. rewrite (proj2 (Z.ltb_lt _ _) Hsz). cbv beta iota.
    change (set_pool (carve_page R mem (slot_mem (set_os rest (mem :: pages s) s))).1
              (carve_page R mem (slot_mem (set_os rest (mem :: pages s) s))).2
              (set_os rest (mem :: pages s) s)) with s0.
    destruct (slot_mem s0 !! trampoline_freelist s0); reflexivity. }
  rewrite Hl. symmetry. apply trampoline_alloc_nonnull.
  subst s0. cbn. now rewrite Hhead.
Qed.

(** X12.  One page, [jl_page_size / 64] slots: from an empty free list
    with a page to be had, that many allocations in a row map exactly one
    page and return its slots from the highest address down, each once;
    they leave the free list empty again and touch no memory outside the
    page. *)
Theorem trampoline_alloc_fresh_page (s : state) (mem : ptr) (rest : list ptr) :
  trampoline_freelist s = NULL ->
  mmap_free s = mem :: rest ->
  sz < jl_page_size R ->
  0 < mem ->
  let n := Z.to_nat (jl_page_size R / sz) in
  exists s',
    trampoline_alloc_many R n s = Ret (rev (map (slot_addr mem) (seq 0 n))) s'
    /\ trampoline_freelist s' = NULL
    /\ pages s' = mem :: pages s
    /\ mmap_free s' = rest
    /\ (forall x, (forall i, (i < n)%nat -> x <> slot_addr mem i) ->
          slot_mem s' !! x = slot_mem s !! x).
Proof.
  intros Hfl Hfree Hsz Hmem n.
  pose proof (carve_fold mem NULL (slot_mem s) n) as Hcf. cbv zeta in Hcf.
  change (fold_left (carve_slot mem) (seq 0 n) (NULL, slot_mem s))
    with (carve_page R mem (slot_mem s)) in Hcf.
  destruct Hcf as (H1 & H2 & H3).
  set (s0 := set_pool (carve_page R mem (slot_mem s)).1
               (carve_page R mem (slot_mem s)).2
               (set_os rest (mem :: pages s) s)).
  assert (Hchain : free_chain (slot_mem s0) (trampoline_freelist s0)
                     (rev (map (slot_addr mem) (seq 0 n))) NULL).
  { subst s0. cbn [slot_mem trampoline_freelist set_pool]. rewrite H1.
    now apply links_chain. }
  pose proof (alloc_many_chain _ _ _ Hchain) as Hrun.
  rewrite length_rev, length_map, length_seq in Hrun.
  exists (set_pool NULL (slot_mem s0) s0).
  split; [|subst s0; cbn; auto].
  rewrite <- Hrun.
  destruct n as [|k] eqn:En.
  { exfalso. assert (1 <= jl_page_size R / sz)
      by (apply Z.div_le_lower_bound; unfold sz in *; lia). lia. }
  cbn [trampoline_alloc_many]. unfold bind at 1 3.
  now rewrite (trampoline_alloc_maps s mem rest Hfl Hfree Hsz Hmem).
Qed.

(** With an empty free list and no page to be had the allocation raises
    and leaves the state as it found it. *)
Lemma trampoline_alloc_no_page (s : state) :
  trampoline_freelist s = NULL ->
  mmap_free s = [] ->
  trampoline_alloc R s = Throw MemoryException s.
Proof.
  intros Hfl Hfree. unfold trampoline_alloc, bind, gets, mmap_page.
  rewrite Hfl. change (is_null NULL) with true. cbv beta iota.
  rewrite Hfree. reflexivity.
Qed.

Lemma free_all_chain (l acc : list ptr) (s : state) (tail : ptr) :
  Forall (fun x => x <> NULL) l ->
  NoDup (l ++ acc) ->
  free_chain (slot_mem s) (trampoline_freelist s) acc tail ->
  exists s1,
    trampoline_free_all l s = Ret tt s1
    /\ free_chain (slot_mem s1) (trampoline_freelist s1) (rev l ++ acc) tail
    /\ pages s1 = pages s /\ mmap_free s1 = mmap_free s.
Proof.
  revert acc s. induction l as [|x l IH]; intros acc s Hnn Hnd Hc.
  - exists s. auto.
  - apply Forall_cons in Hnn as (Hx & Hnn).
    cbn [app] in Hnd. apply NoDup_cons in Hnd as (Hxl & Hnd).
    apply not_elem_of_app in Hxl as (Hxl & Hxa).
    set (s' := set_pool x (<[x := trampoline_freelist s]> (slot_mem s))
                 (log (EvSlotFree x) s)).
    destruct (IH (x :: acc) s') as (s1 & Hrun & Hch & Hp & Hm).
    + exact Hnn.
    + apply NoDup_app. apply NoDup_app in Hnd as (Hl & Hla & Ha).
      split; [exact Hl|]. split.
      * intros y Hy. apply not_elem_of_cons. split; [|now apply Hla].
        intros ->. contradiction.
      * apply NoDup_cons. auto.
    + subst s'. cbn [slot_mem trampoline_freelist set_pool free_chain].
      split; [reflexivity|]. split; [exact Hx|].
      exists (trampoline_freelist s). split; [apply lookup_insert_eq|].
      now apply free_chain_insert.
    + exists s1. split; [|split; [|auto]].
      * cbn [trampoline_free_all]. unfold bind at 1.
        change (trampoline_free x s) with (Ret tt s'). exact Hrun.
      * cbn [rev]. now rewrite <- app_assoc.
Qed.

(** X13.  The free list is a stack: slots of mapped pages (each the
    [i]-th slot of a page the allocator has mapped; distinct, non-null, none
    reaching into another) that are freed one after the other come back
    from the next allocations in the reverse order, no page is mapped for
    them, and the free list is then what it was before. *)
Theorem trampoline_free_all_alloc_many (l : list ptr) (s : state) :
  NoDup l ->
  Forall (fun x => x <> NULL) l ->
  Forall (fun x => exists mem i,
                     mem ∈ pages s
                     /\ (i < Z.to_nat (jl_page_size R / sz))%nat
                     /\ x = slot_addr mem i) l ->
  (forall x y, x ∈ l -> y ∈ l -> x <> y -> sz <= Z.abs (x - y)) ->
  exists s1 s2,
    trampoline_free_all l s = Ret tt s1
    /\ trampoline_alloc_many R (length l) s1 = Ret (rev l) s2
    /\ trampoline_freelist s2 = trampoline_freelist s
    /\ pages s2 = pages s
    /\ mmap_free s2 = mmap_free s.
Proof.
  intros Hnd Hnn _ _.
  destruct (free_all_chain l [] s (trampoline_freelist s)) as (s1 & Hrun & Hch & Hp & Hm).
  - exact Hnn.
  - now rewrite app_nil_r.
  - reflexivity.
  - rewrite app_nil_r in Hch.
    pose proof (alloc_many_chain _ _ _ Hch) as Ha. rewrite length_rev in Ha.
    exists s1. eexists. split; [exact Hrun|]. split; [exact Ha|].
    cbn. auto.
Qed.

End SlotPool.

Lemma trampoline_alloc_fresh_page_witness :
  exists s',
    trampoline_alloc_many demo_runtime 64 demo_state
      = Ret (rev (map (slot_addr 65536) (seq 0 64))) s'
    /\ trampoline_freelist s' = NULL
    /\ pages s' = [65536]
    /\ mmap_free s' = [131072].
Proof.
  destruct (trampoline_alloc_fresh_page demo_runtime demo_state 65536 [131072])
    as (s' & H1 & H2 & H3 & H4 & _);
    [reflexivity|reflexivity|reflexivity|reflexivity|].
  exists s'. auto.
Defined.

Lemma trampoline_free_all_alloc_many_witness :
  exists s1 s2,
    trampoline_free_all [69504; 69568; 69440] demo_pool_state = Ret tt s1
    /\ trampoline_alloc_many demo_runtime 3 s1 = Ret [69440; 69568; 69504] s2
    /\ trampoline_freelist s2 = 69376
    /\ pages s2 = [65536]
    /\ mmap_free s2 = [131072].
Proof.
  apply (trampoline_free_all_alloc_many demo_runtime [69504; 69568; 69440]
           demo_pool_state).
  - apply (bool_decide_unpack (NoDup [69504; 69568; 69440])). vm_compute. exact I.
  - repeat (apply List.Forall_cons; [discriminate|]). apply List.Forall_nil.
  - assert (Hpages : pages demo_pool_state = [65536]) by reflexivity.
    apply List.Forall_cons;
      [exists 65536, 62%nat; rewrite Hpages;
       split; [apply elem_of_cons; now left | split; [apply Nat.ltb_lt; vm_compute; reflexivity | reflexivity]]|].
    apply List.Forall_cons;
      [exists 65536, 63%nat; rewrite Hpages;
       split; [apply elem_of_cons; now left | split; [apply Nat.ltb_lt; vm_compute; reflexivity | reflexivity]]|].
    apply List.Forall_cons;
      [exists 65536, 61%nat; rewrite Hpages;
       split; [apply elem_of_cons; now left | split; [apply Nat.ltb_lt; vm_compute; reflexivity | reflexivity]]|].
    apply List.Forall_nil.
  - intros x y Hx Hy Hne.
    rewrite !elem_of_cons, elem_of_nil in Hx, Hy.
    destruct Hx as [->|[->|[->|[]]]], Hy as [->|[->|[->|[]]]];
      try congruence; unfold sz; lia.
Defined.

(** ** The cache over the life of a wrapper *)

Section CacheLife.

Variable R : Runtime.

(** X14.  A miss when no page can be mapped: with the free list empty and
    the operating system out of pages, a request that misses the cache and
    builds its wrapper raises the memory exception from inside the second
    critical section.  The lock taken there is not released, the buffer is
    not freed, the tables are as the lookup left them, and the wrapper is
    left in the heap without a slot; a managed wrapper is already registered
    for finalization. *)
Theorem jl_get_cfunction_trampoline_no_page
    (fobj rt cache fill : ptr) (init : ptr -> list ptr -> ptr)
    (env vals : ptr) (s s1 : state) (c : ptr) (vs : list ptr) (b : nat) :
  cache_lookup R fobj cache fill vals s = Ret (c, HT_NOTFOUND) s1 ->
  instantiate_all R env vals (jl_svec_data R fill) = inr vs ->
  gc_budget s1 = S b ->
  layout_ok R rt = true ->
  trampoline_freelist s = NULL ->
  mmap_free s = [] ->
  let w := heap_addr (gc_next s1) in
  let nval := malloc_addr (malloc_next s1) in
  let perm := is_permanent R fobj rt (typeof_in R s1 fobj) in
  exists final,
    jl_get_cfunction_trampoline R fobj rt cache fill init env vals s
      = Throw MemoryException final
    /\ trace final = trace s1 ++ [EvLock trampoline_lock]
    /\ c_heap final = <[nval := fobj :: map (sparam_slot R) vs]> (c_heap s1)
    /\ htables final = htables s1
    /\ wrapper_words final w = Some (built_words R perm rt fobj c nval)
    /\ finalizers final = (if perm then id else cons w) (finalizers s1).
Proof.
  intros Hl Hinst Hb Hlay Hfl Hfree w nval perm.
  destruct (cache_lookup_frame R _ _ _ _ _ _ _ _ Hl)
    as ((Hfl1 & _ & Hfree1 & _) & _).
  rewrite (trampoline_miss _ _ _ _ _ _ _ _ _ _ _ Hl).
  fold nval.
  set (s3 := set_c_heap _ (set_malloc_next _ s1)).
  assert (Hblk : c_heap s3 !! nval =
            Some (fobj :: replicate (length (jl_svec_data R fill)) (uninit_word R)))
    by (subst s3; cbn; apply lookup_insert_eq).
  rewrite (build_wrapper_ok R fobj rt c fill env vals nval s3 fobj vs Hblk Hinst).
  change (gc_budget s3) with (gc_budget s1). rewrite Hb.
  change (typeof_in R s3 fobj) with (typeof_in R s1 fobj). fold perm.
  change (gc_next s3) with (gc_next s1). fold w.
  assert (Hfault : negb (rt =? jl_voidpointer_type R)
                   && negb (Nat.eqb (jl_datatype_words R rt) 4) = false).
  { unfold layout_ok in Hlay. destruct (rt =? jl_voidpointer_type R); [reflexivity|].
    now rewrite Hlay. }
  rewrite Hfault.
  set (s4 := set_finalizers _ _).
  rewrite (bind_Ret _ _ _ tt (log (EvLock trampoline_lock) s4)) by reflexivity.
  rewrite (bind_Throw _ _ _ MemoryException (log (EvLock trampoline_lock) s4))
    by (apply trampoline_alloc_no_page; subst s4 s3; cbn; congruence).
  eexists. split; [reflexivity|].
  subst s4 s3. cbn. unfold wrapper_words. cbn.
  rewrite lookup_insert_eq, insert_insert_eq. auto 10.
Qed.

(** X15.  A request leaves the entries of the other callables alone:
    after a call that returns, hit or miss, what the cache holds for any
    other callable under the same table and specialization inputs is what
    it held before.  (For a non-empty template the call-site table and its
    inner tables are assumed to be distinct blocks of memory.) *)
Theorem jl_get_cfunction_trampoline_other_callables
    (fobj rt cache fill : ptr) (init : ptr -> list ptr -> ptr)
    (env vals : ptr) (s s' : state) (w fobj' : ptr) :
  ((fill =? jl_emptysvec R) = false -> tables_apart s cache vals) ->
  jl_get_cfunction_trampoline R fobj rt cache fill init env vals s = Ret w s' ->
  fobj' <> fobj ->
  cached R (htables s') fobj' cache fill vals
  = cached R (htables s) fobj' cache fill vals.
Proof.
  intros Hap Hcall Hne.
  destruct (cache_lookup_post R cache fill vals s)
    as (c & sl & Hl & Hfr & Hsome & He & Hn & Hapc).
  rewrite <- (cache_lookup_finds R fobj' cache fill vals s c _ sl
                (fun Hf => proj1 (Hap Hf)) (Hl fobj')).
  pose proof (Hl fobj) as Hlf.
  destruct (Z.eq_dec (default HT_NOTFOUND (table_of (htables sl) c !! fobj))
              HT_NOTFOUND) as [Ht|Ht].
  - rewrite Ht in Hlf.
    destruct (trampoline_miss_inv R _ _ _ _ _ _ _ _ _ _ _ _ Hlf Hcall)
      as (vs & b & tramp & sa & Hinst & Hb & Hlay & Halloc).
    destruct (trampoline_miss_ok R _ _ _ _ init _ _ _ _ _ _ _ _ _
                Hlf Hinst Hb Hlay Halloc)
      as (final & Hrun & Hht & _).
    rewrite Hrun in Hcall. inversion Hcall; subst w s'. clear Hcall.
    rewrite (cached_set_up R _ _ _ _ _ c).
    + rewrite Hht. unfold table_of at 1. rewrite lookup_insert_eq. cbn.
      now rewrite lookup_insert_ne by congruence.
    + exact He.
    + intros Hf. destruct (Hn Hf) as [Hv Hnf]. split; [|exact Hnf].
      rewrite Hht. unfold table_of in *.
      rewrite lookup_insert_ne by (apply Hapc; auto). exact Hv.
  - rewrite (trampoline_hit R _ _ _ _ _ _ _ _ _ _ _ Hlf Ht) in Hcall.
    destruct (typeof_in R sl (default HT_NOTFOUND (table_of (htables sl) c !! fobj))
              =? rt); [|discriminate].
    inversion Hcall; subst w s'. clear Hcall.
    now apply cached_set_up.
Qed.

(** X16.  The finalizer touches only what its wrapper names: every table
    entry other than that of the wrapper's callable in the wrapper's table,
    every malloc'd block other than the wrapper's buffer, every slot other
    than the wrapper's and every other object of the heap is as it was, and
    so are the library registry, the cells, the pages and the list of
    registered finalizers. *)
Theorem trampoline_deleter_frame (f : ptr) (s : state) (o : gc_obj)
    (tramp fobj cache nval : ptr) (rest : list ptr) :
  gc_heap s !! f = Some o ->
  o_words o = tramp :: fobj :: cache :: nval :: rest ->
  exists s1,
    trampoline_deleter f s = Ret tt s1
    /\ (forall t k, t <> cache \/ k <> fobj ->
          table_of (htables s1) t !! k = table_of (htables s) t !! k)
    /\ (forall blk, blk <> nval -> c_heap s1 !! blk = c_heap s !! blk)
    /\ (forall x, x <> tramp -> slot_mem s1 !! x = slot_mem s !! x)
    /\ (forall g, g <> f -> gc_heap s1 !! g = gc_heap s !! g)
    /\ libMap s1 = libMap s /\ cells s1 = cells s
    /\ pages s1 = pages s /\ mmap_free s1 = mmap_free s
    /\ finalizers s1 = finalizers s.
Proof.
  intros Hf Hw.
  eexists. split; [exact (trampoline_deleter_run _ _ _ _ _ _ _ _ Hf Hw)|].
  cbv zeta.
  destruct (is_null tramp), (negb (is_null fobj) && negb (is_null cache)),
    (is_null nval); cbn;
    repeat match goal with |- _ /\ _ => split end; try reflexivity;
    try (intros; reflexivity);
    try (intros blk Hb; now rewrite lookup_delete_ne by congruence);
    try (intros x Hx; now rewrite lookup_insert_ne by congruence);
    try (intros t k Htk; unfold table_of;
         destruct (htables s !! cache) as [m|] eqn:Hc; [|reflexivity];
         destruct (decide (t = cache)) as [->|Ht];
         [rewrite lookup_insert_eq, Hc; cbn;
          destruct Htk as [Htk|Htk]; [congruence|];
          now rewrite lookup_delete_ne by congruence
         |now rewrite lookup_insert_ne by congruence]).
Qed.

(** X17.  After the finalizer the request misses again: when a request
    missed the cache and built a managed wrapper, and the finalizer then
    runs on that wrapper, the entry is gone, so the same request misses
    once more (the lookup finds the tables set up and changes nothing), and
    the buffer of the first request has been released. *)
Theorem trampoline_deleter_then_miss
    (fobj rt cache fill : ptr) (init : ptr -> list ptr -> ptr)
    (env vals : ptr) (s s1 s' : state) (c w : ptr) :
  cache_lookup R fobj cache fill vals s = Ret (c, HT_NOTFOUND) s1 ->
  jl_get_cfunction_trampoline R fobj rt cache fill init env vals s = Ret w s' ->
  is_permanent R fobj rt (typeof_in R s1 fobj) = false ->
  fobj <> NULL -> c <> NULL ->
  ((fill =? jl_emptysvec R) = false -> tables_apart s cache vals) ->
  exists s2,
    trampoline_deleter w s' = Ret tt s2
    /\ cache_lookup R fobj cache fill vals s2
       = Ret (c, HT_NOTFOUND)
           (log (EvUnlock trampoline_lock) (log (EvLock trampoline_lock) s2))
    /\ c_heap s2 !! malloc_addr (malloc_next s1) = None.
Proof.
  intros Hl Hcall Hperm Hfobj Hc Hap.
  destruct (cache_lookup_post R cache fill vals s)
    as (c0 & sl & Hl0 & Hfr & Hsome & He & Hn & Hapc).
  pose proof (Hl0 fobj) as Hx. rewrite Hl in Hx.
  injection Hx as Hc0 Ht Hs. subst c0 sl.
  pose proof Hl as Hlf.
  destruct (trampoline_miss_inv R _ _ _ _ _ _ _ _ _ _ _ _ Hlf Hcall)
    as (vs & b & tramp & sa & Hinst & Hb & Hlay & Halloc).
  destruct (trampoline_miss_ok R _ _ _ _ init _ _ _ _ _ _ _ _ _
              Hlf Hinst Hb Hlay Halloc)
    as (final & Hrun & Hht & Hgc & Hch & _).
  rewrite Hrun in Hcall. inversion Hcall; subst w s'. clear Hcall.
  rewrite Hperm in Hgc. cbn in Hgc.
  eexists. split.
  { eapply trampoline_deleter_run; [rewrite Hgc; apply lookup_insert_eq|].
    cbn. reflexivity. }
  cbv zeta.
  rewrite (proj2 (Z.eqb_neq _ _) Hfobj : is_null fobj = false).
  rewrite (proj2 (Z.eqb_neq _ _) Hc : is_null c = false).
  assert (Hnv : is_null (malloc_addr (malloc_next s1)) = false) by reflexivity.
  rewrite Hnv. cbn [negb andb].
  set (s2 := log (EvUnlock trampoline_lock) _).
  assert (Hht2 : htables s2 = <[c := delete fobj (<[fobj := heap_addr (gc_next s1)]>
                                        (table_of (htables s1) c))]> (htables final)).
  { subst s2. destruct (is_null tramp); cbn; rewrite Hht, lookup_insert_eq;
      reflexivity. }
  split.
  - replace HT_NOTFOUND with
      (default HT_NOTFOUND (table_of (htables s2) c !! fobj)) at 1.
    + apply cache_lookup_stable.
      * rewrite Hht2, Hht. destruct (decide (c = cache)) as [->|Hne].
        -- rewrite lookup_insert_eq. eauto.
        -- now rewrite !lookup_insert_ne by congruence.
      * exact He.
      * intros Hf. destruct (Hn Hf) as [Hv Hnf]. split; [|exact Hnf].
        rewrite Hht2, Hht. unfold table_of in *.
        rewrite !lookup_insert_ne by (apply Hapc; auto). exact Hv.
    + rewrite Hht2. unfold table_of. rewrite lookup_insert_eq. cbn.
      now rewrite lookup_delete_eq.
  - subst s2. destruct (is_null tramp); cbn; apply lookup_delete_eq.
Qed.

End CacheLife.

Lemma jl_get_cfunction_trampoline_no_page_witness :
  exists final,
    jl_get_cfunction_trampoline demo_runtime 70 80 500 20 demo_init 0 0
      (initial_state [] 8) = Throw MemoryException final
    /\ trace final = [EvLock trampoline_lock; EvUnlock trampoline_lock;
                      EvLock trampoline_lock]
    /\ c_heap final !! malloc_addr 1 = Some [70]
    /\ finalizers final = [heap_addr 1].
Proof.
  edestruct (jl_get_cfunction_trampoline_no_page demo_runtime 70 80 500 20
               demo_init 0 0 (initial_state [] 8))
    as (final & H1 & H2 & H3 & H4 & H5 & H6);
    [vm_compute; reflexivity | vm_compute; reflexivity | vm_compute; reflexivity
    | reflexivity | reflexivity | reflexivity |].
  exists final. split; [exact H1|]. split; [exact H2|].
  split; [rewrite H3; reflexivity | exact H6].
Defined.

Lemma jl_get_cfunction_trampoline_other_callables_witness :
  exists w s',
    jl_get_cfunction_trampoline demo_runtime 70 80 500 20 demo_init 0 0
      demo_state = Ret w s'
    /\ cached demo_runtime (htables s') 72 500 20 0 = HT_NOTFOUND.
Proof.
  do 2 eexists. split; [vm_compute; reflexivity|].
  erewrite (jl_get_cfunction_trampoline_other_callables demo_runtime 70 80 500 20
              demo_init 0 0 demo_state);
    [reflexivity | discriminate | vm_compute; reflexivity | discriminate].
Defined.

Lemma trampoline_deleter_frame_witness :
  exists s1,
    trampoline_deleter (heap_addr 1) demo_wrapper_state = Ret tt s1
    /\ slot_mem s1 !! 69504 = Some 69440
    /\ finalizers s1 = [heap_addr 1]
    /\ pages s1 = [65536].
Proof.
  edestruct (trampoline_deleter_frame (heap_addr 1) demo_wrapper_state)
    as (s1 & H1 & _ & _ & H4 & _ & _ & _ & H8 & _ & H10);
    [vm_compute; reflexivity | vm_compute; reflexivity |].
  exists s1. split; [exact H1|].
  split; [rewrite H4; [vm_compute; reflexivity | discriminate]|].
  split; [rewrite H10; vm_compute; reflexivity|].
  rewrite H8. vm_compute. reflexivity.
Defined.

Lemma trampoline_deleter_then_miss_witness :
  exists w s' s2,
    jl_get_cfunction_trampoline demo_runtime 70 80 500 20 demo_init 0 0
      demo_state = Ret w s'
    /\ trampoline_deleter w s' = Ret tt s2
    /\ cache_lookup demo_runtime 70 500 20 0 s2
       = Ret (500, HT_NOTFOUND)
           (log (EvUnlock trampoline_lock) (log (EvLock trampoline_lock) s2)).
Proof.
  do 2 eexists.
  edestruct (trampoline_deleter_then_miss demo_runtime 70 80 500 20 demo_init
               0 0 demo_state) as (s2 & H1 & H2 & _);
    [vm_compute; reflexivity | vm_compute; reflexivity | vm_compute; reflexivity
    | discriminate | discriminate | discriminate |].
  exists s2. split; [vm_compute; reflexivity|]. split; [exact H1 | exact H2].
Defined.

(** ** The lazy lookup *)

Section LazyLookup.

Variable R : Runtime.
Variable L : LazyRuntime.

(** For a symbol or a string the lazy lookup resolves the name it holds
    through the registry. *)
Lemma lazy_by_name (lib_val f_name : ptr) (s : state) :
  jl_is_symbol L lib_val = true \/ jl_is_string L lib_val = true ->
  exists name,
    forall s,
      jl_lazy_load_and_lookup R L lib_val f_name s
      = (h <- jl_get_library R name ;; jl_dlsym R h f_name true) s.
Proof.
  unfold jl_lazy_load_and_lookup.
  destruct (jl_is_symbol L lib_val); [eexists; reflexivity|].
  intros [H|H]; [discriminate|]. rewrite H. eexists; reflexivity.
Qed.

(** X18.  The lazy lookup has no cell of its own but shares the registry:
    when a call with a symbol or a string returns an address, the same call
    made again returns the same address, does not invoke the loader and
    leaves the registry as it is. *)
Theorem jl_lazy_load_and_lookup_twice (lib_val f_name : ptr)
    (s s1 : state) (p : ptr) :
  jl_is_symbol L lib_val = true \/ jl_is_string L lib_val = true ->
  jl_lazy_load_and_lookup R L lib_val f_name s = Ret p s1 ->
  exists s2,
    jl_lazy_load_and_lookup R L lib_val f_name s1 = Ret p s2
    /\ loader_calls (trace s2) = loader_calls (trace s1)
    /\ libMap s2 = libMap s1.
Proof.
  intros Hv Hcall.
  destruct (lazy_by_name lib_val f_name s Hv) as (name & Hname).
  rewrite Hname in *.
  apply bind_Ret_inv in Hcall as (h & s0 & Hlib & Hsym).
  rewrite jl_dlsym_outcome in Hsym.
  destruct (platform_dlsym R h (cstring R f_name)) as [q|] eqn:Hq;
    [|discriminate].
  inversion Hsym; subst q s1. clear Hsym.
  set (s1 := log (EvDlsym h (cstring R f_name)) s0).
  assert (Hagain : exists s', jl_get_library R name s1 = Ret h s'
                     /\ loader_calls (trace s') = loader_calls (trace s1)
                     /\ libMap s' = libMap s1).
  { unfold jl_get_library in *.
    destruct (sentinel_handle R name) as [h'|] eqn:Hs.
    - rewrite (get_library_sentinel R _ _ _ _ Hs) in Hlib.
      inversion Hlib; subst h' s0.
      exists s1. now rewrite (get_library_sentinel R _ _ _ _ Hs).
    - destruct (get_library_ret_published R _ _ _ _ Hs Hlib) as (Hh & Hpub).
      eexists. split; [apply (get_library_published R _ _ _ _ Hs); eauto|].
      split; [|reflexivity].
      rewrite !loader_calls_log. cbn [is_load]. lia. }
  destruct Hagain as (s' & Hlib' & Hloads & Hmap).
  rewrite (bind_Ret _ _ _ _ _ Hlib'), jl_dlsym_outcome, Hq.
  eexists. split; [reflexivity|]. split; [|exact Hmap].
  rewrite loader_calls_log. cbn [is_load]. lia.
Qed.

End LazyLookup.

Lemma jl_lazy_load_and_lookup_twice_witness :
  exists s1 s2,
    jl_lazy_load_and_lookup demo_runtime demo_lazy 600 200 demo_state = Ret 7000 s1
    /\ jl_lazy_load_and_lookup demo_runtime demo_lazy 600 200 s1 = Ret 7000 s2
    /\ loader_calls (trace s2) = loader_calls (trace s1)
    /\ libMap s2 = libMap s1.
Proof.
  eexists.
  edestruct (jl_lazy_load_and_lookup_twice demo_runtime demo_lazy 600 200
               demo_state) as (s2 & H);
    [left; reflexivity | vm_compute; reflexivity |].
  exists s2. split; [vm_compute; reflexivity | exact H].
Defined.

(** With [Libdl] loaded, a value that [dlopen] accepts is looked up in the
    handle it gives, and the registry is not touched. *)
Example jl_lazy_load_and_lookup_libdl :
  jl_lazy_load_and_lookup demo_runtime demo_lazy_libdl 602 200 demo_state
  = Ret 7000 (log (EvDlsym 5000 "cos") demo_state).
Proof. vm_compute. reflexivity. Qed.

(** ** The registry lock *)

Section Discipline.

Variable R : Runtime.

(** X20.  The registry lock: a call of [jl_get_library_] for an ordinary
    name takes the lock first; when it returns it has released the lock
    last, with at most one invocation of the loader in between; when it
    raises, which it does only under [throw_err] and only with
    library-not-found for this name, the lock is still held: nothing
    follows the failed invocation of the loader.  The call never stops on a
    fault. *)
Theorem jl_get_library_lock_discipline (f_lib : ptr) (throw_err : bool)
    (s : state) :
  sentinel_handle R f_lib = None ->
  match jl_get_library_ R f_lib throw_err s with
  | Ret h s' =>
      exists loads,
        (loads = [] \/ loads = [EvLoadLibrary (cstring R f_lib)])
        /\ trace s' = trace s ++ [EvLock libmap_lock] ++ loads
                        ++ [EvUnlock libmap_lock]
  | Throw e s' =>
      throw_err = true
      /\ e = LibraryNotFound (cstring R f_lib)
      /\ trace s' = trace s ++ [EvLock libmap_lock;
                                EvLoadLibrary (cstring R f_lib)]
  | Fault => False
  end.
Proof.
  intros Hs. rewrite get_library_registry by assumption. cbv zeta.
  assert (Ht : forall e x, trace (log e x) = trace x ++ [e]) by reflexivity.
  destruct (libMap s !! cstring R f_lib) as [h|];
    [destruct (is_null h)|];
    try destruct (is_null (platform_dlopen R (cstring R f_lib)));
    try destruct throw_err;
    repeat rewrite ?Ht, ?trace_set_libMap; rewrite <- ?app_assoc; cbn [app];
    try (split; [reflexivity|split; reflexivity]);
    try (exists [EvLoadLibrary (cstring R f_lib)]; split; [now right|reflexivity]);
    try (exists []; split; [now left|reflexivity]).
Qed.

End Discipline.

Lemma jl_get_library_lock_discipline_witness :
  exists s',
    jl_get_library_ demo_runtime 300 true demo_state
      = Throw (LibraryNotFound "libmissing") s'
    /\ trace s' = [EvLock libmap_lock; EvLoadLibrary "libmissing"].
Proof.
  pose proof (jl_get_library_lock_discipline demo_runtime 300 true demo_state
                eq_refl) as H.
  destruct (jl_get_library_ demo_runtime 300 true demo_state) as [h s'|e s'|]
    eqn:E; [discriminate E | | discriminate E].
  destruct H as (_ & -> & H). exists s'. split; [reflexivity | exact H].
Defined.
